(** * OpenPype server client: GraphQl query builder and v4/v3 entity layer

    Shallow embedding of [openpype/client/server/graphql.py] and
    [openpype/client/server/entities.py].

    Python objects are modelled as follows:
    - [str] is [string]; [int] is [Z]; [None]/[bool]/[int]/[str] values that
      travel through untyped containers are [scalar];
    - a [dict] whose iteration order is observable (the field trie, the filter
      and variable tables of a query) is an insertion-ordered association list
      with Python's assignment semantics ([dict_set]);
    - a [dict] or [set] whose order is not observable (filter tables handed to
      [set_variable_value], id sets, decoded records) is a [gmap]/[gset];
    - raising is a [result] carrying a [py_error];
    - a call on the connection is an entry appended to a call log. *)

From Stdlib Require Import ZArith List Ascii String Lia.
From stdpp Require Import base option list strings gmap sets pretty.

Set Warnings "-register-all,-clear-no-such-hyp".

(** ** Python values and errors *)

Module Py.

Inductive scalar : Type :=
| SNone
| SBool (b : bool)
| SInt (z : Z)
| SStr (s : string).

#[global] Instance scalar_eq_dec : EqDecision scalar.
Proof. solve_decision. Defined.

#[global] Instance scalar_countable : Countable scalar.
Proof.
  refine (inj_countable'
    (fun v => match v with
              | SNone => inl ()
              | SBool b => inr (inl b)
              | SInt z => inr (inr (inl z))
              | SStr s => inr (inr (inr s))
              end)
    (fun x => match x with
              | inl _ => SNone
              | inr (inl b) => SBool b
              | inr (inr (inl z)) => SInt z
              | inr (inr (inr s)) => SStr s
              end) _).
  by intros [].
Defined.

Inductive py_error : Type :=
| ValueError (msg : string)
| TypeError (msg : string)
| KeyError (key : string)
| IndexError (msg : string)
| NotImplementedError (msg : string).

Inductive result (A : Type) : Type :=
| Ok (a : A)
| Raise (e : py_error).

Arguments Ok {A} a.
Arguments Raise {A} e.

(** [str(v)] / ["{}".format(v)] on a scalar. *)
Definition py_str (v : scalar) : string :=
  match v with
  | SNone => "None"
  | SBool true => "True"
  | SBool false => "False"
  | SInt z => pretty z
  | SStr s => s
  end.

(** [a == b] on scalars; [bool] is a subclass of [int], so [True == 1]. *)
Definition py_eq (a b : scalar) : bool :=
  match a, b with
  | SNone, SNone => true
  | SBool x, SBool y => Bool.eqb x y
  | SBool x, SInt z | SInt z, SBool x => Z.eqb (if x then 1 else 0) z
  | SInt x, SInt y => Z.eqb x y
  | SStr x, SStr y => String.eqb x y
  | _, _ => false
  end.

(** [a is b] where [a] is one of the singletons [True]/[False]. *)
Definition py_is_bool (a : bool) (b : scalar) : bool :=
  match b with
  | SBool y => Bool.eqb a y
  | _ => false
  end.

(** An optional [bool] argument ([None], [True] or [False]) as a value. *)
Definition of_opt_bool (o : option bool) : scalar :=
  match o with
  | None => SNone
  | Some b => SBool b
  end.

(** Truthiness of an optional [bool] argument. *)
Definition truthy (o : option bool) : bool :=
  match o with
  | Some true => true
  | _ => false
  end.

(** Insertion-ordered [dict] with [str] keys. *)
Section Dict.
Context {V : Type}.

Fixpoint dict_get (k : string) (d : list (string * V)) : option V :=
  match d with
  | [] => None
  | (k', v) :: rest => if String.eqb k k' then Some v else dict_get k rest
  end.

(** [d[k] = v]: an existing key keeps its position, a new key goes last. *)
Fixpoint dict_set (k : string) (v : V) (d : list (string * V)) : list (string * V) :=
  match d with
  | [] => [(k, v)]
  | (k', v') :: rest =>
      if String.eqb k k' then (k, v) :: rest else (k', v') :: dict_set k v rest
  end.

End Dict.

(** [sep.join(parts)] *)
Fixpoint join (sep : string) (parts : list string) : string :=
  match parts with
  | [] => ""
  | [p] => p
  | p :: rest => p +:+ sep +:+ join sep rest
  end.

(** [s.split(".")] *)
Fixpoint split_dot (s : string) : list string :=
  match s with
  | EmptyString => [""]
  | String c rest =>
      if Ascii.eqb c "."%char then "" :: split_dot rest
      else match split_dot rest with
           | [] => [String c ""]
           | w :: ws => String c w :: ws
           end
  end.

(** The characters that cannot be written inside a literal. *)
Definition dquote : string := String (ascii_of_nat 34) EmptyString.
Definition newline : string := String (ascii_of_nat 10) EmptyString.

(** Sequencing of computations that may raise. *)
Definition res_bind {A B : Type} (r : result A) (k : A -> result B) : result B :=
  match r with
  | Ok a => k a
  | Raise e => Raise e
  end.

(** A [for] loop collecting one value per element; the first raise ends it. *)
Fixpoint res_mapM {A B : Type} (f : A -> result B) (l : list A) : result (list B) :=
  match l with
  | [] => Ok []
  | x :: rest =>
      res_bind (f x) (fun y => res_bind (res_mapM f rest) (fun ys => Ok (y :: ys)))
  end.

(** [n * " "] *)
Fixpoint spaces (n : nat) : string :=
  match n with
  | O => ""
  | S m => String " " (spaces m)
  end.

End Py.

Import Py.

(** ** graphql.py *)

Module GraphQl.

(** The field trie: [ALL_SUBFIELDS] is the sentinel object, [Dict] a nested
    [dict]. *)
Inductive node : Type :=
| ALL_SUBFIELDS
| Dict (items : list (string * node)).

(** The inner loop of [fields_to_dict] together with the final assignment:
    walk [hierarchy] down from [value], creating missing dicts, stop at a
    wildcard, and mark [last] as wildcard unless the walk ended on one.  The
    dicts are mutated in place in the source; here the path is rebuilt. *)
Fixpoint walk (hierarchy : list string) (last : string) (value : node) : node :=
  match value with
  | ALL_SUBFIELDS => ALL_SUBFIELDS
  | Dict items =>
      match hierarchy with
      | [] => Dict (dict_set last ALL_SUBFIELDS items)
      | part :: rest =>
          let child :=
            match dict_get part items with
            | Some c => c
            | None => Dict []
            end in
          Dict (dict_set part (walk rest last child) items)
      end
  end.

(** One iteration of the outer loop of [fields_to_dict]. *)
Definition add_path (output : node) (field : string) : node :=
  let hierarchy := split_dot field in
  let last := List.last hierarchy "" in
  let hierarchy := removelast hierarchy in
  walk hierarchy last output.

Definition fields_to_dict (fields : list string) : option node :=
  match fields with
  | [] => None
  | _ => Some (fold_left add_path fields (Dict []))
  end.

(** Leaf paths of a trie, as component lists, in dict order. *)
Fixpoint leaves (t : node) : list (list string) :=
  match t with
  | ALL_SUBFIELDS => [[]]
  | Dict items =>
      (fix go (l : list (string * node)) : list (list string) :=
         match l with
         | [] => []
         | (k, c) :: rest => List.map (cons k) (leaves c) ++ go rest
         end) items
  end.

(** Re-flattening of the output of [fields_to_dict] into dotted paths. *)
Definition flatten (o : option node) : list string :=
  match o with
  | None => []
  | Some t => List.map (join ".") (leaves t)
  end.

(** *** Query variables and filter values *)

(** What a caller passes as the [value_type] of a variable: the class [str],
    some other class, or (as [entities.py] does) a [str] instance such as
    ["String!"]. *)
Inductive type_obj : Type :=
| StrType
| OtherType (name : string)
| StrValue (s : string).

Definition type_obj_eqb (a b : type_obj) : bool :=
  match a, b with
  | StrType, StrType => true
  | OtherType x, OtherType y => String.eqb x y
  | StrValue x, StrValue y => String.eqb x y
  | _, _ => false
  end.

(** [six.string_types] under Python 3: the tuple [(str,)]. *)
Definition six_string_types : list type_obj := [StrType].

(** [str(value_type)] *)
Definition str_of_type_obj (t : type_obj) : string :=
  match t with
  | StrType => "<class 'str'>"
  | OtherType name => "<class '" +:+ name +:+ "'>"
  | StrValue s => s
  end.

Definition value_type_to_string (value_type : type_obj) : result string :=
  if existsb (type_obj_eqb value_type) six_string_types then Ok "String"
  else Raise (TypeError ("Unknown conversion for " +:+ str_of_type_obj value_type)).

(** A filter or variable value: a scalar or a list/set of scalars. *)
Inductive filter_value : Type :=
| FScalar (v : scalar)
| FList (items : list scalar).

Record QueryVariable : Type := { variable_name : string }.

(** [QueryVariable.name], also its [__str__]. *)
Definition qv_name (v : QueryVariable) : string := "$" +:+ variable_name v.

(** One entry of [GraphQlQuery._variables]. *)
Record variable_entry : Type := {
  ve_type : type_obj;
  ve_variable : QueryVariable;
  ve_value : filter_value
}.

(** *** GraphQlQueryItem *)

Inductive GraphQlQueryItem : Type :=
| MkItem (name : string) (has_edges : bool)
    (filters : list (string * filter_value))
    (children : list GraphQlQueryItem).

Definition item_name (it : GraphQlQueryItem) : string :=
  match it with MkItem n _ _ _ => n end.
Definition item_has_edges (it : GraphQlQueryItem) : bool :=
  match it with MkItem _ e _ _ => e end.
Definition item_filters (it : GraphQlQueryItem) : list (string * filter_value) :=
  match it with MkItem _ _ f _ => f end.
Definition item_children (it : GraphQlQueryItem) : list GraphQlQueryItem :=
  match it with MkItem _ _ _ c => c end.

(** The argument of [GraphQlQueryItem.filter]: a variable or a literal. *)
Inductive filter_arg : Type :=
| AVar (v : QueryVariable)
| ALit (v : filter_value).

(** The body of [filter(key, value)], on the [_filters] table of an item. *)
Definition filters_store (key : string) (value : filter_arg)
    (filters : list (string * filter_value)) : list (string * filter_value) :=
  let value :=
    match value with
    | AVar v => FScalar (SStr (qv_name v))
    | ALit v => v
    end in
  dict_set key value filters.

(** The body of the loop of [_filters_to_string] for one [(key, value)]. *)
Definition single_filter (key : string) (value : filter_value) : string :=
  match value with
  | FList items =>
      "[" +:+ join ", " (List.map (fun item => dquote +:+ py_str item +:+ dquote) items) +:+ "]"
  | FScalar v => key +:+ ": " +:+ py_str v
  end.

Definition _filters_to_string (filters : list (string * filter_value)) : string :=
  match filters with
  | [] => ""
  | _ => "(" +:+ join ", " (List.map (fun kv => single_filter (fst kv) (snd kv)) filters) +:+ ")"
  end.

(** [GraphQlQuery.offset], inherited by every item through its parent. *)
Definition offset : nat := 2.

(** [GraphQlQueryItem.child_indent] of an item at [indent]. *)
Definition child_indent (indent : nat) (has_edges : bool) : nat :=
  indent + (if has_edges then offset * 2 else 0).

(** [GraphQlQueryItem.calculate_query]; [indent] is the item's [indent]
    property, which the source reads off the parent chain. *)
Fixpoint item_calculate_query (indent : nat) (it : GraphQlQueryItem) : result string :=
  match it with
  | MkItem name has_edges filters children =>
      let offset_str := spaces indent in
      let header := offset_str +:+ name +:+ _filters_to_string filters in
      match children with
      | [] =>
          if has_edges
          then Raise (ValueError "Edged item don't have specified child fields")
          else Ok header
      | _ =>
          let edges_offset := offset_str +:+ spaces offset in
          let node_offset := edges_offset +:+ spaces offset in
          let opening :=
            if has_edges
            then [header +:+ " {"; edges_offset +:+ "edges {"; node_offset +:+ "node {"]
            else [header +:+ " {"] in
          let closing :=
            if has_edges
            then [node_offset +:+ "}"; edges_offset +:+ "}"; offset_str +:+ "}"]
            else [offset_str +:+ "}"] in
          let rendered :=
            (fix each (l : list GraphQlQueryItem) : result (list string) :=
               match l with
               | [] => Ok []
               | field :: rest =>
                   res_bind
                     (item_calculate_query (child_indent indent has_edges + offset) field)
                     (fun s => res_bind (each rest) (fun ss => Ok (s :: ss)))
               end) children in
          res_bind rendered (fun fields =>
            Ok (join newline (opening ++ fields ++ closing)))
      end
  end.

(** *** GraphQlQuery *)

Record GraphQlQuery : Type := {
  q_name : string;
  q_variables : list (string * variable_entry);
  q_children : list GraphQlQueryItem
}.

(** [GraphQlQuery(name)] *)
Definition new_query (name : string) : GraphQlQuery :=
  {| q_name := name; q_variables := []; q_children := [] |}.

Definition add_variable (key : string) (value_type : type_obj) (value : filter_value)
    (q : GraphQlQuery) : QueryVariable * GraphQlQuery :=
  let variable := {| variable_name := key |} in
  (variable,
   {| q_name := q_name q;
      q_variables :=
        dict_set key
          {| ve_type := value_type; ve_variable := variable; ve_value := value |}
          (q_variables q);
      q_children := q_children q |}).

Definition get_variable (key : string) (q : GraphQlQuery) : result QueryVariable :=
  match dict_get key (q_variables q) with
  | Some item => Ok (ve_variable item)
  | None => Raise (KeyError key)
  end.

Definition set_variable_value (key : string) (value : filter_value)
    (q : GraphQlQuery) : result GraphQlQuery :=
  match dict_get key (q_variables q) with
  | Some item =>
      Ok {| q_name := q_name q;
            q_variables :=
              dict_set key
                {| ve_type := ve_type item; ve_variable := ve_variable item;
                   ve_value := value |}
                (q_variables q);
            q_children := q_children q |}
  | None => Raise (KeyError key)
  end.

Definition get_variable_values (q : GraphQlQuery) : list (string * filter_value) :=
  List.map (fun kv => (fst kv, ve_value (snd kv))) (q_variables q).

(** The rendering of one declared variable in the header. *)
Definition variable_decl (kv : string * variable_entry) : result string :=
  res_bind (value_type_to_string (ve_type (snd kv))) (fun ty =>
    Ok (qv_name (ve_variable (snd kv)) +:+ ": " +:+ ty +:+ "!")).

Definition calculate_query (q : GraphQlQuery) : result string :=
  match q_children q with
  | [] => Raise (ValueError "Missing fields to query")
  | _ =>
      res_bind (res_mapM variable_decl (q_variables q)) (fun variables =>
        let variables_str :=
          match variables with
          | [] => ""
          | _ => "(" +:+ join "," variables +:+ ")"
          end in
        let header := "query " +:+ q_name q +:+ variables_str in
        res_bind (res_mapM (item_calculate_query (0 + offset)) (q_children q))
          (fun fields => Ok (join newline ([header +:+ " {"] ++ fields ++ ["}"]))))
  end.

(** *** Handles on the items of a query

    [add_field] returns the new item, which the caller goes on mutating while
    the query holds it.  An item is addressed here by the positions of its
    ancestors and of itself in the [_children] lists, from the query down. *)
Definition item_ref : Type := list nat.

Fixpoint item_at (path : item_ref) (children : list GraphQlQueryItem)
    : option GraphQlQueryItem :=
  match path with
  | [] => None
  | i :: rest =>
      match children !! i with
      | None => None
      | Some it =>
          match rest with
          | [] => Some it
          | _ => item_at rest (item_children it)
          end
      end
  end.

Fixpoint update_at (path : item_ref) (f : GraphQlQueryItem -> GraphQlQueryItem)
    (children : list GraphQlQueryItem) : list GraphQlQueryItem :=
  match path with
  | [] => children
  | i :: rest =>
      match rest with
      | [] => alter f i children
      | _ =>
          alter (fun it =>
                   MkItem (item_name it) (item_has_edges it) (item_filters it)
                     (update_at rest f (item_children it)))
                i children
      end
  end.

(** [has_edges=None] defaults to [False] in [GraphQlQueryItem.__init__]. *)
Definition new_item (name : string) (has_edges : option bool) : GraphQlQueryItem :=
  MkItem name (default false has_edges) [] [].

(** [GraphQlQuery.add_field]: the fresh item is in no [_children] list yet,
    so [add_obj_field] appends it. *)
Definition query_add_field (name : string) (has_edges : option bool)
    (q : GraphQlQuery) : item_ref * GraphQlQuery :=
  ([length (q_children q)],
   {| q_name := q_name q; q_variables := q_variables q;
      q_children := q_children q ++ [new_item name has_edges] |}).

(** [GraphQlQueryItem.add_field] on the item behind [parent]. *)
Definition item_add_field (parent : item_ref) (name : string) (has_edges : option bool)
    (q : GraphQlQuery) : item_ref * GraphQlQuery :=
  let n :=
    match item_at parent (q_children q) with
    | Some it => length (item_children it)
    | None => 0
    end in
  (parent ++ [n],
   {| q_name := q_name q; q_variables := q_variables q;
      q_children :=
        update_at parent
          (fun it =>
             MkItem (item_name it) (item_has_edges it) (item_filters it)
               (item_children it ++ [new_item name has_edges]))
          (q_children q) |}).

(** [GraphQlQueryItem.filter] (and [add_filter]) on the item behind [ref]. *)
Definition item_filter (ref : item_ref) (key : string) (value : filter_arg)
    (q : GraphQlQuery) : GraphQlQuery :=
  {| q_name := q_name q; q_variables := q_variables q;
     q_children :=
       update_at ref
         (fun it =>
            MkItem (item_name it) (item_has_edges it)
              (filters_store key value (item_filters it)) (item_children it))
         (q_children q) |}.

(** Modelled from the spec: [GraphQlQueryItem.set_filter], which
    [entities.py] calls and [graphql.py] under src does not define.  The spec
    gives it the contract of [filter]: a [QueryVariable] is stored as its
    textual reference, anything else as the literal. *)
Definition item_set_filter (ref : item_ref) (key : string) (value : filter_arg)
    (q : GraphQlQuery) : GraphQlQuery :=
  item_filter ref key value q.

End GraphQl.

Import GraphQl.

(** ** entities.py *)

Module Entities.

(** A decoded entity: the fields the server returned, by name. *)
Abbreviation record := (gmap string scalar).

(** *** The connection

    What reaches the connection when a query is executed: the query and the
    values of its variables.  The builders of [graphql_queries.py] are not
    part of the sources at hand, so a query they return is named by its
    builder and the field set handed to it, and every
    [query.set_variable_value(attr, value)] of the caller is recorded in
    [rq_variables]; a query assembled in place is carried as rendered. *)
Inductive query_source : Type :=
| Built (builder : string) (fields : gset string)
| Rendered (text : string).

Record request : Type := {
  rq_query : query_source;
  rq_variables : gmap string filter_value
}.

(** The server behind the connection: the records found under
    [parsed_data["project"][...]], the pages of a continuous query laid end
    to end. *)
Definition connection : Type := request -> list record.

(** A computation that may raise and that appends the requests it sends to
    the log of the connection. *)
Definition M (A : Type) : Type := list request -> result A * list request.

Definition ret {A : Type} (a : A) : M A := fun log => (Ok a, log).

Definition raise {A : Type} (e : py_error) : M A := fun log => (Raise e, log).

Definition bind {A B : Type} (m : M A) (k : A -> M B) : M B :=
  fun log =>
    match m log with
    | (Ok a, log') => k a log'
    | (Raise e, log') => (Raise e, log')
    end.

Definition lift {A : Type} (r : result A) : M A := fun log => (r, log).

(** [query.query(con)] / [query.continuous_query(con)] on a built query. *)
Definition call (con : connection) (rq : request) : M (list record) :=
  fun log => (Ok (con rq), log ++ [rq]).

Declare Scope py_scope.
Delimit Scope py_scope with py.
Notation "x <~ m ;; k" := (bind m (fun x => k))
  (at level 100, m at next level, right associativity) : py_scope.
Open Scope py_scope.

(** Modelled from the spec: [GraphQlQuery.query(con)], which [entities.py]
    calls and [graphql.py] under src does not define.  It sends the single
    rendered query and the bound variable values, and returns the decoded
    response. *)
Definition query_exec (con : connection) (q : GraphQlQuery) : M (list record) :=
  match calculate_query q with
  | Raise e => raise e
  | Ok text =>
      call con {| rq_query := Rendered text;
                  rq_variables := list_to_map (get_variable_values q) |}
  end.

(** *** Pieces the v4 functions repeat *)

(** [record[key]] *)
Definition getitem (r : record) (key : string) : result scalar :=
  match r !! key with
  | Some v => Ok v
  | None => Raise (KeyError key)
  end.

(** The stanza
    [if ids is not None: ids = set(ids); if not ids: return []; filters[key] = list(ids)].
    [None] stands for the early [return []]. *)
Definition id_filter (key : string) (ids : option (list scalar))
    (filters : gmap string filter_value) : option (gmap string filter_value) :=
  match ids with
  | None => Some filters
  | Some ids =>
      let ids : gset scalar := list_to_set ids in
      if decide (ids = ∅) then None
      else Some (<[key := FList (elements ids)]> filters)
  end.

(** The [parent_ids] stanza of [get_v4_folders] and [get_v4_folders_tasks]. *)
Definition parent_ids_filter (project_name : string) (parent_ids : option (list scalar))
    (filters : gmap string filter_value) : option (gmap string filter_value) :=
  match parent_ids with
  | None => Some filters
  | Some parent_ids =>
      let parent_ids : gset scalar := list_to_set parent_ids in
      if decide (parent_ids = ∅) then None
      else
        let parent_ids :=
          if decide (SNone ∈ parent_ids)
          then parent_ids ∖ {[SNone]} ∪ {[SStr "root"]}
          else parent_ids in
        let parent_ids :=
          if decide (SStr project_name ∈ parent_ids)
          then parent_ids ∖ {[SStr project_name]} ∪ {[SStr "root"]}
          else parent_ids in
        Some (<["parentFolderIds" := FList (elements parent_ids)]> filters)
  end.

(** [if not fields: fields = default] followed by [fields = set(fields)]. *)
Definition select_fields (fields : option (list string)) (default : list string)
    : gset string :=
  match fields with
  | None | Some [] => list_to_set default
  | Some fields => list_to_set fields
  end.

(** [if active is not None: fields.add("active")] *)
Definition add_active (active : option bool) (fields : gset string) : gset string :=
  match active with
  | Some _ => fields ∪ {["active"]}
  | None => fields
  end.

(** [[e for e in entities if e["active"] is active]] *)
Fixpoint keep_active_is (active : bool) (entities : list record) : result (list record) :=
  match entities with
  | [] => Ok []
  | e :: rest =>
      res_bind (getitem e "active") (fun v =>
      res_bind (keep_active_is active rest) (fun out =>
      Ok (if py_is_bool active v then e :: out else out)))
  end.

(** [[e for e in entities if e["active"] == active]] *)
Fixpoint keep_active_eq (active : scalar) (entities : list record) : result (list record) :=
  match entities with
  | [] => Ok []
  | e :: rest =>
      res_bind (getitem e "active") (fun v =>
      res_bind (keep_active_eq active rest) (fun out =>
      Ok (if py_eq v active then e :: out else out)))
  end.

Section Absent.

(** Constants of [constants.py] and converters of [conversion_utils.py],
    neither part of the sources at hand. *)
Variable DEFAULT_V3_FOLDER_FIELDS : list string.
Variable DEFAULT_FOLDER_FIELDS : list string.
Variable DEFAULT_VERSION_FIELDS : list string.
Variable DEFAULT_REPRESENTATION_FIELDS : list string.
Variable version_fields_v3_to_v4 : option (list string) -> option (list string).
Variable convert_v4_version_to_v3 : record -> record.

(** *** get_v4_folders *)

(** The filter table of [get_v4_folders], or [None] where it returns early. *)
Definition get_v4_folders_filters (project_name : string)
    (folder_ids folder_paths folder_names parent_ids : option (list scalar))
    : option (gmap string filter_value) :=
  if decide (project_name = "") then None
  else
    filters ← id_filter "folderIds" folder_ids
                {["projectName" := FScalar (SStr project_name)]};
    filters ← id_filter "folderPaths" folder_paths filters;
    filters ← id_filter "folderNames" folder_names filters;
    parent_ids_filter project_name parent_ids filters.

(** [get_v4_folders] is a generator; its result here is what iterating it to
    the end yields. *)
Definition get_v4_folders (con : connection) (project_name : string)
    (folder_ids folder_paths folder_names parent_ids : option (list scalar))
    (active : option bool) (fields : option (list string)) : M (list record) :=
  match get_v4_folders_filters project_name folder_ids folder_paths folder_names
          parent_ids with
  | None => ret []
  | Some filters =>
      let fields := add_active active (select_fields fields DEFAULT_FOLDER_FIELDS) in
      folders <~ call con {| rq_query := Built "folders_graphql_query" fields;
                             rq_variables := filters |} ;;
      match active with
      | None => ret folders
      | Some active => lift (keep_active_is active folders)
      end
  end.

(** *** get_v4_tasks *)

Definition get_v4_tasks_filters (project_name : string)
    (task_ids task_names task_types folder_ids : option (list scalar))
    : option (gmap string filter_value) :=
  if decide (project_name = "") then None
  else
    filters ← id_filter "taskIds" task_ids
                {["projectName" := FScalar (SStr project_name)]};
    filters ← id_filter "taskNames" task_names filters;
    filters ← id_filter "taskTypes" task_types filters;
    id_filter "folderIds" folder_ids filters.

Definition get_v4_tasks (con : connection) (project_name : string)
    (task_ids task_names task_types folder_ids : option (list scalar))
    (active : option bool) (fields : option (list string)) : M (list record) :=
  match get_v4_tasks_filters project_name task_ids task_names task_types folder_ids with
  | None => ret []
  | Some filters =>
      let fields := add_active active (select_fields fields DEFAULT_FOLDER_FIELDS) in
      tasks <~ call con {| rq_query := Built "tasks_graphql_query" fields;
                           rq_variables := filters |} ;;
      match active with
      | None => ret tasks
      | Some active => lift (keep_active_is active tasks)
      end
  end.

(** *** get_v4_folders_tasks *)

Definition get_v4_folders_tasks (con : connection) (project_name : string)
    (folder_ids folder_paths folder_names parent_ids : option (list scalar))
    (active : option bool) (fields : option (list string)) : M (list record) :=
  match get_v4_folders_filters project_name folder_ids folder_paths folder_names
          parent_ids with
  | None => ret []
  | Some filters =>
      let fields := add_active active (select_fields fields DEFAULT_V3_FOLDER_FIELDS) in
      folders <~ call con {| rq_query := Built "folders_tasks_graphql_query" fields;
                             rq_variables := filters |} ;;
      match active with
      | None => ret folders
      | Some active => lift (keep_active_is active folders)
      end
  end.

(** *** get_v4_versions *)

(** The filter table of [get_v4_versions], or [None] where it returns early:
    on an empty id filter, or when neither hero nor standard is asked for. *)
Definition get_v4_versions_filters (project_name : string)
    (version_ids subset_ids versions : option (list scalar))
    (hero standard : bool) (latest : option bool)
    : option (gmap string filter_value) :=
  filters ← id_filter "versionIds" version_ids
              {["projectName" := FScalar (SStr project_name)]};
  filters ← id_filter "subsetIds" subset_ids filters;
  filters ← id_filter "versions" versions filters;
  if negb hero && negb standard then None
  else
    Some (if hero && negb standard
          then <["heroOnly" := FScalar (SBool true)]> filters
          else if hero && truthy latest
          then <["heroOrLatestOnly" := FScalar (SBool true)]> filters
          else if truthy latest
          then <["latestOnly" := FScalar (SBool true)]> filters
          else filters).

Definition get_v4_versions (con : connection) (project_name : string)
    (version_ids subset_ids versions : option (list scalar))
    (hero standard : bool) (latest : option bool)
    (fields : option (list string)) : M (list record) :=
  let fields := select_fields fields DEFAULT_VERSION_FIELDS in
  match get_v4_versions_filters project_name version_ids subset_ids versions
          hero standard latest with
  | None => ret []
  | Some filters =>
      let fields := fields ∪ {["id"; "version"]} in
      call con {| rq_query := Built "versions_graphql_query" fields;
                  rq_variables := filters |}
  end.

(** *** get_v4_representations *)

(** [if ids is not None: ids = set(ids); if not ids: return []], keeping the
    set; the outer [None] stands for the early [return []]. *)
Definition id_set (ids : option (list scalar)) : option (option (gset scalar)) :=
  match ids with
  | None => Some None
  | Some ids =>
      let ids : gset scalar := list_to_set ids in
      if decide (ids = ∅) then None else Some (Some ids)
  end.

(** [if ids_filter: filters[key] = list(ids_filter)] *)
Definition truthy_set_filter (key : string) (ids_filter : option (gset scalar))
    (filters : gmap string filter_value) : gmap string filter_value :=
  match ids_filter with
  | None => filters
  | Some ids => if decide (ids = ∅) then filters else <[key := FList (elements ids)]> filters
  end.

(** [names_by_version_ids] is a [dict] from a version id to an iterable of
    names, given by its items. *)
Definition get_v4_representations_filters (project_name : string)
    (representation_ids representation_names version_ids : option (list scalar))
    (names_by_version_ids : option (list (scalar * list scalar)))
    : option (gmap string filter_value) :=
  filters ← id_filter "representationIds" representation_ids
              {["projectName" := FScalar (SStr project_name)]};
  both ←
    match names_by_version_ids with
    | Some items =>
        let version_ids_filter : gset scalar := list_to_set (fst <$> items) in
        let representaion_names_filter : gset scalar :=
          ⋃ ((fun kv => list_to_set (snd kv)) <$> items) in
        if decide (version_ids_filter = ∅ ∨ representaion_names_filter = ∅) then None
        else Some (Some version_ids_filter, Some representaion_names_filter)
    | None =>
        representaion_names_filter ← id_set representation_names;
        version_ids_filter ← id_set version_ids;
        Some (version_ids_filter, representaion_names_filter)
    end;
  Some (truthy_set_filter "representationNames" (snd both)
          (truthy_set_filter "versionIds" (fst both) filters)).

Definition get_v4_representations (con : connection) (project_name : string)
    (representation_ids representation_names version_ids : option (list scalar))
    (names_by_version_ids : option (list (scalar * list scalar)))
    (active : option bool) (fields : option (list string)) : M (list record) :=
  let fields := add_active active (select_fields fields DEFAULT_REPRESENTATION_FIELDS) in
  match get_v4_representations_filters project_name representation_ids
          representation_names version_ids names_by_version_ids with
  | None => ret []
  | Some filters =>
      representations <~ call con {| rq_query := Built "representations_graphql_query" fields;
                                     rq_variables := filters |} ;;
      match active with
      | None => lift (keep_active_eq (of_opt_bool active) representations)
      | Some _ => ret representations
      end
  end.

(** *** _get_versions *)

(** [v < 0] *)
Definition py_lt0 (v : scalar) : result bool :=
  match v with
  | SInt z => Ok (z <? 0)%Z
  | SBool _ => Ok false
  | SNone => Raise (TypeError "'<' not supported between instances of 'NoneType' and 'int'")
  | SStr _ => Raise (TypeError "'<' not supported between instances of 'str' and 'int'")
  end.

(** [abs(v)] *)
Definition py_abs (v : scalar) : result scalar :=
  match v with
  | SInt z => Ok (SInt (Z.abs z))
  | SBool b => Ok (SInt (if b then 1 else 0))
  | SNone => Raise (TypeError "bad operand type for abs(): 'NoneType'")
  | SStr _ => Raise (TypeError "bad operand type for abs(): 'str'")
  end.

(** The first loop of [_get_versions]: the converted standard versions and
    the raw hero versions, each in the order queried. *)
Fixpoint split_versions (queried_versions : list record)
    : result (list record * list record) :=
  match queried_versions with
  | [] => Ok ([], [])
  | version :: rest =>
      res_bind (getitem version "version") (fun n =>
      res_bind (py_lt0 n) (fun is_hero =>
      res_bind (split_versions rest) (fun out =>
      Ok (if is_hero : bool
          then (fst out, version :: snd out)
          else (convert_v4_version_to_v3 version :: fst out, snd out)))))
  end.

(** The loop filling [versions_nums] and [subset_ids]. *)
Fixpoint hero_keys (hero_versions : list record) : result (gset scalar * gset scalar) :=
  match hero_versions with
  | [] => Ok (∅, ∅)
  | hero_version :: rest =>
      res_bind (getitem hero_version "version") (fun n =>
      res_bind (py_abs n) (fun abs_version =>
      res_bind (getitem hero_version "subsetId") (fun subset_id =>
      res_bind (hero_keys rest) (fun out =>
      Ok ({[subset_id]} ∪ fst out, {[abs_version]} ∪ snd out)))))
  end.

(** The inner loop over [hero_eq_by_subset_id.get(subset_id, [])]. *)
Fixpoint find_version_id (abs_version : scalar) (candidates : list record) : result scalar :=
  match candidates with
  | [] => Ok SNone
  | version :: rest =>
      res_bind (getitem version "version") (fun n =>
        if py_eq n abs_version then getitem version "id"
        else find_version_id abs_version rest)
  end.

(** The body of the last loop for one hero version: the local [conv_hero]
    once [version_id] has been stored in it.  [by_subset_id] holds the
    secondary lookup with the key each record was filed under. *)
Definition convert_hero (by_subset_id : list (scalar * record)) (hero_version : record)
    : result record :=
  res_bind (getitem hero_version "version") (fun n =>
  res_bind (py_abs n) (fun abs_version =>
  res_bind (getitem hero_version "subsetId") (fun subset_id =>
  let candidates := snd <$> base.filter (fun kv => py_eq (fst kv) subset_id = true) by_subset_id in
  res_bind (find_version_id abs_version candidates) (fun version_id =>
  Ok (<["version_id" := version_id]> (convert_v4_version_to_v3 hero_version)))))).

(** The body of [if hero_versions:], returning the [conv_hero] records the
    last loop builds, in order.  The source binds each to a local name and
    stores it nowhere. *)
Definition resolve_hero_versions (con : connection) (project_name : string)
    (hero_versions : list record) : M (list record) :=
  keys <~ lift (hero_keys hero_versions) ;;
  hero_eq_versions <~
    get_v4_versions con project_name None (Some (elements (fst keys)))
      (Some (elements (snd keys))) false true None
      (Some ["id"; "version"; "subsetId"]) ;;
  by_subset_id <~
    lift (res_mapM (fun version =>
            res_bind (getitem version "subsetId") (fun subset_id =>
            Ok (subset_id, version))) hero_eq_versions) ;;
  lift (res_mapM (convert_hero by_subset_id) hero_versions).

Definition _get_versions (con : connection) (project_name : string)
    (version_ids subset_ids versions : option (list scalar))
    (hero standard : bool) (latest : option bool)
    (fields : option (list string)) : M (list record) :=
  let fields := version_fields_v3_to_v4 fields in
  let fields :=
    match fields with
    | Some (_ :: _ as l) =>
        if hero
        then Some (elements (list_to_set l ∪ {["subsetId"; "version"]} : gset string))
        else fields
    | _ => fields
    end in
  queried_versions <~
    get_v4_versions con project_name version_ids subset_ids versions hero standard
      latest fields ;;
  both <~ lift (split_versions queried_versions) ;;
  let versions := fst both in
  let hero_versions := snd both in
  match hero_versions with
  | [] => ret versions
  | _ :: _ =>
      _ <~ resolve_hero_versions con project_name hero_versions ;;
      ret versions
  end.

(** *** get_last_version_by_subset_id *)

Definition get_last_version_by_subset_id (con : connection) (project_name : string)
    (subset_id : scalar) (fields : option (list string)) : M (option record) :=
  versions <~
    _get_versions con project_name None (Some [subset_id]) None true true (Some true)
      fields ;;
  match versions with
  | [] => raise (IndexError "list index out of range")
  | _ :: _ => ret None
  end.

End Absent.

(** *** Queries assembled in place *)

(** The query [version_is_latest] has built when it calls [query.query(con)]. *)
Definition version_is_latest_query (project_name version_id : string) : GraphQlQuery :=
  let query := new_query "VersionIsLatest" in
  let '(project_name_var, query) :=
    add_variable "projectName" (StrValue "String!") (FScalar (SStr project_name)) query in
  let '(version_id_var, query) :=
    add_variable "versionId" (StrValue "String!") (FScalar (SStr version_id)) query in
  let '(project_query, query) := query_add_field "project" None query in
  let query := item_set_filter project_query "name" (AVar project_name_var) query in
  let '(version_query, query) := item_add_field project_query "version" None query in
  let query := item_set_filter version_query "id" (AVar version_id_var) query in
  let '(subset_query, query) := item_add_field version_query "subset" None query in
  let '(latest_version_query, query) :=
    item_add_field subset_query "latestVersion" None query in
  let '(_, query) := item_add_field latest_version_query "id" None query in
  query.

(** The query [get_subset_families] has built, with [subset_ids=None], when
    it calls [query.query(con)]. *)
Definition subset_families_query (project_name : string) : GraphQlQuery :=
  let query := new_query "SubsetFamilies" in
  let '(project_name_var, query) :=
    add_variable "projectName" (StrValue "String!") (FScalar (SStr project_name)) query in
  let '(project_query, query) := query_add_field "project" None query in
  let query := item_set_filter project_query "name" (AVar project_name_var) query in
  let '(_, query) := item_add_field project_query "subsetFamilies" None query in
  query.

End Entities.

Import Entities.

(** ** graphql.py: queries built from a field list *)

Module GraphQlBuild.

(** What a builder ends with: the query, or the [AttributeError] of calling
    [.items()] on something that is no [dict]. *)
Inductive built : Type :=
| BuiltQuery (q : GraphQlQuery)
| AttributeError (msg : string).

(** Number of [(key, value)] entries the loop of a builder will dequeue for
    the entry of a value: the entry itself and those of the trie below. *)
Fixpoint node_weight (t : node) : nat :=
  match t with
  | ALL_SUBFIELDS => 1
  | Dict items =>
      S ((fix below (l : list (string * node)) : nat :=
            match l with
            | [] => 0
            | (_, c) :: rest => node_weight c + below rest
            end) items)
  end.

Definition queue_weight (query_queue : list (string * node * item_ref)) : nat :=
  foldr (fun entry n => node_weight (snd (fst entry)) + n) 0 query_queue.

(** The [while query_queue:] loop shared by the two builders, one iteration
    per unit of [fuel]; [None] when the fuel runs out before the queue. *)
Fixpoint expand (fuel : nat) (query_queue : list (string * node * item_ref))
    (query : GraphQlQuery) : option GraphQlQuery :=
  match query_queue with
  | [] => Some query
  | (key, value, parent) :: rest =>
      match fuel with
      | O => None
      | S fuel =>
          let '(field, query) := item_add_field parent key None query in
          match value with
          | ALL_SUBFIELDS => expand fuel rest query
          | Dict items =>
              expand fuel (rest ++ ((fun kv => (fst kv, snd kv, field)) <$> items)) query
          end
      end
  end.

(** The builders below return [None] only if the loop was cut short by its
    fuel, which is the number of entries it has to dequeue. *)
Definition projects_graphql_from_fields (fields : list string) : option built :=
  let query := new_query "ProjectsQuery" in
  let '(projects_query, query) := query_add_field "projects" (Some true) query in
  match fields_to_dict fields with
  | None => Some (AttributeError "'NoneType' object has no attribute 'items'")
  | Some ALL_SUBFIELDS => Some (AttributeError "'object' object has no attribute 'items'")
  | Some (Dict items) =>
      let query_queue := (fun kv => (fst kv, snd kv, projects_query)) <$> items in
      BuiltQuery <$> expand (queue_weight query_queue) query_queue query
  end.

Definition project_graphql_from_fields (project_name : string) (fields : list string)
    : option built :=
  let query := new_query "ProjectQuery" in
  let '(project_name_var, query) :=
    add_variable "projectName" StrType (FScalar (SStr project_name)) query in
  let '(project_query, query) := query_add_field "project" None query in
  let query := item_filter project_query "name" (AVar project_name_var) query in
  match fields_to_dict fields with
  | None => Some (AttributeError "'NoneType' object has no attribute 'items'")
  | Some ALL_SUBFIELDS => Some (AttributeError "'object' object has no attribute 'items'")
  | Some (Dict items) =>
      let query_queue :=
        (fun kv => (fst kv, snd kv, project_query))
          <$> base.filter (fun kv => fst kv <> "name") items in
      BuiltQuery <$> expand (queue_weight query_queue) query_queue query
  end.

End GraphQlBuild.

Import GraphQlBuild.

(** ** entities.py: the v3 functions over the v4 queries *)

Module EntitiesV3.

Open Scope py_scope.

(** [bool(v)] *)
Definition py_truthy (v : scalar) : bool :=
  match v with
  | SNone => false
  | SBool b => b
  | SInt z => negb (z =? 0)%Z
  | SStr s => negb (String.eqb s "")
  end.

(** [v in items] for a list: the first item equal to [v] decides. *)
Definition py_in (v : scalar) (items : list scalar) : bool :=
  existsb (py_eq v) items.

(** [if entities: return entities[0]] followed by [return None]. *)
Definition first_or_none (entities : list record) : option record :=
  match entities with
  | [] => None
  | entity :: _ => Some entity
  end.

(** What [for e in entities: if active is e["active"]: yield e] yields first,
    if anything: the records after it are not looked at. *)
Fixpoint first_active_is (active : bool) (entities : list record) : result (option record) :=
  match entities with
  | [] => Ok None
  | e :: rest =>
      res_bind (getitem e "active") (fun v =>
        if py_is_bool active v then Ok (Some e) else first_active_is active rest)
  end.

(** *** get_asset_ids_with_subsets *)

Definition get_asset_ids_with_subsets (con : connection) (project_name : string)
    (asset_ids : option (list scalar)) : M (gset scalar) :=
  match id_set asset_ids with
  | None => ret ∅
  | Some asset_ids =>
      let variables : gmap string filter_value :=
        <["folderHasSubsets" := FScalar (SBool true)]>
          {["projectName" := FScalar (SStr project_name)]} in
      let variables := truthy_set_filter "folderIds" asset_ids variables in
      folders <~ call con {| rq_query := Built "folders_graphql_query" {["id"]};
                             rq_variables := variables |} ;;
      ids <~ lift (res_mapM (fun folder => getitem folder "id") folders) ;;
      ret (list_to_set ids)
  end.

Section Absent.

(** Constants of [constants.py] and converters of [conversion_utils.py],
    neither part of the sources at hand. *)
Variable DEFAULT_V3_FOLDER_FIELDS : list string.
Variable DEFAULT_FOLDER_FIELDS : list string.
Variable DEFAULT_SUBSET_FIELDS : list string.
Variable DEFAULT_VERSION_FIELDS : list string.
Variable DEFAULT_REPRESENTATION_FIELDS : list string.
Variable folder_fields_v3_to_v4 : option (list string) -> option (list string).
Variable convert_v4_folder_to_v3 : record -> string -> record.
Variable subset_fields_v3_to_v4 : option (list string) -> option (gset string).
Variable convert_v4_subset_to_v3 : record -> record.
Variable version_fields_v3_to_v4 : option (list string) -> option (list string).
Variable convert_v4_version_to_v3 : record -> record.
Variable representation_fields_v3_to_v4 : option (list string) -> option (list string).
Variable convert_v4_representation_to_v3 : record -> record.

(** *** get_assets *)

(** ["tasks" in fields], which raises when [fields] is [None]. *)
Definition tasks_in (fields : option (list string)) : result bool :=
  match fields with
  | None => Raise (TypeError "argument of type 'NoneType' is not iterable")
  | Some fields => Ok (bool_decide ("tasks" ∈ fields))
  end.

(** [get_assets] is a generator; its result here is what iterating it to the
    end yields. *)
Definition get_assets (con : connection) (project_name : string)
    (asset_ids asset_names parent_ids : option (list scalar)) (archived : bool)
    (fields : option (list string)) : M (list record) :=
  if decide (project_name = "") then ret []
  else
    let active := if archived then false else true in
    let fields := folder_fields_v3_to_v4 fields in
    with_tasks <~ lift (tasks_in fields) ;;
    folders <~
      (if with_tasks : bool
       then get_v4_folders_tasks DEFAULT_V3_FOLDER_FIELDS con project_name asset_ids None
              asset_names parent_ids (Some active) fields
       else get_v4_folders DEFAULT_FOLDER_FIELDS con project_name asset_ids None
              asset_names parent_ids (Some active) fields) ;;
    ret ((fun folder => convert_v4_folder_to_v3 folder project_name) <$> folders).

(** [for asset in get_assets(...): return asset] followed by [return None]:
    the generators are run up to their first yield only.
    [get_v4_folders_tasks] is no generator and is run to its end. *)
Definition first_asset (con : connection) (project_name : string)
    (asset_ids asset_names parent_ids : option (list scalar)) (archived : bool)
    (fields : option (list string)) : M (option record) :=
  if decide (project_name = "") then ret None
  else
    let active := if archived then false else true in
    let fields := folder_fields_v3_to_v4 fields in
    with_tasks <~ lift (tasks_in fields) ;;
    folder <~
      (if with_tasks : bool
       then
         folders <~ get_v4_folders_tasks DEFAULT_V3_FOLDER_FIELDS con project_name
                      asset_ids None asset_names parent_ids (Some active) fields ;;
         ret (first_or_none folders)
       else
         match get_v4_folders_filters project_name asset_ids None asset_names parent_ids with
         | None => ret None
         | Some filters =>
             let fields :=
               add_active (Some active) (select_fields fields DEFAULT_FOLDER_FIELDS) in
             folders <~ call con {| rq_query := Built "folders_graphql_query" fields;
                                    rq_variables := filters |} ;;
             lift (first_active_is active folders)
         end) ;;
    ret ((fun folder => convert_v4_folder_to_v3 folder project_name) <$> folder).

Definition get_asset_by_id (con : connection) (project_name : string) (asset_id : scalar)
    (fields : option (list string)) : M (option record) :=
  first_asset con project_name (Some [asset_id]) None None false fields.

Definition get_asset_by_name (con : connection) (project_name : string)
    (asset_name : scalar) (fields : option (list string)) : M (option record) :=
  first_asset con project_name None (Some [asset_name]) None false fields.

(** *** _get_subsets and its wrappers *)

(** The loop over [names_by_folder_ids.items()] that fills
    [filter_folder_ids] and [filter_subset_names]. *)
Fixpoint names_by_folder_filters (items : list (scalar * list scalar))
    : gset scalar * gset scalar :=
  match items with
  | [] => (∅, ∅)
  | (folder_id, names) :: rest =>
      let out := names_by_folder_filters rest in
      if py_truthy folder_id && negb (bool_decide (names = []))
      then ({[folder_id]} ∪ fst out, list_to_set names ∪ snd out)
      else out
  end.

(** The client-side filter of [_get_subsets] as the source has it: for every
    entry of [names_by_folder_ids] and every subset filed under its folder
    whose name is among the names, the record appended is [subset], the
    variable the loop that filed the subsets left bound to the last of them. *)
Definition filter_by_names (by_folder_id : list (scalar * record))
    (last_subset : record) (items : list (scalar * list scalar)) : result (list record) :=
  res_bind
    (res_mapM
       (fun entry : scalar * list scalar =>
          let folder_subsets :=
            snd <$> base.filter (fun kv => py_eq (fst kv) (fst entry) = true) by_folder_id in
          res_mapM
            (fun folder_subset : record =>
               res_bind (getitem folder_subset "name") (fun name =>
                 Ok (if py_in name (snd entry) then [last_subset] else [])))
            folder_subsets)
       items)
    (fun found => Ok (concat (concat found))).

Definition _get_subsets (con : connection) (project_name : string)
    (subset_ids subset_names folder_ids : option (list scalar))
    (names_by_folder_ids : option (list (scalar * list scalar)))
    (archived : bool) (fields : option (list string)) : M (list record) :=
  if decide (project_name = "") then ret []
  else
    match id_set subset_ids, id_set subset_names, id_set folder_ids with
    | Some subset_ids, Some filter_subset_names, Some filter_folder_ids =>
        let both :=
          match names_by_folder_ids with
          | Some items =>
              let found := names_by_folder_filters items in
              if decide (snd found = ∅ \/ fst found = ∅) then None
              else Some (Some (snd found), Some (fst found))
          | None => Some (filter_subset_names, filter_folder_ids)
          end in
        match both with
        | None => ret []
        | Some (filter_subset_names, filter_folder_ids) =>
            let by_names :=
              match names_by_folder_ids with
              | Some (_ :: _) => true
              | _ => false
              end in
            let fields :=
              match subset_fields_v3_to_v4 fields with
              | Some fields => fields ∪ {["id"]} ∪ {["active"]}
              | None => list_to_set DEFAULT_SUBSET_FIELDS
              end in
            let fields :=
              if by_names then fields ∪ {["name"]} ∪ {["folderId"]} else fields in
            let filters : gmap string filter_value :=
              truthy_set_filter "subsetNames" filter_subset_names
                (truthy_set_filter "subsetIds" subset_ids
                   (truthy_set_filter "folderIds" filter_folder_ids
                      {["projectName" := FScalar (SStr project_name)]})) in
            subsets <~ call con {| rq_query := Built "subsets_graphql_query" fields;
                                   rq_variables := filters |} ;;
            subsets <~
              (if by_names
               then
                 by_folder_id <~
                   lift (res_mapM (fun subset =>
                           res_bind (getitem subset "folderId") (fun folder_id =>
                           Ok (folder_id, subset))) subsets) ;;
                 match List.last (Some <$> subsets) None with
                 | None => ret []
                 | Some last_subset =>
                     lift (filter_by_names by_folder_id last_subset
                             (default [] names_by_folder_ids))
                 end
               else ret subsets) ;;
            ret (convert_v4_subset_to_v3 <$> subsets)
        end
    | _, _, _ => ret []
    end.

Definition get_subsets (con : connection) (project_name : string)
    (subset_ids subset_names asset_ids : option (list scalar))
    (names_by_asset_ids : option (list (scalar * list scalar)))
    (archived : bool) (fields : option (list string)) : M (list record) :=
  _get_subsets con project_name subset_ids subset_names asset_ids names_by_asset_ids
    archived fields.

Definition get_subset_by_id (con : connection) (project_name : string)
    (subset_id : scalar) (fields : option (list string)) : M (option record) :=
  subsets <~ get_subsets con project_name (Some [subset_id]) None None None false fields ;;
  ret (first_or_none subsets).

Definition get_subset_by_name (con : connection) (project_name : string)
    (subset_name asset_id : scalar) (fields : option (list string)) : M (option record) :=
  subsets <~ get_subsets con project_name None (Some [subset_name]) (Some [asset_id])
               None false fields ;;
  ret (first_or_none subsets).

(** *** The wrappers of _get_versions *)

Definition get_versions (con : connection) (project_name : string)
    (version_ids subset_ids versions : option (list scalar)) (hero : bool)
    (fields : option (list string)) : M (list record) :=
  _get_versions DEFAULT_VERSION_FIELDS version_fields_v3_to_v4 convert_v4_version_to_v3
    con project_name version_ids subset_ids versions hero true None fields.

Definition get_version_by_id (con : connection) (project_name : string)
    (version_id : scalar) (fields : option (list string)) : M (option record) :=
  versions <~ get_versions con project_name (Some [version_id]) None None true fields ;;
  ret (first_or_none versions).

Definition get_version_by_name (con : connection) (project_name : string)
    (version subset_id : scalar) (fields : option (list string)) : M (option record) :=
  versions <~ get_versions con project_name None (Some [subset_id]) (Some [version])
                false fields ;;
  ret (first_or_none versions).

Definition get_hero_versions (con : connection) (project_name : string)
    (subset_ids version_ids : option (list scalar)) (fields : option (list string))
    : M (list record) :=
  _get_versions DEFAULT_VERSION_FIELDS version_fields_v3_to_v4 convert_v4_version_to_v3
    con project_name version_ids subset_ids None true false None fields.

Definition get_hero_version_by_id (con : connection) (project_name : string)
    (version_id : scalar) (fields : option (list string)) : M (option record) :=
  versions <~ get_hero_versions con project_name None (Some [version_id]) fields ;;
  ret (first_or_none versions).

Definition get_hero_version_by_subset_id (con : connection) (project_name : string)
    (subset_id : scalar) (fields : option (list string)) : M (option record) :=
  versions <~ get_hero_versions con project_name (Some [subset_id]) None fields ;;
  ret (first_or_none versions).

(** *** get_representations and its wrappers *)

(** [context_filters] is looked at for being [None] only. *)
Definition get_representations (con : connection) (project_name : string)
    (representation_ids representation_names version_ids : option (list scalar))
    (context_filters : option (list (string * scalar)))
    (names_by_version_ids : option (list (scalar * list scalar)))
    (archived standard : bool) (fields : option (list string)) : M (list record) :=
  match context_filters with
  | Some _ => raise (ValueError "OP v4 can't filter by representation context.")
  | None =>
      if negb archived && negb standard then ret []
      else
        let active :=
          if archived && negb standard then Some false
          else if negb archived && standard then Some true
          else None in
        let fields := representation_fields_v3_to_v4 fields in
        representations <~
          get_v4_representations DEFAULT_REPRESENTATION_FIELDS con project_name
            representation_ids representation_names version_ids names_by_version_ids
            active fields ;;
        ret (convert_v4_representation_to_v3 <$> representations)
  end.

Definition get_representation_by_id (con : connection) (project_name : string)
    (representation_id : scalar) (fields : option (list string)) : M (option record) :=
  representations <~
    get_representations con project_name (Some [representation_id]) None None None None
      false true fields ;;
  ret (first_or_none representations).

Definition get_representation_by_name (con : connection) (project_name : string)
    (representation_name version_id : scalar) (fields : option (list string))
    : M (option record) :=
  representations <~
    get_representations con project_name None (Some [representation_name])
      (Some [version_id]) None None false true fields ;;
  ret (first_or_none representations).

(** *** get_last_version_by_subset_name *)

(** [asset_id] and [asset_name] default to [None].  [not asset] holds of
    [None] and of an empty [dict]. *)
Definition get_last_version_by_subset_name (con : connection) (project_name : string)
    (subset_name asset_id asset_name : scalar) (fields : option (list string))
    : M (option record) :=
  let with_asset_id (asset_id : scalar) : M (option record) :=
    subset <~ get_subset_by_name con project_name subset_name asset_id (Some ["_id"]) ;;
    match subset with
    | None => ret None
    | Some subset =>
        if decide (subset = ∅) then ret None
        else
          subset_id <~ lift (getitem subset "id") ;;
          get_last_version_by_subset_id DEFAULT_VERSION_FIELDS version_fields_v3_to_v4
            convert_v4_version_to_v3 con project_name subset_id fields
    end in
  if negb (py_truthy asset_id) && negb (py_truthy asset_name) then ret None
  else if negb (py_truthy asset_id)
  then
    asset <~ get_asset_by_name con project_name asset_name (Some ["_id"]) ;;
    match asset with
    | None => ret None
    | Some asset =>
        if decide (asset = ∅) then ret None
        else
          asset_id <~ lift (getitem asset "_id") ;;
          with_asset_id asset_id
    end
  else with_asset_id asset_id.

End Absent.

End EntitiesV3.

Import EntitiesV3.

(** ** Notions the statements below are phrased with *)

(** Every has-edges item of the tree under [it] has a child. *)
Fixpoint edged_ok (it : GraphQlQueryItem) : bool :=
  match it with
  | MkItem _ has_edges _ children =>
      (negb has_edges || negb (bool_decide (children = []))) && forallb edged_ok children
  end.

(** The error raised is a [TypeError]. *)
Definition is_type_error {A : Type} (r : result A) : bool :=
  match r with
  | Raise (TypeError _) => true
  | _ => false
  end.

(** *** Servers and records used as concrete inputs *)

(** A server that answers every request with the same records. *)
Definition con_const (found : list record) : connection := fun _ => found.

Definition inactive_repre : record :=
  {["id" := SStr "r1"; "active" := SBool false]}.

Definition version_1 : record :=
  {["id" := SStr "V1"; "version" := SInt 1; "subsetId" := SStr "S"]}.

Definition hero_version_3 : record :=
  {["id" := SStr "H3"; "version" := SInt (-3); "subsetId" := SStr "S"]}.

Definition standard_version_3 : record :=
  {["id" := SStr "V123"; "version" := SInt 3; "subsetId" := SStr "S"]}.

(** A server holding the hero version [-3] of subset [S] and its standard
    version [3]: a request that filters by version numbers (the secondary
    lookup) finds the standard version, any other finds the hero version. *)
Definition con_hero : connection :=
  fun rq =>
    match rq_variables rq !! "versions" with
    | Some _ => [standard_version_3]
    | None => [hero_version_3]
    end.

(** *** Calls of the v4 entity query functions *)

(** A call of one of the v4 entity query functions that take iterable
    filter arguments, with its arguments in the order of the signature
    ([con] apart). *)
Inductive v4_call : Type :=
| FoldersCall (project_name : string)
    (folder_ids folder_paths folder_names parent_ids : option (list scalar))
    (active : option bool) (fields : option (list string))
| TasksCall (project_name : string)
    (task_ids task_names task_types folder_ids : option (list scalar))
    (active : option bool) (fields : option (list string))
| FoldersTasksCall (project_name : string)
    (folder_ids folder_paths folder_names parent_ids : option (list scalar))
    (active : option bool) (fields : option (list string))
| VersionsCall (project_name : string)
    (version_ids subset_ids versions : option (list scalar))
    (hero standard : bool) (latest : option bool) (fields : option (list string))
| RepresentationsCall (project_name : string)
    (representation_ids representation_names version_ids : option (list scalar))
    (names_by_version_ids : option (list (scalar * list scalar)))
    (active : option bool) (fields : option (list string)).

Definition run_v4 (DEFAULT_V3_FOLDER_FIELDS DEFAULT_FOLDER_FIELDS DEFAULT_VERSION_FIELDS
    DEFAULT_REPRESENTATION_FIELDS : list string) (con : connection) (c : v4_call)
    : M (list record) :=
  match c with
  | FoldersCall project_name folder_ids folder_paths folder_names parent_ids active fields =>
      get_v4_folders DEFAULT_FOLDER_FIELDS con project_name folder_ids folder_paths
        folder_names parent_ids active fields
  | TasksCall project_name task_ids task_names task_types folder_ids active fields =>
      get_v4_tasks DEFAULT_FOLDER_FIELDS con project_name task_ids task_names task_types
        folder_ids active fields
  | FoldersTasksCall project_name folder_ids folder_paths folder_names parent_ids active
      fields =>
      get_v4_folders_tasks DEFAULT_V3_FOLDER_FIELDS con project_name folder_ids
        folder_paths folder_names parent_ids active fields
  | VersionsCall project_name version_ids subset_ids versions hero standard latest fields =>
      get_v4_versions DEFAULT_VERSION_FIELDS con project_name version_ids subset_ids
        versions hero standard latest fields
  | RepresentationsCall project_name representation_ids representation_names version_ids
      names_by_version_ids active fields =>
      get_v4_representations DEFAULT_REPRESENTATION_FIELDS con project_name
        representation_ids representation_names version_ids names_by_version_ids
        active fields
  end.

(** The argument was passed, and as an empty iterable. *)
Definition is_empty {A : Type} (arg : option (list A)) : bool :=
  match arg with
  | Some [] => true
  | _ => false
  end.

(** Some iterable filter argument that the function reads is empty.  In
    [get_v4_representations], [representation_names] and [version_ids] are
    read only when [names_by_version_ids] is [None]. *)
Definition empty_filter_read (c : v4_call) : bool :=
  match c with
  | FoldersCall _ folder_ids folder_paths folder_names parent_ids _ _
  | FoldersTasksCall _ folder_ids folder_paths folder_names parent_ids _ _ =>
      is_empty folder_ids || is_empty folder_paths || is_empty folder_names
      || is_empty parent_ids
  | TasksCall _ task_ids task_names task_types folder_ids _ _ =>
      is_empty task_ids || is_empty task_names || is_empty task_types
      || is_empty folder_ids
  | VersionsCall _ version_ids subset_ids versions _ _ _ _ =>
      is_empty version_ids || is_empty subset_ids || is_empty versions
  | RepresentationsCall _ representation_ids representation_names version_ids
      names_by_version_ids _ _ =>
      is_empty representation_ids || is_empty names_by_version_ids
      || match names_by_version_ids with
         | Some _ => false
         | None => is_empty representation_names || is_empty version_ids
         end
  end.

(** *** Field paths *)

(** [r] is a proper prefix of the component list [q]. *)
Definition proper_prefix (r q : list string) : Prop := r `prefix_of` q /\ r <> q.

#[global] Instance proper_prefix_dec r q : Decision (proper_prefix r q).
Proof. unfold proper_prefix. apply _. Defined.

(** The dotted path [q] is a proper prefix of the dotted path [p], component
    by component: [p] is [q], a dot, and more. *)
Definition dotted_prefix (q p : string) : Prop :=
  proper_prefix (split_dot q) (split_dot p).

(** The leaf paths of a set of field paths: its members none of whose proper
    prefixes is a member too. *)
Definition leaf_path (P : list string) (p : string) : Prop :=
  In p P /\ forall q, In q P -> ~ dotted_prefix q p.

(** [p] is the path of a wildcard of the trie [t]. *)
Fixpoint is_leaf (t : node) (p : list string) {struct p} : Prop :=
  match t with
  | ALL_SUBFIELDS => p = []
  | Dict items =>
      match p with
      | [] => False
      | k :: rest =>
          match dict_get k items with
          | Some c => is_leaf c rest
          | None => False
          end
      end
  end.

(** No [dict] of the trie holds a key twice. *)
Inductive wf : node -> Prop :=
| wf_all : wf ALL_SUBFIELDS
| wf_dict items :
    NoDup (fst <$> items) -> Forall wf (snd <$> items) -> wf (Dict items).

(** The walk of [fields_to_dict] along [hierarchy] meets a wildcard of [t]. *)
Definition blocked (t : node) (hierarchy : list string) : Prop :=
  exists r, r `prefix_of` hierarchy /\ is_leaf t r.

(** The wildcards of [t] are the members of [C] that have no proper prefix
    in [C]. *)
Definition covers (C : list (list string)) (t : node) : Prop :=
  forall q, is_leaf t q <-> q ∈ C /\ forall r, r ∈ C -> ~ proper_prefix r q.

(** *** Notions for the statements about the rest of the code *)

(** Every declared variable has the class [str] as its type. *)
Definition all_str_typed (variables : list (string * variable_entry)) : bool :=
  forallb (fun kv => type_obj_eqb (ve_type (snd kv)) StrType) variables.

(** No [dict] of the trie is empty: every path of the trie ends in a
    wildcard. *)
Inductive solid : node -> Prop :=
| solid_all : solid ALL_SUBFIELDS
| solid_dict items : items <> [] -> Forall solid (snd <$> items) -> solid (Dict items).

(** The dicts below the root are solid; the root itself may still be empty. *)
Definition solid_below (t : node) : Prop :=
  match t with
  | ALL_SUBFIELDS => True
  | Dict items => Forall solid (snd <$> items)
  end.

(** The query has the single top-level field [MkItem name has_edges filters
    children]. *)
Definition rooted (q : GraphQlQuery) (name : string) (has_edges : bool)
    (filters : list (string * filter_value)) (children : list GraphQlQueryItem) : Prop :=
  q_children q = [MkItem name has_edges filters children].

(** The field set a request selects, when it names a built query. *)
Definition request_fields (rq : request) : gset string :=
  match rq_query rq with
  | Built _ fields => fields
  | Rendered _ => ∅
  end.

(** The record is a hero version: its version number is negative. *)
Definition is_hero (r : record) : bool :=
  match r !! "version" with
  | Some (SInt z) => (z <? 0)%Z
  | _ => false
  end.

(** What [res], the outcome of a v4 query function called with the log [log]
    and [active] set to [act], has to do with what the server found: nothing
    was asked and nothing found, or one request was sent that selects the
    field [active]; the outcome is the found records whose [active] is [act],
    in order, or the [KeyError] of a found record without that field. *)
Definition filters_by_active (con : connection) (act : bool) (log : list request)
    (res : result (list record) * list request) : Prop :=
  exists queried,
    ((queried = [] /\ snd res = log) \/
     (exists rq, queried = con rq /\ snd res = log ++ [rq] /\
                 "active" ∈ request_fields rq)) /\
    match fst res with
    | Ok out => out = base.filter (fun r => r !! "active" = Some (SBool act)) queried
    | Raise e => e = KeyError "active" /\ Exists (fun r => r !! "active" = None) queried
    end.

(** A server that honours [heroOnly]: it finds the hero version [-3] for a
    request that binds it and the standard version [3] for any other. *)
Definition con_hero_only : connection :=
  fun rq =>
    match rq_variables rq !! "heroOnly" with
    | Some _ => [hero_version_3]
    | None => [standard_version_3]
    end.

Definition active_folder : record :=
  {["id" := SStr "f1"; "active" := SBool true]}.

Definition archived_folder : record :=
  {["id" := SStr "f0"; "active" := SBool false]}.

(** [res_bind r (fun x => Ok (f x))]: the outcome [r] with [f] applied to
    what it returns. *)
Definition res_map {A B : Type} (f : A -> B) (r : result A) : result B :=
  match r with
  | Ok a => Ok (f a)
  | Raise e => Raise e
  end.

Definition subset_a : record :=
  {["id" := SStr "s1"; "name" := SStr "modelMain"; "folderId" := SStr "f1"]}.

Definition subset_b : record :=
  {["id" := SStr "s2"; "name" := SStr "renderMain"; "folderId" := SStr "f2"]}.

(** The item a builder makes of a trie entry: a field named by the key, with
    no filter and no edges, whose children are the items of the entries
    below, in their order. *)
Fixpoint item_of_node (key : string) (t : node) : GraphQlQueryItem :=
  MkItem key false []
    match t with
    | ALL_SUBFIELDS => []
    | Dict items =>
        (fix below (l : list (string * node)) : list GraphQlQueryItem :=
           match l with
           | [] => []
           | (k, c) :: rest => item_of_node k c :: below rest
           end) items
    end.

Definition items_of_nodes (items : list (string * node)) : list GraphQlQueryItem :=
  (fun kv => item_of_node (fst kv) (snd kv)) <$> items.

(** The item with [fields] appended to its children. *)
Definition add_children (fields : list GraphQlQueryItem) (it : GraphQlQueryItem)
    : GraphQlQueryItem :=
  MkItem (item_name it) (item_has_edges it) (item_filters it) (item_children it ++ fields).

(** The children of a query once every entry of the queue has been given,
    under its parent, the whole item tree of its value. *)
Definition attach_all (query_queue : list (string * node * item_ref))
    (children : list GraphQlQueryItem) : list GraphQlQueryItem :=
  fold_left
    (fun children entry =>
       update_at (snd entry)
         (add_children [item_of_node (fst (fst entry)) (snd (fst entry))]) children)
    query_queue children.
Example split_dot_ex : split_dot "data.family" = ["data"; "family"].
Proof. reflexivity. Qed.

Example fields_to_dict_ex :
  fields_to_dict ["a.b"; "c"; "a"; "c.d"; "e.f.g"; "e.h"] =
  Some (Dict [("a", ALL_SUBFIELDS); ("c", ALL_SUBFIELDS);
              ("e", Dict [("f", Dict [("g", ALL_SUBFIELDS)]); ("h", ALL_SUBFIELDS)])]).
Proof. reflexivity. Qed.

Example flatten_ex :
  flatten (fields_to_dict ["a.b"; "c"; "a"; "c.d"; "e.f.g"; "e.h"]) = ["a"; "c"; "e.f.g"; "e.h"].
Proof. reflexivity. Qed.

Example pretty_ex : py_str (SInt (-3)) = "-3".
Proof. reflexivity. Qed.

Example calculate_query_ex :
  calculate_query
    {| q_name := "FoldersQuery";
       q_variables :=
         [("projectName",
           {| ve_type := StrType; ve_variable := {| variable_name := "projectName" |};
              ve_value := FScalar (SStr "proj") |})];
       q_children :=
         [MkItem "project" false [("name", FScalar (SStr "$projectName"))]
            [MkItem "folders" true []
               [MkItem "id" false [] []; MkItem "name" false [] []]]] |}
  = Ok (join newline
          ["query FoldersQuery($projectName: String!) {";
           "  project(name: $projectName) {";
           "    folders {";
           "      edges {";
           "        node {";
           "          id";
           "          name";
           "        }";
           "      }";
           "    }";
           "  }";
           "}"]).
Proof. reflexivity. Qed.

Example parent_ids_ex :
  get_v4_folders_filters "proj1" None None None (Some [SNone])
    ≫= (fun filters => filters !! "parentFolderIds")
  = Some (FList [SStr "root"]).
Proof. vm_compute. reflexivity. Qed.

Example projects_graphql_from_fields_ex :
  (fun b => match b with
            | Some (BuiltQuery q) => Some (calculate_query q)
            | _ => None
            end)
    (projects_graphql_from_fields ["name"; "data.active"; "data.library"; "code"])
  = Some (Ok (join newline
       ["query ProjectsQuery {";
        "  projects {";
        "    edges {";
        "      node {";
        "        name";
        "        data {";
        "          active";
        "          library";
        "        }";
        "        code";
        "      }";
        "    }";
        "  }";
        "}"])).
Proof. reflexivity. Qed.

(** ** Rendering *)

Section RenderFacts.

Lemma GraphQlQueryItem_tree_ind (P : GraphQlQueryItem -> Prop) :
  (forall name has_edges filters children,
      Forall P children -> P (MkItem name has_edges filters children)) ->
  forall it, P it.
Proof.
  intros step. fix IH 1. intros [name has_edges filters children].
  apply step. induction children as [|c cs IHcs]; constructor; [apply IH | exact IHcs].
Qed.

Lemma res_mapM_ok_Forall {A B : Type} (f : A -> result B) (P : A -> Prop) l ys :
  (forall x y, In x l -> f x = Ok y -> P x) ->
  res_mapM f l = Ok ys -> Forall P l.
Proof.
  revert ys. induction l as [|x l IH]; intros ys HP Hm; [constructor|].
  simpl in Hm. destruct (f x) as [y|e] eqn:Hx; [|discriminate].
  simpl in Hm. destruct (res_mapM f l) as [ys'|e] eqn:Hl; [|discriminate].
  constructor.
  - eapply HP; [left; reflexivity | exact Hx].
  - eapply IH; [|reflexivity]. intros x' y' Hin. apply HP. right. exact Hin.
Qed.

(** The loop over the children inside [item_calculate_query] is [res_mapM]. *)
Lemma item_children_loop indent children :
  (fix each (l : list GraphQlQueryItem) : result (list string) :=
     match l with
     | [] => Ok []
     | field :: rest =>
         res_bind (item_calculate_query indent field)
           (fun s => res_bind (each rest) (fun ss => Ok (s :: ss)))
     end) children
  = res_mapM (item_calculate_query indent) children.
Proof. induction children as [|c cs IH]; simpl; [reflexivity | rewrite IH; reflexivity]. Qed.

Lemma item_calculate_query_ok it :
  forall indent text, item_calculate_query indent it = Ok text -> edged_ok it = true.
Proof.
  induction it as [name has_edges filters children IH] using GraphQlQueryItem_tree_ind.
  intros indent text H. simpl in H.
  destruct children as [|c cs].
  - destruct has_edges; [discriminate | reflexivity].
  - destruct (item_calculate_query _ c) as [s|e] eqn:Hc; [|discriminate]. simpl in H.
    rewrite item_children_loop in H.
    destruct (res_mapM _ cs) as [ss|e] eqn:Hcs; [|discriminate].
    apply Forall_cons_1 in IH. destruct IH as [IHc IHcs].
    cbn [edged_ok]. rewrite bool_decide_eq_false_2 by discriminate.
    rewrite orb_true_r. cbn [negb andb forallb].
    apply andb_true_intro. split; [eapply IHc; exact Hc|].
    apply forallb_forall. intros x Hx.
    assert (HF : Forall (fun it => edged_ok it = true) cs).
    { eapply res_mapM_ok_Forall; [|exact Hcs].
      intros x' y' Hin Hy. rewrite Forall_forall in IHcs.
      eapply IHcs; [apply list_elem_of_In; exact Hin | exact Hy]. }
    rewrite Forall_forall in HF. apply HF. apply list_elem_of_In. exact Hx.
Qed.

Lemma calculate_query_ok q text :
  calculate_query q = Ok text ->
  q_children q <> [] /\ forallb edged_ok (q_children q) = true.
Proof.
  unfold calculate_query. intros H.
  destruct (q_children q) as [|c cs] eqn:Hc; [discriminate|].
  split; [discriminate|].
  destruct (res_mapM variable_decl (q_variables q)) as [vars|e]; [|discriminate].
  cbv beta iota delta [res_bind] in H.
  destruct (res_mapM (item_calculate_query (0 + offset)) (c :: cs)) as [fields|e] eqn:Hm;
    [|discriminate].
  apply forallb_forall. intros x Hx.
  assert (HF : Forall (fun it => edged_ok it = true) (c :: cs)).
  { eapply res_mapM_ok_Forall; [|exact Hm].
    intros x' y' _ Hy. eapply item_calculate_query_ok. exact Hy. }
  rewrite Forall_forall in HF. apply HF. apply list_elem_of_In. exact Hx.
Qed.

(** C8: [calculate_query] raises for a query without child fields, and an
    item flagged has-edges without children raises when rendered; rendering
    succeeds only for a query that has a child and in which every has-edges
    item has one, so that a query holding a childless has-edges item anywhere
    fails as a whole.  The failure is local: [calculate_query] takes no
    connection, and the executor sends nothing when it raises. *)
Theorem calculate_query_needs_children :
  (forall q, q_children q = [] ->
     calculate_query q = Raise (ValueError "Missing fields to query")) /\
  (forall indent name filters,
     item_calculate_query indent (MkItem name true filters []) =
     Raise (ValueError "Edged item don't have specified child fields")) /\
  (forall q text, calculate_query q = Ok text ->
     q_children q <> [] /\ forallb edged_ok (q_children q) = true) /\
  (forall q, forallb edged_ok (q_children q) = false ->
     exists e, calculate_query q = Raise e) /\
  (forall con q e log, calculate_query q = Raise e ->
     query_exec con q log = (Raise e, log)).
Proof.
  split; [|split; [|split; [|split]]].
  - intros q Hq. unfold calculate_query. rewrite Hq. reflexivity.
  - reflexivity.
  - exact calculate_query_ok.
  - intros q Hq. destruct (calculate_query q) as [text|e] eqn:H; [|eauto].
    apply calculate_query_ok in H. destruct H as [_ H]. congruence.
  - intros con q e log H. unfold query_exec. rewrite H. reflexivity.
Qed.

Lemma calculate_query_needs_children_witness :
  calculate_query (new_query "Empty") = Raise (ValueError "Missing fields to query") /\
  (exists e, calculate_query
     {| q_name := "Projects"; q_variables := [];
        q_children := [MkItem "projects" true [] []] |} = Raise e).
Proof.
  split.
  - exact (proj1 calculate_query_needs_children (new_query "Empty") eq_refl).
  - exact (proj1 (proj2 (proj2 (proj2 calculate_query_needs_children)))
             {| q_name := "Projects"; q_variables := [];
                q_children := [MkItem "projects" true [] []] |} eq_refl).
Defined.

Lemma variable_decl_cases kv :
  (ve_type (snd kv) = StrType /\ exists s, variable_decl kv = Ok s) \/
  (ve_type (snd kv) <> StrType /\
   variable_decl kv =
   Raise (TypeError ("Unknown conversion for " +:+ str_of_type_obj (ve_type (snd kv))))).
Proof.
  unfold variable_decl, value_type_to_string.
  destruct (ve_type (snd kv)) as [|name|s]; simpl.
  - left. eauto.
  - right. split; [discriminate | reflexivity].
  - right. split; [discriminate | reflexivity].
Qed.

Lemma variable_decls_raise vars key item :
  In (key, item) vars -> ve_type item <> StrType ->
  exists msg, res_mapM variable_decl vars = Raise (TypeError msg).
Proof.
  induction vars as [|kv vars IH]; intros Hin Hty; [destruct Hin|].
  simpl. destruct (variable_decl_cases kv) as [[_ [s Hs]]|[_ Hr]].
  - rewrite Hs. simpl. destruct Hin as [->|Hin].
    + destruct (variable_decl_cases (key, item)) as [[Heq _]|[_ Hr]];
        [contradiction | congruence].
    + destruct (IH Hin Hty) as [msg Hmsg]. rewrite Hmsg. simpl. eauto.
  - rewrite Hr. simpl. eauto.
Qed.

(** C10, as amended: [calculate_query] raises [TypeError] for every query
    that has a child field and declares a variable whose type is not the
    class [str]; such are the queries of [version_is_latest] and of the
    branch of [get_subset_families] without subset ids, which pass the
    string "String!" as the type, so that rendering them always raises. *)
Theorem calculate_query_unknown_variable_type q key item :
  q_children q <> [] ->
  In (key, item) (q_variables q) ->
  ve_type item <> StrType ->
  is_type_error (calculate_query q) = true /\
  (forall project_name version_id,
     calculate_query (version_is_latest_query project_name version_id) =
     Raise (TypeError "Unknown conversion for String!")) /\
  (forall project_name,
     calculate_query (subset_families_query project_name) =
     Raise (TypeError "Unknown conversion for String!")).
Proof.
  intros Hch Hin Hty. split; [|split; reflexivity].
  unfold calculate_query. destruct (q_children q) as [|c cs]; [congruence|].
  destruct (variable_decls_raise _ _ _ Hin Hty) as [msg Hmsg].
  rewrite Hmsg. reflexivity.
Qed.

Lemma calculate_query_unknown_variable_type_witness :
  is_type_error (calculate_query (version_is_latest_query "proj" "v1")) = true.
Proof.
  refine (proj1 (calculate_query_unknown_variable_type
    (version_is_latest_query "proj" "v1") "versionId"
    {| ve_type := StrValue "String!";
       ve_variable := {| variable_name := "versionId" |};
       ve_value := FScalar (SStr "v1") |} _ _ _)).
  - discriminate.
  - right. left. reflexivity.
  - discriminate.
Defined.

(** C10 as stated fails for a query without child fields: the missing
    fields are reported first, as a [ValueError]. *)
Lemma calculate_query_unknown_type_without_fields :
  calculate_query
    (snd (add_variable "projectName" (StrValue "String!") (FScalar (SStr "proj"))
            (new_query "NoFields")))
  = Raise (ValueError "Missing fields to query") /\
  is_type_error
    (calculate_query
       (snd (add_variable "projectName" (StrValue "String!") (FScalar (SStr "proj"))
               (new_query "NoFields")))) = false.
Proof. split; reflexivity. Qed.

(** C9 (the code departs from it): a list-valued filter is rendered as the
    bare bracketed list, without its key and colon; only a scalar is
    rendered as [key: value].  The item [folders] filtered by
    [ids = ["a", "b"]] comes out as [folders(["a", "b"])]. *)
Theorem filters_to_string_list_without_key :
  (forall key items,
     single_filter key (FList items) =
     "[" +:+ join ", " (List.map (fun item => dquote +:+ py_str item +:+ dquote) items)
         +:+ "]") /\
  (forall key v, single_filter key (FScalar v) = key +:+ ": " +:+ py_str v) /\
  item_calculate_query 0
    (MkItem "folders" false [("ids", FList [SStr "a"; SStr "b"])] []) =
  Ok ("folders([" +:+ dquote +:+ "a" +:+ dquote +:+ ", "
        +:+ dquote +:+ "b" +:+ dquote +:+ "])").
Proof. split; [|split]; reflexivity. Qed.

End RenderFacts.

(** ** The field trie *)

Section DictFacts.
Context {V : Type}.
Implicit Types (d : list (string * V)) (k : string) (v : V).

Lemma dict_get_set_eq k v d : dict_get k (dict_set k v d) = Some v.
Proof.
  induction d as [|[k' v'] d IH]; simpl.
  - rewrite String.eqb_refl. reflexivity.
  - destruct (String.eqb_spec k k') as [->|Hne]; simpl.
    + rewrite String.eqb_refl. reflexivity.
    + destruct (String.eqb_spec k k'); [contradiction | exact IH].
Qed.

Lemma dict_get_set_ne k k' v d :
  k <> k' -> dict_get k' (dict_set k v d) = dict_get k' d.
Proof.
  intros Hne. induction d as [|[k1 v1] d IH]; simpl.
  - destruct (String.eqb_spec k' k); [congruence | reflexivity].
  - destruct (String.eqb_spec k k1) as [->|Hk]; simpl.
    + destruct (String.eqb_spec k' k1); [congruence | reflexivity].
    + destruct (String.eqb_spec k' k1); [reflexivity | exact IH].
Qed.

Lemma dict_set_same k v d : dict_get k d = Some v -> dict_set k v d = d.
Proof.
  induction d as [|[k' v'] d IH]; simpl; [discriminate|].
  destruct (String.eqb_spec k k') as [->|Hne].
  - intros [= ->]. reflexivity.
  - intros H. rewrite (IH H). reflexivity.
Qed.

Lemma dict_set_keys k v d x :
  x ∈ (fst <$> dict_set k v d) <-> x = k \/ x ∈ (fst <$> d).
Proof.
  induction d as [|[k' v'] d IH]; simpl.
  - rewrite list_elem_of_singleton. rewrite elem_of_nil. tauto.
  - destruct (String.eqb_spec k k') as [->|Hne]; simpl.
    + rewrite !elem_of_cons. tauto.
    + rewrite !elem_of_cons, IH. tauto.
Qed.

Lemma dict_set_NoDup k v d : NoDup (fst <$> d) -> NoDup (fst <$> dict_set k v d).
Proof.
  induction d as [|[k' v'] d IH]; simpl; intros Hnd.
  - apply NoDup_singleton.
  - apply NoDup_cons in Hnd. destruct Hnd as [Hnotin Hnd].
    destruct (String.eqb_spec k k') as [->|Hne]; simpl.
    + apply NoDup_cons. split; assumption.
    + apply NoDup_cons. split; [|apply IH; exact Hnd].
      rewrite dict_set_keys. intros [Heq|Hin]; [congruence | contradiction].
Qed.

Lemma dict_set_Forall (P : V -> Prop) k v d :
  P v -> Forall P (snd <$> d) -> Forall P (snd <$> dict_set k v d).
Proof.
  intros Hv. induction d as [|[k' v'] d IH]; simpl; intros HF.
  - constructor; [exact Hv | constructor].
  - apply Forall_cons in HF. destruct HF as [Hv' HF].
    destruct (String.eqb_spec k k'); simpl; constructor; auto.
Qed.

Lemma dict_get_Forall (P : V -> Prop) k v d :
  Forall P (snd <$> d) -> dict_get k d = Some v -> P v.
Proof.
  induction d as [|[k' v'] d IH]; simpl; intros HF; [discriminate|].
  apply Forall_cons in HF. destruct HF as [Hv' HF].
  destruct (String.eqb_spec k k'); [intros [= <-]; exact Hv' | apply IH; exact HF].
Qed.

Lemma dict_get_elem_of k v d :
  NoDup (fst <$> d) -> ((k, v) ∈ d <-> dict_get k d = Some v).
Proof.
  induction d as [|[k' v'] d IH]; simpl; intros Hnd.
  - rewrite elem_of_nil. split; [tauto | discriminate].
  - apply NoDup_cons in Hnd. destruct Hnd as [Hnotin Hnd].
    rewrite elem_of_cons. destruct (String.eqb_spec k k') as [->|Hne].
    + split.
      * intros [[= ->]|Hin]; [reflexivity|].
        exfalso. apply Hnotin. apply list_elem_of_fmap. exists (k', v). split; [reflexivity | exact Hin].
      * intros [= ->]. left. reflexivity.
    + rewrite <- (IH Hnd). split; [intros [[= ? ?]|H]; [congruence | exact H] | tauto].
Qed.

End DictFacts.

Section SplitFacts.

Lemma split_dot_nonempty s : split_dot s <> [].
Proof.
  destruct s as [|c s]; simpl; [discriminate|].
  destruct (Ascii.eqb c "."); [discriminate|].
  destruct (split_dot s); discriminate.
Qed.

Lemma join_cons_nonempty sep p l :
  l <> [] -> join sep (p :: l) = p +:+ sep +:+ join sep l.
Proof. destruct l; [congruence | reflexivity]. Qed.

(** Joining the components of a path with dots gives the path back. *)
Lemma join_split_dot s : join "." (split_dot s) = s.
Proof.
  induction s as [|c s IH]; [reflexivity|]. simpl.
  destruct (Ascii.eqb_spec c ".") as [->|Hne].
  - rewrite join_cons_nonempty by apply split_dot_nonempty. rewrite IH. reflexivity.
  - destruct (split_dot s) as [|w ws] eqn:Hs; [exfalso; eapply split_dot_nonempty; eauto|].
    destruct ws as [|w' ws]; simpl in *; rewrite <- IH; reflexivity.
Qed.

Lemma split_dot_last s :
  removelast (split_dot s) ++ [List.last (split_dot s) ""] = split_dot s.
Proof. symmetry. apply app_removelast_last. apply split_dot_nonempty. Qed.

End SplitFacts.

Section WalkFacts.

Lemma is_leaf_empty_dict q : ~ is_leaf (Dict []) q.
Proof. destruct q; simpl; tauto. Qed.

Lemma is_leaf_wildcard q : is_leaf ALL_SUBFIELDS q <-> q = [].
Proof. destruct q; simpl; tauto. Qed.

Lemma walk_wildcard h last : walk h last ALL_SUBFIELDS = ALL_SUBFIELDS.
Proof. destruct h; reflexivity. Qed.

(** A leaf of a dict below the key [part] is a leaf of the child the walk
    enters at [part]. *)
Lemma is_leaf_child items part rest :
  is_leaf (Dict items) (part :: rest) <->
  is_leaf (match dict_get part items with Some c => c | None => Dict [] end) rest.
Proof.
  simpl. destruct (dict_get part items); [tauto|].
  split; [tauto | apply is_leaf_empty_dict].
Qed.

Lemma blocked_child items part h :
  blocked (Dict items) (part :: h) <->
  blocked (match dict_get part items with Some c => c | None => Dict [] end) h.
Proof.
  split.
  - intros ([|k r] & Hpre & Hleaf); [destruct Hleaf|].
    pose proof (prefix_cons_inv_1 _ _ _ _ Hpre) as ->.
    apply prefix_cons_inv_2 in Hpre. apply is_leaf_child in Hleaf.
    exists r. split; assumption.
  - intros (r & Hpre & Hleaf). exists (part :: r). split.
    + apply prefix_cons. exact Hpre.
    + apply is_leaf_child. exact Hleaf.
Qed.

(** What one iteration of the outer loop does to the wildcards of the trie:
    nothing when the walk meets one; otherwise the path becomes a wildcard
    and the wildcards it is a prefix of are gone. *)
Lemma walk_cases h last t :
  (blocked t h /\ walk h last t = t) \/
  (~ blocked t h /\
   forall q, is_leaf (walk h last t) q <->
             q = h ++ [last] \/ (is_leaf t q /\ ~ (h ++ [last]) `prefix_of` q)).
Proof.
  revert t. induction h as [|part h IH]; intros [|items].
  - left. split; [|reflexivity]. exists []. split; [apply prefix_nil | reflexivity].
  - right. split.
    + intros (r & Hpre & Hleaf). apply prefix_nil_inv in Hpre. subst r. exact Hleaf.
    + intros [|k rest]; simpl.
      * split; [tauto | intros [Heq|[[] _]]; discriminate].
      * destruct (decide (k = last)) as [->|Hne].
        -- rewrite dict_get_set_eq. rewrite is_leaf_wildcard. split.
           ++ intros ->. left. reflexivity.
           ++ intros [[= ->]|[_ Hn]]; [reflexivity|].
              exfalso. apply Hn. apply prefix_cons. apply prefix_nil.
        -- rewrite dict_get_set_ne by congruence. split.
           ++ intros Hleaf. right. split; [exact Hleaf|].
              intros Hpre. apply prefix_cons_inv_1 in Hpre. congruence.
           ++ intros [[= ? ?]|[Hleaf _]]; [congruence | exact Hleaf].
  - left. split; [|apply walk_wildcard].
    exists []. split; [apply prefix_nil | reflexivity].
  - cbn [walk].
    set (child := match dict_get part items with Some c => c | None => Dict [] end).
    destruct (IH child) as [[Hb Hw]|[Hnb Hchar]].
    + left. split; [apply blocked_child; exact Hb|].
      rewrite Hw. subst child.
      destruct (dict_get part items) as [c|] eqn:Hget.
      * rewrite (dict_set_same _ _ _ Hget). reflexivity.
      * destruct Hb as (r & _ & Hleaf). destruct (is_leaf_empty_dict _ Hleaf).
    + right. split; [rewrite blocked_child; exact Hnb|].
      intros [|k rest].
      * simpl. split; [tauto | intros [Heq|[[] _]]; discriminate].
      * destruct (decide (k = part)) as [->|Hne].
        -- rewrite is_leaf_child. rewrite dict_get_set_eq.
           rewrite Hchar. rewrite is_leaf_child. fold child.
           split.
           ++ intros [->|[Hleaf Hn]]; [left; reflexivity|].
              right. split; [exact Hleaf|]. intros Hpre. apply Hn.
              eapply prefix_cons_inv_2. exact Hpre.
           ++ intros [[= ->]|[Hleaf Hn]]; [left; reflexivity|].
              right. split; [exact Hleaf|]. intros Hpre. apply Hn.
              apply prefix_cons. exact Hpre.
        -- simpl. rewrite dict_get_set_ne by congruence. split.
           ++ intros Hleaf. right. split; [exact Hleaf|].
              intros Hpre. apply prefix_cons_inv_1 in Hpre. congruence.
           ++ intros [[= ? ?]|[Hleaf _]]; [congruence | exact Hleaf].
Qed.

Lemma walk_wf h last t : wf t -> wf (walk h last t).
Proof.
  revert t. induction h as [|part h IH]; intros t Hwf;
    destruct Hwf as [|items Hnd HF]; cbn [walk]; try constructor.
  - apply dict_set_NoDup. exact Hnd.
  - apply dict_set_Forall; [constructor | exact HF].
  - apply dict_set_NoDup. exact Hnd.
  - apply dict_set_Forall; [|exact HF]. apply IH.
    destruct (dict_get part items) as [c|] eqn:Hget.
    + eapply dict_get_Forall; eassumption.
    + constructor; constructor.
Qed.

End WalkFacts.

Section PrefixFacts.
Implicit Types (r q h : list string).

Lemma proper_prefix_length r q : proper_prefix r q -> length r < length q.
Proof.
  intros [[k ->] Hne]. rewrite length_app.
  destruct k; [rewrite app_nil_r in Hne; congruence | simpl; lia].
Qed.

Lemma proper_prefix_trans r q p :
  proper_prefix r q -> proper_prefix q p -> proper_prefix r p.
Proof.
  intros Hrq Hqp. split.
  - etransitivity; [apply Hrq | apply Hqp].
  - intros ->. apply proper_prefix_length in Hrq, Hqp. lia.
Qed.

Lemma proper_prefix_snoc r h last : proper_prefix r (h ++ [last]) <-> r `prefix_of` h.
Proof.
  split.
  - intros [[k Hk] Hne].
    destruct k as [|x k _] using rev_ind.
    + rewrite app_nil_r in Hk. congruence.
    + rewrite app_assoc in Hk. apply app_inj_tail in Hk. destruct Hk as [-> _].
      exists k. reflexivity.
  - intros [k ->]. split.
    + exists (k ++ [last]). rewrite app_assoc. reflexivity.
    + intros Heq. apply (f_equal length) in Heq.
      rewrite !length_app in Heq. simpl in Heq. lia.
Qed.

Lemma proper_prefix_of r q : r `prefix_of` q -> r <> q -> proper_prefix r q.
Proof. intros; split; assumption. Qed.

(** Among the members of [C] that are proper prefixes of [p], one has no
    proper prefix in [C]. *)
Lemma minimal_prefix (C : list (list string)) p :
  forall n r, length r < n -> r ∈ C -> proper_prefix r p ->
  exists r0, r0 ∈ C /\ proper_prefix r0 p /\ forall r', r' ∈ C -> ~ proper_prefix r' r0.
Proof.
  induction n as [|n IH]; intros r Hlen Hin Hpre; [lia|].
  destruct (decide (Exists (fun r' => proper_prefix r' r) C)) as [Hex|Hnone].
  - apply Exists_exists in Hex. destruct Hex as (r' & Hin' & Hpre').
    apply (IH r'); [|exact Hin'|eapply proper_prefix_trans; eassumption].
    apply proper_prefix_length in Hpre'. lia.
  - exists r. split; [exact Hin|]. split; [exact Hpre|].
    intros r' Hin' Hpre'. apply Hnone. apply Exists_exists. eauto.
Qed.

End PrefixFacts.

Section CoverFacts.

Lemma covers_empty : covers [] (Dict []).
Proof.
  intros q. split.
  - intros H. destruct (is_leaf_empty_dict _ H).
  - intros [H _]. apply elem_of_nil in H. destruct H.
Qed.

Lemma walk_covers C h last t :
  covers C t -> covers ((h ++ [last]) :: C) (walk h last t).
Proof.
  intros Hcov. set (p := h ++ [last]).
  destruct (walk_cases h last t) as [[(r & Hpre & Hleaf) ->]|[Hnb Hchar]].
  - apply (proper_prefix_snoc r h last) in Hpre. fold p in Hpre.
    apply Hcov in Hleaf. destruct Hleaf as [HrC _].
    intros q. rewrite (Hcov q). split.
    + intros [HqC Hmin]. split; [apply elem_of_cons; right; exact HqC|].
      intros r' Hr'. apply elem_of_cons in Hr'. destruct Hr' as [->|Hr'].
      * intros Hpq. apply (Hmin r HrC). eapply proper_prefix_trans; eassumption.
      * apply Hmin. exact Hr'.
    + intros [HqC Hmin]. apply elem_of_cons in HqC. destruct HqC as [->|HqC].
      * exfalso. apply (Hmin r); [apply elem_of_cons; right; exact HrC | exact Hpre].
      * split; [exact HqC|]. intros r' Hr'. apply Hmin. apply elem_of_cons. right. exact Hr'.
  - intros q. rewrite (Hchar q). fold p. split.
    + intros [->|[Hleaf Hnp]].
      * split; [apply elem_of_cons; left; reflexivity|].
        intros r' Hr'. apply elem_of_cons in Hr'. destruct Hr' as [->|Hr'].
        -- intros [_ Hne]. congruence.
        -- intros Hpre.
           destruct (minimal_prefix C p (S (length r')) r') as (r0 & Hr0 & Hpre0 & Hmin);
             [lia | exact Hr' | exact Hpre |].
           apply Hnb. exists r0. split; [apply (proper_prefix_snoc r0 h last); exact Hpre0|].
           apply Hcov. split; assumption.
      * apply Hcov in Hleaf. destruct Hleaf as [HqC Hmin].
        split; [apply elem_of_cons; right; exact HqC|].
        intros r' Hr'. apply elem_of_cons in Hr'. destruct Hr' as [->|Hr'].
        -- intros [Hpre _]. contradiction.
        -- apply Hmin. exact Hr'.
    + intros [HqC Hmin]. destruct (decide (q = p)) as [->|Hne]; [left; reflexivity|].
      right. apply elem_of_cons in HqC. destruct HqC as [->|HqC]; [congruence|].
      split.
      * apply Hcov. split; [exact HqC|].
        intros r' Hr'. apply Hmin. apply elem_of_cons. right. exact Hr'.
      * intros Hpre. apply (Hmin p); [apply elem_of_cons; left; reflexivity|].
        apply proper_prefix_of; [exact Hpre | congruence].
Qed.

Lemma add_path_covers C t field :
  covers C t -> covers (split_dot field :: C) (add_path t field).
Proof.
  intros Hcov. unfold add_path. rewrite <- (split_dot_last field) at 1.
  apply walk_covers. exact Hcov.
Qed.

Lemma fold_add_path_covers fields :
  forall C t, covers C t ->
  covers (rev (split_dot <$> fields) ++ C) (fold_left add_path fields t).
Proof.
  induction fields as [|field fields IH]; intros C t Hcov; [exact Hcov|].
  simpl. rewrite <- app_assoc. simpl. apply IH. apply add_path_covers. exact Hcov.
Qed.

Lemma fold_add_path_wf fields : forall t, wf t -> wf (fold_left add_path fields t).
Proof.
  induction fields as [|field fields IH]; intros t Hwf; [exact Hwf|].
  simpl. apply IH. apply walk_wf. exact Hwf.
Qed.

End CoverFacts.

Section FlattenFacts.

Lemma node_tree_ind (P : node -> Prop) :
  P ALL_SUBFIELDS ->
  (forall items, Forall P (snd <$> items) -> P (Dict items)) ->
  forall t, P t.
Proof.
  intros Hall Hdict. fix IH 1. intros [|items]; [exact Hall|].
  apply Hdict. induction items as [|[k c] items IHitems]; constructor;
    [apply IH | exact IHitems].
Qed.

Lemma leaves_cons k c items :
  leaves (Dict ((k, c) :: items)) = ((cons k) <$> leaves c) ++ leaves (Dict items).
Proof. reflexivity. Qed.

Lemma dict_get_key {V : Type} k (v : V) d : dict_get k d = Some v -> k ∈ (fst <$> d).
Proof.
  induction d as [|[k' v'] d IH]; simpl; [discriminate|].
  destruct (String.eqb_spec k k') as [->|Hne]; intros H.
  - apply elem_of_cons. left. reflexivity.
  - apply elem_of_cons. right. apply IH. exact H.
Qed.

Lemma is_leaf_key items k rest : is_leaf (Dict items) (k :: rest) -> k ∈ (fst <$> items).
Proof.
  simpl. destruct (dict_get k items) as [c|] eqn:Hget; [|tauto].
  intros _. eapply dict_get_key. exact Hget.
Qed.

(** The flattening lists the wildcards of a well-formed trie, each once. *)
Lemma leaves_spec t :
  wf t -> (forall q, q ∈ leaves t <-> is_leaf t q) /\ NoDup (leaves t).
Proof.
  induction t as [|items IH] using node_tree_ind; intros Hwf.
  - split; [|apply NoDup_singleton].
    intros q. rewrite is_leaf_wildcard. simpl. apply list_elem_of_singleton.
  - inversion Hwf as [|items' Hnd HF]; subst items'.
    clear Hwf. induction items as [|[k c] items IHitems].
    + split; [|constructor]. intros q. simpl. split.
      * intros H. apply elem_of_nil in H. destruct H.
      * intros H. destruct (is_leaf_empty_dict _ H).
    + simpl in Hnd, HF, IH.
      apply NoDup_cons in Hnd. destruct Hnd as [Hk Hnd].
      apply Forall_cons in HF. destruct HF as [Hwfc HF].
      apply Forall_cons in IH. destruct IH as [IHc IH].
      destruct (IHc Hwfc) as [Hc_spec Hc_nd].
      destruct (IHitems IH Hnd HF) as [Hitems_spec Hitems_nd].
      rewrite leaves_cons. split.
      * intros q. rewrite elem_of_app, list_elem_of_fmap, Hitems_spec. split.
        -- intros [(rest & -> & Hrest)|Hleaf].
           ++ simpl. rewrite String.eqb_refl. apply Hc_spec. exact Hrest.
           ++ destruct q as [|k' rest]; [destruct Hleaf|].
              pose proof (is_leaf_key _ _ _ Hleaf) as Hk'.
              simpl. destruct (String.eqb_spec k' k) as [->|Hne]; [contradiction|].
              exact Hleaf.
        -- destruct q as [|k' rest]; [intros []|].
           simpl. destruct (String.eqb_spec k' k) as [->|Hne].
           ++ intros Hleaf. left. exists rest. split; [reflexivity|].
              apply Hc_spec. exact Hleaf.
           ++ intros Hleaf. right. exact Hleaf.
      * apply NoDup_app. split; [|split; [|exact Hitems_nd]].
        -- apply NoDup_fmap_2_strong; [|exact Hc_nd]. intros x y _ _ [= ->]. reflexivity.
        -- intros q Hq Hq'. apply list_elem_of_fmap in Hq.
           destruct Hq as (rest & -> & _). apply Hitems_spec in Hq'.
           apply Hk. eapply is_leaf_key. exact Hq'.
Qed.

Lemma fields_to_dict_nonempty P :
  P <> [] -> fields_to_dict P = Some (fold_left add_path P (Dict [])).
Proof. destruct P; [congruence | reflexivity]. Qed.

(** C4: for every collection of dotted field paths, in whatever order it is
    iterated, flattening the trie of [fields_to_dict] back into dotted paths
    yields exactly the leaf paths of the collection, each once: its members
    that have no proper dotted prefix among the members.  A path with a
    proper prefix in the collection is absorbed into the wildcard at that
    prefix and is no entry of its own. *)
Theorem fields_to_dict_round_trip (P : list string) :
  (forall p, In p (flatten (fields_to_dict P)) <-> leaf_path P p) /\
  List.NoDup (flatten (fields_to_dict P)) /\
  (forall q p, In q P -> dotted_prefix q p -> ~ In p (flatten (fields_to_dict P))).
Proof.
  assert (Hmain : forall p, In p (flatten (fields_to_dict P)) <-> leaf_path P p).
  { destruct (decide (P = [])) as [->|HP].
    - intros p. simpl. unfold leaf_path. simpl. tauto.
    - rewrite (fields_to_dict_nonempty P HP). unfold flatten.
      pose proof (fold_add_path_covers P [] (Dict []) covers_empty) as Hcov.
      rewrite app_nil_r in Hcov.
      destruct (leaves_spec (fold_left add_path P (Dict []))) as [Hspec _].
      { apply fold_add_path_wf. constructor; constructor. }
      set (t := fold_left add_path P (Dict [])) in *.
      assert (Hmem : forall c, c ∈ rev (split_dot <$> P) <-> exists s, In s P /\ c = split_dot s).
      { intros c. rewrite list_elem_of_In, <- in_rev, <- list_elem_of_In.
        rewrite list_elem_of_fmap. split.
        - intros (s & -> & Hs). exists s. split; [apply list_elem_of_In; exact Hs | reflexivity].
        - intros (s & Hs & ->). exists s. split; [reflexivity | apply list_elem_of_In; exact Hs]. }
      intros p. rewrite <- list_elem_of_In. change (List.map (join ".") (leaves t))
        with (join "." <$> leaves t). rewrite list_elem_of_fmap. split.
      + intros (c & -> & Hc). apply Hspec, Hcov in Hc. destruct Hc as [HcC Hmin].
        apply Hmem in HcC. destruct HcC as (s & Hs & ->).
        rewrite join_split_dot. split; [exact Hs|].
        intros q Hq Hpre. apply (Hmin (split_dot q)); [|exact Hpre].
        apply Hmem. eauto.
      + intros [Hp Hmin]. exists (split_dot p). split; [symmetry; apply join_split_dot|].
        apply Hspec, Hcov. split; [apply Hmem; eauto|].
        intros r Hr Hpre. apply Hmem in Hr. destruct Hr as (s & Hs & ->).
        apply (Hmin s Hs). exact Hpre. }
  split; [exact Hmain|]. split.
  - destruct (decide (P = [])) as [->|HP]; [constructor|].
    rewrite (fields_to_dict_nonempty P HP). unfold flatten.
    pose proof (fold_add_path_covers P [] (Dict []) covers_empty) as Hcov.
    rewrite app_nil_r in Hcov.
    destruct (leaves_spec (fold_left add_path P (Dict []))) as [Hspec Hnd].
    { apply fold_add_path_wf. constructor; constructor. }
    apply NoDup_ListNoDup.
    change (List.map (join ".") (leaves (fold_left add_path P (Dict []))))
      with (join "." <$> leaves (fold_left add_path P (Dict []))).
    apply NoDup_fmap_2_strong; [|exact Hnd].
    intros x y Hx Hy Heq.
    apply Hspec, Hcov in Hx. apply Hspec, Hcov in Hy.
    destruct Hx as [Hx _], Hy as [Hy _].
    rewrite list_elem_of_In, <- in_rev, <- list_elem_of_In, list_elem_of_fmap in Hx, Hy.
    destruct Hx as (sx & -> & _), Hy as (sy & -> & _).
    rewrite !join_split_dot in Heq. congruence.
  - intros q p Hq Hpre Hin. apply Hmain in Hin. destruct Hin as [_ Hmin].
    exact (Hmin q Hq Hpre).
Qed.

End FlattenFacts.

Lemma fields_to_dict_round_trip_witness :
  leaf_path ["data.family"; "name"; "data"] "data" /\
  In "data" (flatten (fields_to_dict ["data.family"; "name"; "data"])).
Proof.
  assert (Hleaf : leaf_path ["data.family"; "name"; "data"] "data").
  { split; [right; right; left; reflexivity|].
    intros q [<-|[<-|[<-|[]]]] [Hpre Hne].
    - apply prefix_length in Hpre. simpl in Hpre. lia.
    - apply prefix_cons_inv_1 in Hpre. discriminate.
    - apply Hne. reflexivity. }
  split; [exact Hleaf|].
  exact (proj2 (proj1 (fields_to_dict_round_trip ["data.family"; "name"; "data"]) "data")
           Hleaf).
Defined.

(** ** Entity queries *)

Section EntityFacts.

Variable DEFAULT_V3_FOLDER_FIELDS : list string.
Variable DEFAULT_FOLDER_FIELDS : list string.
Variable DEFAULT_VERSION_FIELDS : list string.
Variable DEFAULT_REPRESENTATION_FIELDS : list string.
Variable version_fields_v3_to_v4 : option (list string) -> option (list string).
Variable convert_v4_version_to_v3 : record -> record.

(** C1 (the code departs from it): with [active=True] or [active=False]
    [get_v4_representations] returns what was queried unfiltered, here a
    representation whose [active] is [False]; with [active=None] it keeps
    only records whose [active] equals [None], here none. *)
Theorem get_v4_representations_active_not_filtered :
  (forall active fields,
     fst (get_v4_representations DEFAULT_REPRESENTATION_FIELDS
            (con_const [inactive_repre]) "proj" None None None None
            (Some active) fields [])
     = Ok [inactive_repre]) /\
  (forall fields,
     fst (get_v4_representations DEFAULT_REPRESENTATION_FIELDS
            (con_const [inactive_repre]) "proj" None None None None
            None fields [])
     = Ok []).
Proof. split; intros; reflexivity. Qed.

(** C2 (the code departs from it): the test of
    [get_last_version_by_subset_id] is inverted.  When a version is found it
    returns [None]; when none is found it raises [IndexError]. *)
Theorem get_last_version_by_subset_id_inverted :
  fst (get_last_version_by_subset_id DEFAULT_VERSION_FIELDS (fun fields => fields)
         convert_v4_version_to_v3 (con_const [version_1]) "proj" (SStr "S") None [])
  = Ok None /\
  fst (get_last_version_by_subset_id DEFAULT_VERSION_FIELDS (fun fields => fields)
         convert_v4_version_to_v3 (con_const []) "proj" (SStr "S") None [])
  = Raise (IndexError "list index out of range") /\
  (forall con project_name subset_id fields log,
     get_last_version_by_subset_id DEFAULT_VERSION_FIELDS version_fields_v3_to_v4
       convert_v4_version_to_v3 con project_name subset_id fields log =
     match _get_versions DEFAULT_VERSION_FIELDS version_fields_v3_to_v4
             convert_v4_version_to_v3 con project_name None (Some [subset_id]) None
             true true (Some true) fields log with
     | (Ok [], log') => (Raise (IndexError "list index out of range"), log')
     | (Ok (_ :: _), log') => (Ok None, log')
     | (Raise e, log') => (Raise e, log')
     end).
Proof.
  split; [reflexivity | split; [reflexivity|]].
  intros con project_name subset_id fields log.
  unfold get_last_version_by_subset_id, bind.
  destruct (_get_versions _ _ _ _ _ _ _ _ _ _ _ _ _) as [[[|v vs]|e] log']; reflexivity.
Qed.

(** C3 (the code departs from it): for the hero version [-3] of subset [S]
    and the standard version [3] of [S] with id [V123] in the secondary
    lookup, the last loop of [_get_versions] does build the converted hero
    record with [version_id = V123] (and with [None] when the lookup finds no
    match), but that record is stored nowhere: the function returns the
    standard versions only, here none. *)
Theorem get_versions_drops_hero_versions :
  fst (_get_versions DEFAULT_VERSION_FIELDS (fun fields => fields)
         convert_v4_version_to_v3 con_hero "proj" None (Some [SStr "S"]) None
         true true None None [])
  = Ok [] /\
  fst (resolve_hero_versions DEFAULT_VERSION_FIELDS convert_v4_version_to_v3
         con_hero "proj" [hero_version_3] [])
  = Ok [<["version_id" := SStr "V123"]> (convert_v4_version_to_v3 hero_version_3)] /\
  fst (resolve_hero_versions DEFAULT_VERSION_FIELDS convert_v4_version_to_v3
         (con_const []) "proj" [hero_version_3] [])
  = Ok [<["version_id" := SNone]> (convert_v4_version_to_v3 hero_version_3)].
Proof. split; [|split]; vm_compute; reflexivity. Qed.

(** *** The filter stanzas *)

Lemma id_filter_empty key ids filters :
  is_empty ids = true -> id_filter key ids filters = None.
Proof.
  destruct ids as [[|x l]|]; simpl; try discriminate. intros _.
  unfold id_filter. case_decide as Hne; [reflexivity|]. exfalso. apply Hne. set_solver.
Qed.

Lemma parent_ids_filter_empty project_name parent_ids filters :
  is_empty parent_ids = true -> parent_ids_filter project_name parent_ids filters = None.
Proof.
  destruct parent_ids as [[|x l]|]; simpl; try discriminate. intros _.
  unfold parent_ids_filter. case_decide as Hne; [reflexivity|]. exfalso. apply Hne. set_solver.
Qed.

Lemma id_set_empty ids : is_empty ids = true -> id_set ids = None.
Proof.
  destruct ids as [[|x l]|]; simpl; try discriminate. intros _.
  unfold id_set. case_decide as Hne; [reflexivity|]. exfalso. apply Hne. set_solver.
Qed.

Lemma id_filter_Some key ids filters filters' :
  id_filter key ids filters = Some filters' ->
  is_empty ids = false /\ forall k, k <> key -> filters' !! k = filters !! k.
Proof.
  unfold id_filter. destruct ids as [l|].
  - case_decide as Hempty; [discriminate|]. intros [= <-]. split.
    + destruct l; [|reflexivity]. exfalso. apply Hempty. apply list_to_set_nil.
    + intros k Hk. rewrite lookup_insert_ne by congruence. reflexivity.
  - intros [= <-]. split; [reflexivity | reflexivity].
Qed.

Lemma id_filter_nonempty key ids filters :
  is_empty ids = false -> exists filters', id_filter key ids filters = Some filters'.
Proof.
  unfold id_filter. destruct ids as [[|x l]|]; simpl; try discriminate; intros _.
  - rewrite decide_False; [eauto|]. set_solver.
  - eauto.
Qed.

Ltac step_filter E :=
  match goal with
  | |- context [id_filter ?k ?ids ?f] =>
      destruct (id_filter k ids f) eqn:E; simpl; [|reflexivity]
  end.

Ltac refute_empty :=
  repeat match goal with
  | H : (_ || _)%bool = true |- _ => apply orb_true_iff in H; destruct H as [H|H]
  end;
  match goal with
  | H : is_empty ?ids = true, E : id_filter _ ?ids _ = Some _ |- _ =>
      rewrite (id_filter_empty _ _ _ H) in E; discriminate E
  end.

(** C5, as amended: whenever an iterable filter argument that the function
    reads is an empty iterable, a v4 entity query function returns the empty
    collection and sends nothing to the connection. *)
Theorem empty_filter_short_circuits con c log :
  empty_filter_read c = true ->
  run_v4 DEFAULT_V3_FOLDER_FIELDS DEFAULT_FOLDER_FIELDS DEFAULT_VERSION_FIELDS
    DEFAULT_REPRESENTATION_FIELDS con c log = (Ok [], log).
Proof.
  destruct c; simpl; intros Hempty.
  - unfold get_v4_folders, get_v4_folders_filters.
    case_decide; [reflexivity|].
    step_filter E1. step_filter E2. step_filter E3.
    apply orb_true_iff in Hempty. destruct Hempty as [Hempty|Hp]; [refute_empty|].
    rewrite (parent_ids_filter_empty _ _ _ Hp). reflexivity.
  - unfold get_v4_tasks, get_v4_tasks_filters.
    case_decide; [reflexivity|].
    step_filter E1. step_filter E2. step_filter E3.
    apply orb_true_iff in Hempty. destruct Hempty as [Hempty|Hp]; [refute_empty|].
    rewrite (id_filter_empty _ _ _ Hp). reflexivity.
  - unfold get_v4_folders_tasks, get_v4_folders_filters.
    case_decide; [reflexivity|].
    step_filter E1. step_filter E2. step_filter E3.
    apply orb_true_iff in Hempty. destruct Hempty as [Hempty|Hp]; [refute_empty|].
    rewrite (parent_ids_filter_empty _ _ _ Hp). reflexivity.
  - unfold get_v4_versions, get_v4_versions_filters.
    step_filter E1. step_filter E2. step_filter E3. refute_empty.
  - unfold get_v4_representations, get_v4_representations_filters.
    step_filter E1.
    apply orb_true_iff in Hempty. destruct Hempty as [Hempty|Hrest].
    + apply orb_true_iff in Hempty. destruct Hempty as [Hempty|Hn]; [refute_empty|].
      destruct names_by_version_ids as [[|kv items]|]; try discriminate Hn.
      simpl. rewrite decide_True; [reflexivity|]. left. reflexivity.
    + destruct names_by_version_ids as [items|]; [discriminate|].
      apply orb_true_iff in Hrest. destruct Hrest as [Hn|Hv].
      * rewrite (id_set_empty _ Hn). reflexivity.
      * rewrite (id_set_empty _ Hv). destruct (id_set representation_names); reflexivity.
Qed.

(** *** get_v4_versions: the filter mode *)

Lemma versions_filters_cases project_name version_ids subset_ids versions
    hero standard latest :
  is_empty version_ids = false -> is_empty subset_ids = false ->
  is_empty versions = false ->
  negb hero && negb standard = false ->
  exists base,
    base !! "heroOnly" = None /\ base !! "heroOrLatestOnly" = None /\
    base !! "latestOnly" = None /\
    get_v4_versions_filters project_name version_ids subset_ids versions hero standard
      latest =
    Some (if hero && negb standard
          then <["heroOnly" := FScalar (SBool true)]> base
          else if hero && truthy latest
          then <["heroOrLatestOnly" := FScalar (SBool true)]> base
          else if truthy latest
          then <["latestOnly" := FScalar (SBool true)]> base
          else base).
Proof.
  intros H1 H2 H3 Hmode. unfold get_v4_versions_filters.
  destruct (id_filter_nonempty "versionIds" version_ids
              {["projectName" := FScalar (SStr project_name)]} H1) as [f1 E1].
  destruct (id_filter_nonempty "subsetIds" subset_ids f1 H2) as [f2 E2].
  destruct (id_filter_nonempty "versions" versions f2 H3) as [f3 E3].
  rewrite E1. simpl. rewrite E2. simpl. rewrite E3. simpl. rewrite Hmode.
  apply id_filter_Some in E1, E2, E3.
  destruct E1 as [_ E1], E2 as [_ E2], E3 as [_ E3].
  exists f3. repeat split.
  - rewrite E3, E2, E1 by discriminate. reflexivity.
  - rewrite E3, E2, E1 by discriminate. reflexivity.
  - rewrite E3, E2, E1 by discriminate. reflexivity.
Qed.

(** C6: [get_v4_versions] returns the empty collection without a query when
    neither hero nor standard versions are asked for; otherwise, when no id
    filter is empty, it sends one query, whose variables bind [heroOnly] to
    [True] exactly for hero without standard, else [heroOrLatestOnly] exactly
    for hero with a truthy latest, else [latestOnly] exactly for a truthy
    latest, and bind none of the three otherwise. *)
Theorem get_v4_versions_filter_mode con project_name version_ids subset_ids versions
    hero standard latest fields log :
  (hero = false -> standard = false ->
   get_v4_versions DEFAULT_VERSION_FIELDS con project_name version_ids subset_ids
     versions hero standard latest fields log = (Ok [], log)) /\
  (is_empty version_ids = false -> is_empty subset_ids = false ->
   is_empty versions = false -> negb hero && negb standard = false ->
   exists rq,
     get_v4_versions DEFAULT_VERSION_FIELDS con project_name version_ids subset_ids
       versions hero standard latest fields log = (Ok (con rq), log ++ [rq]) /\
     rq_variables rq !! "heroOnly" =
       (if hero && negb standard then Some (FScalar (SBool true)) else None) /\
     rq_variables rq !! "heroOrLatestOnly" =
       (if hero && negb standard then None
        else if hero && truthy latest then Some (FScalar (SBool true)) else None) /\
     rq_variables rq !! "latestOnly" =
       (if hero && negb standard then None
        else if hero && truthy latest then None
        else if truthy latest then Some (FScalar (SBool true)) else None)).
Proof.
  split.
  - intros -> ->. unfold get_v4_versions, get_v4_versions_filters.
    step_filter E1. step_filter E2. step_filter E3. reflexivity.
  - intros H1 H2 H3 Hmode.
    destruct (versions_filters_cases project_name version_ids subset_ids versions
                hero standard latest H1 H2 H3 Hmode)
      as (base & Hho & Hhl & Hlo & Hfilters).
    unfold get_v4_versions. rewrite Hfilters. unfold call.
    eexists. split; [reflexivity|]. cbn [rq_variables].
    destruct (hero && negb standard); [|destruct (hero && truthy latest);
      [|destruct (truthy latest)]];
      rewrite ?lookup_insert_eq, ?lookup_insert_ne by discriminate; auto.
Qed.

(** *** get_v4_folders: the parent ids *)

Lemma parent_ids_filter_normalised project_name (parent_ids : list scalar) filters filters' :
  (SNone ∈ parent_ids \/ SStr project_name ∈ parent_ids) ->
  parent_ids_filter project_name (Some parent_ids) filters = Some filters' ->
  exists bound,
    filters' !! "parentFolderIds" = Some (FList bound) /\
    SStr "root" ∈ bound /\
    (SNone ∉ bound) /\
    (project_name <> "root" -> SStr project_name ∉ bound) /\
    (forall x, x <> SNone -> x <> SStr project_name -> x <> SStr "root" ->
       (x ∈ bound <-> x ∈ parent_ids)) /\
    NoDup bound.
Proof.
  intros Hin. unfold parent_ids_filter.
  case_decide as Hempty; [discriminate|]. intros [= <-].
  eexists. split; [apply lookup_insert_eq|].
  split; [|split; [|split; [|split]]].
  - apply elem_of_elements. repeat case_decide; set_solver.
  - rewrite elem_of_elements. repeat case_decide; set_solver.
  - intros Hroot. rewrite elem_of_elements.
    assert (SStr project_name <> SStr "root") by congruence.
    repeat case_decide; set_solver.
  - intros x Hx1 Hx2 Hx3. rewrite elem_of_elements.
    repeat case_decide; set_solver.
  - apply NoDup_elements.
Qed.

Lemma get_v4_folders_filters_parent project_name folder_ids folder_paths folder_names
    parent_ids filters :
  get_v4_folders_filters project_name folder_ids folder_paths folder_names parent_ids
    = Some filters ->
  exists before, parent_ids_filter project_name parent_ids before = Some filters.
Proof.
  unfold get_v4_folders_filters. case_decide; [discriminate|].
  destruct (id_filter "folderIds" _ _) as [f1|]; [|discriminate]. simpl.
  destruct (id_filter "folderPaths" _ _) as [f2|]; [|discriminate]. simpl.
  destruct (id_filter "folderNames" _ _) as [f3|]; [|discriminate]. simpl.
  eauto.
Qed.

(** C7, as amended: when [parent_ids] holds [None] or the name of the project
    and [get_v4_folders] (or [get_v4_folders_tasks]) reaches its query, the
    [parentFolderIds] variable it binds holds the sentinel "root" once, holds
    no [None], holds no entry equal to the project name unless the project is
    itself named "root", and holds the other parent ids unchanged. *)
Theorem parent_ids_rewritten_to_root project_name folder_ids folder_paths folder_names
    (parent_ids : list scalar) filters :
  (SNone ∈ parent_ids \/ SStr project_name ∈ parent_ids) ->
  get_v4_folders_filters project_name folder_ids folder_paths folder_names
    (Some parent_ids) = Some filters ->
  (exists bound,
     filters !! "parentFolderIds" = Some (FList bound) /\
     SStr "root" ∈ bound /\
     (SNone ∉ bound) /\
     (project_name <> "root" -> SStr project_name ∉ bound) /\
     (forall x, x <> SNone -> x <> SStr project_name -> x <> SStr "root" ->
        (x ∈ bound <-> x ∈ parent_ids)) /\
     NoDup bound) /\
  (forall con active fields log,
     snd (get_v4_folders DEFAULT_FOLDER_FIELDS con project_name folder_ids folder_paths
            folder_names (Some parent_ids) active fields log) =
     log ++ [{| rq_query := Built "folders_graphql_query"
                  (add_active active (select_fields fields DEFAULT_FOLDER_FIELDS));
                rq_variables := filters |}]) /\
  (forall con active fields log,
     snd (get_v4_folders_tasks DEFAULT_V3_FOLDER_FIELDS con project_name folder_ids
            folder_paths folder_names (Some parent_ids) active fields log) =
     log ++ [{| rq_query := Built "folders_tasks_graphql_query"
                  (add_active active (select_fields fields DEFAULT_V3_FOLDER_FIELDS));
                rq_variables := filters |}]).
Proof.
  intros Hin Hfilters. split; [|split].
  - destruct (get_v4_folders_filters_parent _ _ _ _ _ _ Hfilters) as [before Hp].
    eapply parent_ids_filter_normalised; eassumption.
  - intros con active fields log. unfold get_v4_folders. rewrite Hfilters.
    unfold bind, call, ret, lift. destruct active; reflexivity.
  - intros con active fields log. unfold get_v4_folders_tasks. rewrite Hfilters.
    unfold bind, call, ret, lift. destruct active; reflexivity.
Qed.

End EntityFacts.

Lemma empty_filter_short_circuits_witness :
  run_v4 [] [] [] [] (con_const [inactive_repre])
    (FoldersCall "proj" (Some []) None None None None None) [] = (Ok [], []).
Proof.
  exact (empty_filter_short_circuits [] [] [] [] (con_const [inactive_repre])
           (FoldersCall "proj" (Some []) None None None None None) [] eq_refl).
Defined.


(** C5 as stated fails for [get_v4_representations]: with
    [names_by_version_ids] given, an empty [version_ids] is not read, and the
    query is sent. *)
Lemma empty_version_ids_not_read :
  is_empty (Some [] : option (list scalar)) = true /\
  run_v4 [] [] [] [] (con_const [])
    (RepresentationsCall "proj" None None (Some [])
       (Some [(SStr "v1", [SStr "main"])]) None None) []
  = (Ok [],
     [{| rq_query := Built "representations_graphql_query" ∅;
         rq_variables :=
           {["projectName" := FScalar (SStr "proj");
             "versionIds" := FList [SStr "v1"];
             "representationNames" := FList [SStr "main"]]} |}]).
Proof. split; vm_compute; reflexivity. Qed.

Lemma get_v4_versions_filter_mode_witness :
  exists rq,
    get_v4_versions [] (con_const [version_1]) "proj" None (Some [SStr "S"]) None
      true true (Some true) None [] = (Ok (con_const [version_1] rq), [] ++ [rq]) /\
    rq_variables rq !! "heroOnly" = None /\
    rq_variables rq !! "heroOrLatestOnly" = Some (FScalar (SBool true)) /\
    rq_variables rq !! "latestOnly" = None.
Proof.
  exact (proj2 (get_v4_versions_filter_mode [] (con_const [version_1]) "proj" None
                  (Some [SStr "S"]) None true true (Some true) None [])
           eq_refl eq_refl eq_refl eq_refl).
Defined.

(** C7 as stated fails for a project named "root": the entry that replaces
    the project name is the project name. *)
Lemma project_named_root_remains :
  get_v4_folders_filters "root" None None None (Some [SStr "root"])
    ≫= (fun filters => filters !! "parentFolderIds")
  = Some (FList [SStr "root"]).
Proof. vm_compute. reflexivity. Qed.

Lemma parent_ids_rewritten_to_root_witness :
  exists filters bound,
    get_v4_folders_filters "proj" None None None (Some [SNone; SStr "a"]) = Some filters /\
    filters !! "parentFolderIds" = Some (FList bound) /\
    SStr "root" ∈ bound /\ SStr "a" ∈ bound /\ SNone ∉ bound.
Proof.
  assert (Hfilters :
    get_v4_folders_filters "proj" None None None (Some [SNone; SStr "a"]) =
    Some (default ∅
            (get_v4_folders_filters "proj" None None None (Some [SNone; SStr "a"]))))
    by (vm_compute; reflexivity).
  assert (Hin : SNone ∈ [SNone; SStr "a"] \/ SStr "proj" ∈ [SNone; SStr "a"])
    by (left; apply elem_of_cons; left; reflexivity).
  destruct (parent_ids_rewritten_to_root [] [] "proj" None None None [SNone; SStr "a"] _
              Hin Hfilters) as [(bound & Hbound & Hroot & Hnone & _ & Hrest & _) _].
  eexists. exists bound. split; [exact Hfilters|]. split; [exact Hbound|].
  split; [exact Hroot|]. split; [|exact Hnone].
  apply Hrest; [discriminate | discriminate | discriminate|].
  apply elem_of_cons. right. apply elem_of_cons. left. reflexivity.
Defined.
(** ** More on rendering and on the variables of a query *)

Section RenderMoreFacts.

Lemma res_mapM_total {A B : Type} (f : A -> result B) l :
  (forall x, x ∈ l -> exists y, f x = Ok y) -> exists ys, res_mapM f l = Ok ys.
Proof.
  induction l as [|x l IH]; intros Hf; [exists []; reflexivity|].
  destruct (Hf x) as [y Hy]; [apply elem_of_cons; left; reflexivity|].
  destruct IH as [ys Hys]; [intros x' Hx'; apply Hf; apply elem_of_cons; right; exact Hx'|].
  exists (y :: ys). simpl. rewrite Hy. simpl. rewrite Hys. reflexivity.
Qed.

Lemma item_calculate_query_total it :
  edged_ok it = true -> forall indent, exists text, item_calculate_query indent it = Ok text.
Proof.
  induction it as [name has_edges filters children IH] using GraphQlQueryItem_tree_ind.
  intros Hok indent. cbn [edged_ok] in Hok.
  apply andb_true_iff in Hok. destruct Hok as [Hedge Hchildren].
  destruct children as [|c cs].
  - destruct has_edges; [discriminate Hedge|]. simpl. eauto.
  - cbn [forallb] in Hchildren. apply andb_true_iff in Hchildren.
    destruct Hchildren as [Hc Hcs].
    apply Forall_cons_1 in IH. destruct IH as [IHc IHcs].
    destruct (IHc Hc (child_indent indent has_edges + offset)) as [s Hs].
    destruct (res_mapM_total
                (item_calculate_query (child_indent indent has_edges + offset)) cs)
      as [ss Hss].
    { intros x Hx. rewrite Forall_forall in IHcs. apply IHcs; [exact Hx|].
      rewrite forallb_forall in Hcs. apply Hcs. apply list_elem_of_In. exact Hx. }
    cbn [item_calculate_query]. rewrite item_children_loop.
    rewrite Hs. cbn [res_bind]. rewrite Hss. cbn [res_bind]. eauto.
Qed.

Lemma variable_decls_total variables :
  all_str_typed variables = true -> exists decls, res_mapM variable_decl variables = Ok decls.
Proof.
  intros Hall. apply res_mapM_total. intros kv Hkv.
  unfold all_str_typed in Hall. rewrite forallb_forall in Hall.
  specialize (Hall kv (proj1 (list_elem_of_In _ _) Hkv)).
  destruct (variable_decl_cases kv) as [[_ Hok]|[Hne _]]; [exact Hok|].
  destruct (ve_type (snd kv)); simpl in Hall; congruence.
Qed.

Lemma variable_decls_ok variables decls :
  res_mapM variable_decl variables = Ok decls -> all_str_typed variables = true.
Proof.
  revert decls. induction variables as [|kv variables IH]; intros decls H; [reflexivity|].
  simpl in H. destruct (variable_decl_cases kv) as [[Hty [s Hs]]|[_ Hr]].
  - rewrite Hs in H. simpl in H.
    destruct (res_mapM variable_decl variables) as [ds|e] eqn:Hds; [|discriminate].
    simpl. rewrite Hty. simpl. eapply IH. reflexivity.
  - rewrite Hr in H. discriminate.
Qed.

Lemma calculate_query_total q :
  q_children q <> [] -> all_str_typed (q_variables q) = true ->
  forallb edged_ok (q_children q) = true ->
  exists text, calculate_query q = Ok text.
Proof.
  intros Hch Hvars Hitems. unfold calculate_query.
  destruct (q_children q) as [|c cs] eqn:Hc; [congruence|].
  destruct (variable_decls_total _ Hvars) as [decls ->].
  cbv beta iota delta [res_bind].
  destruct (res_mapM_total (item_calculate_query (0 + offset)) (c :: cs)) as [fields ->];
    [|eauto].
  intros x Hx. apply item_calculate_query_total.
  rewrite forallb_forall in Hitems. apply Hitems. apply list_elem_of_In. exact Hx.
Qed.

(** Rendering a query succeeds exactly when the query has a child field,
    every declared variable has the class [str] as its type, and every
    has-edges item of the tree has a child. *)
Theorem calculate_query_succeeds_iff q :
  (exists text, calculate_query q = Ok text) <->
  q_children q <> [] /\ all_str_typed (q_variables q) = true /\
  forallb edged_ok (q_children q) = true.
Proof.
  split.
  - intros [text H]. destruct (calculate_query_ok q text H) as [Hch Hitems].
    split; [exact Hch|]. split; [|exact Hitems].
    unfold calculate_query in H. destruct (q_children q); [congruence|].
    destruct (res_mapM variable_decl (q_variables q)) as [decls|e] eqn:Hd; [|discriminate].
    eapply variable_decls_ok. exact Hd.
  - intros (Hch & Hvars & Hitems). apply calculate_query_total; assumption.
Qed.

End RenderMoreFacts.

Section VariableFacts.

Lemma dict_get_map {V W : Type} (g : V -> W) k (d : list (string * V)) :
  dict_get k (List.map (fun kv => (fst kv, g (snd kv))) d) = g <$> dict_get k d.
Proof.
  induction d as [|[k' v] d IH]; simpl; [reflexivity|].
  destruct (String.eqb k k'); [reflexivity | exact IH].
Qed.

Lemma dict_set_keys_same {V : Type} k (v : V) d :
  is_Some (dict_get k d) -> fst <$> dict_set k v d = fst <$> d.
Proof.
  induction d as [|[k' v'] d IH]; simpl; intros [x Hx]; [discriminate|].
  destruct (String.eqb_spec k k') as [->|Hne]; simpl; [reflexivity|].
  f_equal. apply IH. eauto.
Qed.

(** Replacing an entry by one with the same type and variable leaves the
    rendered declarations as they were. *)
Lemma variable_decls_rebind key item item' variables :
  dict_get key variables = Some item ->
  ve_type item' = ve_type item -> ve_variable item' = ve_variable item ->
  res_mapM variable_decl (dict_set key item' variables) = res_mapM variable_decl variables.
Proof.
  intros Hget Hty Hvar. induction variables as [|[k v] variables IH]; [discriminate|].
  simpl in Hget |- *. destruct (String.eqb_spec key k) as [->|Hne].
  - injection Hget as ->. simpl. unfold variable_decl at 1 3. simpl.
    rewrite Hty, Hvar. reflexivity.
  - simpl. rewrite (IH Hget). reflexivity.
Qed.

(** [set_variable_value] raises [KeyError] exactly for a variable that was
    not declared, and leaves the query as it was; for a declared variable it
    binds the value, leaves the values of the other variables and the order of
    the declarations alone, and does not change what the query renders to. *)
Theorem set_variable_value_binds key value q :
  match set_variable_value key value q with
  | Ok q' =>
      is_Some (dict_get key (q_variables q)) /\
      dict_get key (get_variable_values q') = Some value /\
      (forall k, k <> key ->
         dict_get k (get_variable_values q') = dict_get k (get_variable_values q)) /\
      fst <$> q_variables q' = fst <$> q_variables q /\
      q_children q' = q_children q /\
      calculate_query q' = calculate_query q
  | Raise e => e = KeyError key /\ dict_get key (q_variables q) = None
  end.
Proof.
  unfold set_variable_value.
  destruct (dict_get key (q_variables q)) as [item|] eqn:Hget; [|split; reflexivity].
  split; [eauto|]. unfold get_variable_values. cbn [q_variables q_children q_name].
  split; [|split; [|split; [|split]]].
  - rewrite (dict_get_map ve_value). rewrite dict_get_set_eq. reflexivity.
  - intros k Hk. rewrite !(dict_get_map ve_value).
    rewrite dict_get_set_ne by congruence. reflexivity.
  - apply dict_set_keys_same. eauto.
  - reflexivity.
  - unfold calculate_query. cbn [q_variables q_children q_name].
    rewrite (variable_decls_rebind key item _ _ Hget); reflexivity.
Qed.

(** [add_variable] never fails.  The variable it returns renders as [$key]
    and is the one [get_variable] finds afterwards, bound to the value given;
    the other variables are untouched, and declaring a name again replaces
    its type and value in place instead of adding a second declaration. *)
Theorem add_variable_declares key value_type value q :
  qv_name (fst (add_variable key value_type value q)) = "$" +:+ key /\
  get_variable key (snd (add_variable key value_type value q)) =
    Ok (fst (add_variable key value_type value q)) /\
  dict_get key (get_variable_values (snd (add_variable key value_type value q))) =
    Some value /\
  (forall k, k <> key ->
     dict_get k (q_variables (snd (add_variable key value_type value q))) =
     dict_get k (q_variables q)) /\
  (NoDup (fst <$> q_variables q) ->
   NoDup (fst <$> q_variables (snd (add_variable key value_type value q)))) /\
  (is_Some (dict_get key (q_variables q)) ->
   fst <$> q_variables (snd (add_variable key value_type value q)) =
   fst <$> q_variables q).
Proof.
  unfold add_variable, get_variable, get_variable_values.
  cbn [fst snd q_variables q_children q_name].
  split; [reflexivity|]. split; [rewrite dict_get_set_eq; reflexivity|].
  split; [rewrite (dict_get_map ve_value), dict_get_set_eq; reflexivity|].
  split; [intros k Hk; apply dict_get_set_ne; congruence|].
  split; [apply dict_set_NoDup | apply dict_set_keys_same].
Qed.

End VariableFacts.

(** ** More on the field trie *)

Section TrieShapeFacts.

Lemma solid_solid_below t : solid t -> solid_below t.
Proof. intros [|items _ HF]; simpl; [exact I | exact HF]. Qed.

Lemma dict_set_nonempty {V : Type} k (v : V) d : dict_set k v d <> [].
Proof. destruct d as [|[k' v'] d]; simpl; [|destruct (String.eqb k k')]; discriminate. Qed.

Lemma walk_solid h last t : solid_below t -> solid (walk h last t).
Proof.
  revert t. induction h as [|part h IH]; intros [|items] Hbelow; cbn [walk];
    try constructor; try apply dict_set_nonempty.
  - apply dict_set_Forall; [constructor | exact Hbelow].
  - apply dict_set_Forall; [|exact Hbelow]. apply IH.
    destruct (dict_get part items) as [c|] eqn:Hget.
    + apply solid_solid_below. eapply dict_get_Forall; eassumption.
    + simpl. constructor.
Qed.

Lemma walk_dict h last items : exists items', walk h last (Dict items) = Dict items'.
Proof. destruct h; cbn [walk]; eauto. Qed.

Lemma add_path_dict items field : exists items', add_path (Dict items) field = Dict items'.
Proof. unfold add_path. apply walk_dict. Qed.

Lemma fold_add_path_solid fields :
  forall t, solid t -> solid (fold_left add_path fields t).
Proof.
  induction fields as [|field fields IH]; intros t Ht; [exact Ht|].
  simpl. apply IH. apply walk_solid. apply solid_solid_below. exact Ht.
Qed.

Lemma fold_add_path_dict fields :
  forall items, exists items', fold_left add_path fields (Dict items) = Dict items'.
Proof.
  induction fields as [|field fields IH]; intros items; [eauto|].
  simpl. destruct (add_path_dict items field) as [items' ->]. apply IH.
Qed.

(** [fields_to_dict] returns [None] for no fields and a [dict] otherwise, in
    which no nested [dict] holds a key twice and none is empty: every path of
    the trie ends in a wildcard. *)
Theorem fields_to_dict_trie_shape (P : list string) :
  match fields_to_dict P with
  | None => P = []
  | Some t => P <> [] /\ (exists items, items <> [] /\ t = Dict items) /\ wf t /\ solid t
  end.
Proof.
  destruct P as [|field fields]; [reflexivity|].
  cbn [fields_to_dict fold_left].
  assert (Hsolid : solid (fold_left add_path fields (add_path (Dict []) field))).
  { apply fold_add_path_solid. apply walk_solid. simpl. constructor. }
  split; [discriminate|]. split; [|split; [|exact Hsolid]].
  - destruct (add_path_dict [] field) as [items1 Hw].
    rewrite Hw in *. destruct (fold_add_path_dict fields items1) as [items' Hf].
    rewrite Hf in *. exists items'. split; [|reflexivity].
    inversion Hsolid. assumption.
  - apply fold_add_path_wf. apply walk_wf. constructor; constructor.
Qed.

(** The wildcards of the trie, read off the components of the paths. *)
Lemma flatten_components (P : list string) p :
  In p (flatten (fields_to_dict P)) <->
  exists c, join "." c = p /\ c ∈ (split_dot <$> P) /\
            forall r, r ∈ (split_dot <$> P) -> ~ proper_prefix r c.
Proof.
  destruct (decide (P = [])) as [->|HP].
  - simpl. split; [tauto|]. intros (c & _ & Hc & _). apply elem_of_nil in Hc. exact Hc.
  - rewrite (fields_to_dict_nonempty P HP). unfold flatten.
    pose proof (fold_add_path_covers P [] (Dict []) covers_empty) as Hcov.
    rewrite app_nil_r in Hcov.
    destruct (leaves_spec (fold_left add_path P (Dict []))) as [Hspec _].
    { apply fold_add_path_wf. constructor; constructor. }
    assert (Hrev : forall c, c ∈ rev (split_dot <$> P) <-> c ∈ (split_dot <$> P)).
    { intros c. rewrite !list_elem_of_In. symmetry. apply in_rev. }
    rewrite <- list_elem_of_In.
    change (List.map (join ".") (leaves (fold_left add_path P (Dict []))))
      with (join "." <$> leaves (fold_left add_path P (Dict []))).
    rewrite list_elem_of_fmap. split.
    + intros (c & -> & Hc). apply Hspec, Hcov in Hc. destruct Hc as [HcC Hmin].
      exists c. split; [reflexivity|]. split; [apply Hrev; exact HcC|].
      intros r Hr. apply Hmin. apply Hrev. exact Hr.
    + intros (c & <- & HcC & Hmin). exists c. split; [reflexivity|].
      apply Hspec, Hcov. split; [apply Hrev; exact HcC|].
      intros r Hr. apply Hmin. apply Hrev. exact Hr.
Qed.

(** The selection [fields_to_dict] builds depends on which paths are given,
    not on the order in which they are iterated nor on how often one occurs:
    two collections with the same members flatten to the same paths. *)
Theorem fields_to_dict_order_irrelevant (P P' : list string) :
  (forall p, In p P <-> In p P') ->
  forall p, In p (flatten (fields_to_dict P)) <-> In p (flatten (fields_to_dict P')).
Proof.
  intros Hsame p. rewrite !flatten_components.
  assert (Hc : forall c, c ∈ (split_dot <$> P) <-> c ∈ (split_dot <$> P')).
  { intros c. rewrite !list_elem_of_fmap. split; intros (s & -> & Hs); exists s;
      (split; [reflexivity|]); apply list_elem_of_In, Hsame, list_elem_of_In; exact Hs. }
  split; intros (c & Hj & HcC & Hmin); exists c; (split; [exact Hj|]);
    (split; [apply Hc; exact HcC|]); intros r Hr; apply Hmin; apply Hc; exact Hr.
Qed.

End TrieShapeFacts.

Lemma fields_to_dict_order_irrelevant_witness :
  In "data" (flatten (fields_to_dict ["data.family"; "name"; "data"])) <->
  In "data" (flatten (fields_to_dict ["data"; "name"; "data.family"; "name"])).
Proof.
  apply (fields_to_dict_order_irrelevant ["data.family"; "name"; "data"]
           ["data"; "name"; "data.family"; "name"]).
  intros p. simpl. tauto.
Defined.

(** ** The builders of queries from a field list *)

Section BuildFacts.

Lemma forallb_Forall {A : Type} (f : A -> bool) l :
  forallb f l = true <-> Forall (fun x => f x = true) l.
Proof.
  rewrite forallb_forall, Forall_forall. split; intros H x Hx; apply H;
    apply list_elem_of_In; exact Hx.
Qed.

Lemma node_weight_pos t : 0 < node_weight t.
Proof. destruct t; simpl; lia. Qed.

Lemma queue_weight_app a b : queue_weight (a ++ b) = queue_weight a + queue_weight b.
Proof.
  unfold queue_weight. induction a as [|x a IH]; simpl; [reflexivity|].
  rewrite IH. lia.
Qed.

Lemma node_weight_dict items (field : item_ref) :
  node_weight (Dict items) =
  S (queue_weight ((fun kv => (fst kv, snd kv, field)) <$> items)).
Proof.
  simpl. f_equal. unfold queue_weight.
  induction items as [|[k c] items IH]; simpl; [reflexivity|]. rewrite IH. reflexivity.
Qed.

(** The loop ends within as many iterations as there are entries to dequeue. *)
Lemma expand_fuel fuel :
  forall query_queue query,
    queue_weight query_queue <= fuel -> is_Some (expand fuel query_queue query).
Proof.
  induction fuel as [|fuel IH]; intros [|[[key value] parent] rest] query Hw;
    try (eexists; reflexivity).
  - simpl in Hw. pose proof (node_weight_pos value). unfold queue_weight in Hw.
    simpl in Hw. lia.
  - cbn [expand]. destruct (item_add_field parent key None query) as [field query'].
    change (queue_weight ((key, value, parent) :: rest))
      with (node_weight value + queue_weight rest) in Hw.
    destruct value as [|items].
    + apply IH. simpl in Hw. lia.
    + apply IH. rewrite queue_weight_app.
      rewrite (node_weight_dict items field) in Hw. lia.
Qed.

Lemma edged_ok_add_child name has_edges filters children key :
  edged_ok (MkItem name has_edges filters children) = true ->
  edged_ok (MkItem name has_edges filters (children ++ [new_item key None])) = true.
Proof.
  cbn [edged_ok]. intros H. apply andb_true_iff in H. destruct H as [_ Hch].
  apply andb_true_iff. split.
  - rewrite bool_decide_eq_false_2; [apply orb_true_r|]. destruct children; discriminate.
  - rewrite forallb_app. rewrite Hch. reflexivity.
Qed.

Lemma update_at_edged_ok (f : GraphQlQueryItem -> GraphQlQueryItem) :
  (forall it, edged_ok it = true -> edged_ok (f it) = true) ->
  forall path children,
    Forall (fun it => edged_ok it = true) children ->
    Forall (fun it => edged_ok it = true) (update_at path f children) /\
    length (update_at path f children) = length children.
Proof.
  intros Hf. induction path as [|i rest IH]; intros children Hall; [split; [exact Hall|reflexivity]|].
  cbn [update_at]. destruct rest as [|j rest'].
  - split; [|apply length_alter]. apply Forall_alter; [exact Hall|].
    intros it _. apply Hf.
  - split; [|apply length_alter]. apply Forall_alter; [exact Hall|].
    intros [name has_edges filters cs] _ Hit.
    cbn [item_name item_has_edges item_filters item_children].
    cbn [edged_ok] in Hit. apply andb_true_iff in Hit. destruct Hit as [Hedge Hcs].
    apply forallb_Forall in Hcs. destruct (IH cs Hcs) as [Hcs' Hlen].
    set (cs' := update_at (j :: rest') f cs) in *. clearbody cs'.
    cbn [edged_ok]. apply andb_true_iff. split; [|apply forallb_Forall; exact Hcs'].
    destruct has_edges; [|reflexivity]. cbn [negb orb] in Hedge |- *.
    destruct cs as [|c cs0].
    + rewrite bool_decide_eq_true_2 in Hedge by reflexivity. discriminate Hedge.
    + destruct cs' as [|c' cs0']; [discriminate Hlen|].
      rewrite bool_decide_eq_false_2 by discriminate. reflexivity.
Qed.

(** Adding a field anywhere keeps the single top-level field, its name, flag
    and filters, the variables, and the well-formedness of what is below it. *)
Lemma item_add_field_rooted parent key q name has_edges filters children :
  rooted q name has_edges filters children ->
  Forall (fun it => edged_ok it = true) children ->
  exists children',
    rooted (snd (item_add_field parent key None q)) name has_edges filters children' /\
    Forall (fun it => edged_ok it = true) children' /\
    length children <= length children' /\
    (parent = [0] -> children' <> []) /\
    q_variables (snd (item_add_field parent key None q)) = q_variables q.
Proof.
  unfold rooted. intros Hroot Hall. unfold item_add_field.
  cbn [snd q_children q_variables]. rewrite Hroot.
  destruct parent as [|i rest].
  - exists children. cbn [update_at]. repeat split; [exact Hall | lia | discriminate].
  - destruct i as [|i].
    + destruct rest as [|j rest'].
      * cbn. exists (children ++ [new_item key None]). split; [reflexivity|].
        split; [apply Forall_app; split; [exact Hall | constructor; [reflexivity | constructor]]|].
        split; [rewrite length_app; lia|]. split; [|reflexivity].
        intros _. destruct children; discriminate.
      * destruct (update_at_edged_ok
                    (fun it => MkItem (item_name it) (item_has_edges it) (item_filters it)
                                 (item_children it ++ [new_item key None]))
                    (fun it => match it with
                               | MkItem n e fl cs => edged_ok_add_child n e fl cs key
                               end)
                    (j :: rest') children Hall) as [Hall' Hlen].
        match type of Hlen with length ?cs' = _ => exists cs' end.
        split; [reflexivity|]. split; [exact Hall'|].
        split; [lia|]. split; [discriminate | reflexivity].
    + exists children. split.
      * destruct rest; reflexivity.
      * repeat split; [exact Hall | lia | discriminate].
Qed.

Lemma expand_rooted fuel :
  forall query_queue q q' name has_edges filters children,
    expand fuel query_queue q = Some q' ->
    rooted q name has_edges filters children ->
    Forall (fun it => edged_ok it = true) children ->
    exists children',
      rooted q' name has_edges filters children' /\
      Forall (fun it => edged_ok it = true) children' /\
      length children <= length children' /\
      (forall key value rest, query_queue = (key, value, [0]) :: rest -> children' <> []) /\
      q_variables q' = q_variables q.
Proof.
  induction fuel as [|fuel IH];
    intros [|[[key value] parent] rest] q q' name has_edges filters children Hex Hroot Hall;
    cbn [expand] in Hex; try discriminate.
  - injection Hex as <-. exists children. repeat split; [exact Hroot | exact Hall | lia | discriminate].
  - injection Hex as <-. exists children. repeat split; [exact Hroot | exact Hall | lia | discriminate].
  - destruct (item_add_field_rooted parent key q name has_edges filters children Hroot Hall)
      as (cs1 & Hroot1 & Hall1 & Hlen1 & Hne1 & Hvars1).
    destruct (item_add_field parent key None q) as [field q1]. cbn [snd] in *.
    assert (Hnext : exists queue', expand fuel queue' q1 = Some q').
    { destruct value; eauto. }
    destruct Hnext as [queue' Hex'].
    destruct (IH queue' q1 q' name has_edges filters cs1 Hex' Hroot1 Hall1)
      as (cs' & Hroot' & Hall' & Hlen' & _ & Hvars').
    exists cs'. split; [exact Hroot'|]. split; [exact Hall'|]. split; [lia|].
    split; [|congruence].
    intros k v r [= -> -> -> ->]. specialize (Hne1 eq_refl).
    destruct cs1; [congruence|]. destruct cs'; [simpl in Hlen'; lia | discriminate].
Qed.

Lemma fields_to_dict_dict (P : list string) :
  P <> [] -> exists items, items <> [] /\ fields_to_dict P = Some (Dict items).
Proof.
  destruct P as [|field fields]; [congruence|]. intros _.
  cbn [fields_to_dict fold_left].
  destruct (add_path_dict [] field) as [items1 Hw].
  assert (Hsolid : solid (fold_left add_path fields (add_path (Dict []) field))).
  { apply fold_add_path_solid. apply walk_solid. simpl. constructor. }
  rewrite Hw in *. destruct (fold_add_path_dict fields items1) as [items' Hf].
  rewrite Hf in *. exists items'. split; [|reflexivity]. inversion Hsolid. assumption.
Qed.

(** [projects_graphql_from_fields] raises [AttributeError] for no fields
    ([fields_to_dict] returns [None], which has no [items]); for any other
    field list its loop ends and the query it returns renders without error:
    the has-edges field [projects] has a child. *)
Theorem projects_graphql_from_fields_renders (fields : list string) :
  match projects_graphql_from_fields fields with
  | Some (BuiltQuery q) =>
      fields <> [] /\ q_variables q = [] /\ exists text, calculate_query q = Ok text
  | Some (AttributeError _) => fields = []
  | None => False
  end.
Proof.
  unfold projects_graphql_from_fields.
  destruct (decide (fields = [])) as [->|Hne]; [reflexivity|].
  destruct (fields_to_dict_dict fields Hne) as (items & Hitems & ->).
  cbn [query_add_field new_query q_children q_variables q_name length app fst snd].
  match goal with
  | |- context [expand (queue_weight ?qq) ?qq ?q0] => set (queue := qq); set (query := q0)
  end.
  destruct (expand_fuel (queue_weight queue) queue query (Nat.le_refl _)) as [q' Hex].
  rewrite Hex. cbn [fmap option_fmap option_map].
  destruct (expand_rooted _ _ _ _ "projects" true [] [] Hex eq_refl (List.Forall_nil _))
    as (cs' & Hroot & Hall & _ & Hne' & Hvars).
  split; [exact Hne|]. split; [rewrite Hvars; reflexivity|].
  apply calculate_query_total.
  - rewrite Hroot. discriminate.
  - rewrite Hvars. reflexivity.
  - rewrite Hroot. cbn [forallb edged_ok]. rewrite andb_true_r.
    apply andb_true_iff. split; [|apply forallb_Forall; exact Hall].
    rewrite bool_decide_eq_false_2; [reflexivity|].
    destruct items as [|[k v] items]; [congruence|].
    eapply Hne'. subst queue. reflexivity.
Qed.

(** [project_graphql_from_fields] raises [AttributeError] for no fields; for
    any other field list, also one that asks for [name] only, its loop ends
    and the query it returns declares [projectName] as its only variable,
    bound to the project name, and renders without error. *)
Theorem project_graphql_from_fields_renders (project_name : string) (fields : list string) :
  match project_graphql_from_fields project_name fields with
  | Some (BuiltQuery q) =>
      fields <> [] /\
      get_variable_values q = [("projectName", FScalar (SStr project_name))] /\
      exists text, calculate_query q = Ok text
  | Some (AttributeError _) => fields = []
  | None => False
  end.
Proof.
  unfold project_graphql_from_fields.
  destruct (decide (fields = [])) as [->|Hne]; [reflexivity|].
  destruct (fields_to_dict_dict fields Hne) as (items & Hitems & ->).
  cbn [add_variable query_add_field item_filter new_query q_children q_variables q_name
       length app fst snd dict_set update_at alter list_alter new_item default
       item_name item_has_edges item_filters item_children filters_store].
  match goal with
  | |- context [expand (queue_weight ?queue) ?queue ?q0] =>
      set (query_queue := queue); set (query := q0)
  end.
  destruct (expand_fuel (queue_weight query_queue) query_queue query (Nat.le_refl _))
    as [q' Hex].
  rewrite Hex. cbn [fmap option_fmap option_map].
  destruct (expand_rooted _ _ _ _ "project" false
              [("name", FScalar (SStr (qv_name {| variable_name := "projectName" |})))] []
              Hex eq_refl (List.Forall_nil _))
    as (cs' & Hroot & Hall & _ & _ & Hvars).
  split; [exact Hne|]. split; [unfold get_variable_values; rewrite Hvars; reflexivity|].
  apply calculate_query_total.
  - rewrite Hroot. discriminate.
  - rewrite Hvars. reflexivity.
  - rewrite Hroot. cbn [forallb edged_ok negb orb]. rewrite andb_true_r.
    apply forallb_Forall. exact Hall.
Qed.

End BuildFacts.

(** ** More on the v4 query functions *)

Section ActiveFacts.

Lemma py_is_bool_true b v : py_is_bool b v = true <-> v = SBool b.
Proof.
  destruct v as [|y|z|s]; simpl; try (split; [discriminate | congruence]).
  rewrite Bool.eqb_true_iff. split; intros H; [subst; reflexivity | congruence].
Qed.

(** The comprehension [[e for e in entities if e["active"] is active]]. *)
Lemma keep_active_is_spec act entities :
  match keep_active_is act entities with
  | Ok out => out = base.filter (fun r => r !! "active" = Some (SBool act)) entities
  | Raise e => e = KeyError "active" /\ Exists (fun r => r !! "active" = None) entities
  end.
Proof.
  induction entities as [|r rest IH]; [reflexivity|].
  cbn [keep_active_is]. unfold getitem.
  destruct (r !! "active") as [v|] eqn:Hv; cbn [res_bind].
  - destruct (keep_active_is act rest) as [out|e]; cbn [res_bind].
    + subst out. destruct (py_is_bool act v) eqn:His.
      * apply py_is_bool_true in His. subst v.
        rewrite filter_cons_True by exact Hv. reflexivity.
      * rewrite filter_cons_False; [reflexivity|].
        rewrite Hv. intros [= ->].
        assert (py_is_bool act (SBool act) = true) by (destruct act; reflexivity).
        congruence.
    + destruct IH as [-> Hex]. split; [reflexivity | apply Exists_cons_tl; exact Hex].
  - split; [reflexivity | apply Exists_cons_hd; exact Hv].
Qed.

Lemma elem_of_add_active act fields : "active" ∈ add_active (Some act) fields.
Proof. unfold add_active. set_solver. Qed.

Lemma filters_by_active_call con builder fields variables act log :
  filters_by_active con act log
    (bind (call con {| rq_query := Built builder (add_active (Some act) fields);
                       rq_variables := variables |})
          (fun found => lift (keep_active_is act found)) log).
Proof.
  unfold filters_by_active, bind, call, lift. cbn [fst snd].
  eexists. split.
  - right. eexists. split; [reflexivity|]. split; [reflexivity|].
    unfold request_fields. cbn [rq_query]. apply elem_of_add_active.
  - apply keep_active_is_spec.
Qed.

Lemma filters_by_active_ret con act log :
  filters_by_active con act log (ret [] log).
Proof.
  exists []. split; [left; split; reflexivity | reflexivity].
Qed.

Variable DEFAULT_V3_FOLDER_FIELDS : list string.
Variable DEFAULT_FOLDER_FIELDS : list string.

(** With [active] set to [True] or [False], [get_v4_folders], [get_v4_tasks]
    and [get_v4_folders_tasks] ask the server for the field [active] and
    return, in order, exactly the found records whose [active] is that value;
    they raise [KeyError] only when a found record has no such field. *)
Theorem folders_and_tasks_filter_by_active con project_name
    (ids_1 ids_2 ids_3 ids_4 : option (list scalar)) act fields log :
  filters_by_active con act log
    (get_v4_folders DEFAULT_FOLDER_FIELDS con project_name ids_1 ids_2 ids_3 ids_4
       (Some act) fields log) /\
  filters_by_active con act log
    (get_v4_tasks DEFAULT_FOLDER_FIELDS con project_name ids_1 ids_2 ids_3 ids_4
       (Some act) fields log) /\
  filters_by_active con act log
    (get_v4_folders_tasks DEFAULT_V3_FOLDER_FIELDS con project_name ids_1 ids_2 ids_3
       ids_4 (Some act) fields log).
Proof.
  split; [|split].
  - unfold get_v4_folders. destruct (get_v4_folders_filters _ _ _ _ _);
      [apply filters_by_active_call | apply filters_by_active_ret].
  - unfold get_v4_tasks. destruct (get_v4_tasks_filters _ _ _ _ _);
      [apply filters_by_active_call | apply filters_by_active_ret].
  - unfold get_v4_folders_tasks. destruct (get_v4_folders_filters _ _ _ _ _);
      [apply filters_by_active_call | apply filters_by_active_ret].
Qed.

End ActiveFacts.

Section FilterTableFacts.

Lemma id_filter_lookup key ids filters filters' :
  id_filter key ids filters = Some filters' ->
  filters' !! key =
  match ids with
  | Some l => Some (FList (elements (list_to_set l : gset scalar)))
  | None => filters !! key
  end.
Proof.
  unfold id_filter. destruct ids as [l|]; [|intros [= <-]; reflexivity].
  case_decide; [discriminate|]. intros [= <-]. apply lookup_insert_eq.
Qed.

Lemma parent_ids_filter_lookup project_name parent_ids filters filters' :
  parent_ids_filter project_name parent_ids filters = Some filters' ->
  (forall k, k <> "parentFolderIds" -> filters' !! k = filters !! k) /\
  match parent_ids with
  | None => filters' !! "parentFolderIds" = filters !! "parentFolderIds"
  | Some _ => is_Some (filters' !! "parentFolderIds")
  end.
Proof.
  unfold parent_ids_filter. destruct parent_ids as [l|].
  - case_decide; [discriminate|]. intros [= <-]. split.
    + intros k Hk. apply lookup_insert_ne. congruence.
    + rewrite lookup_insert_eq. eauto.
  - intros [= <-]. split; reflexivity.
Qed.

(** The variables [get_v4_folders] and [get_v4_folders_tasks] bind when they
    reach their query: the project name, each id filter that was given, as
    the list of its distinct members, and nothing for a filter passed as
    [None]; [parentFolderIds] is bound exactly when [parent_ids] was given. *)
Theorem get_v4_folders_filters_table project_name folder_ids folder_paths folder_names
    parent_ids filters :
  get_v4_folders_filters project_name folder_ids folder_paths folder_names parent_ids
    = Some filters ->
  project_name <> "" /\
  filters !! "projectName" = Some (FScalar (SStr project_name)) /\
  filters !! "folderIds" =
    (fun l => FList (elements (list_to_set l : gset scalar))) <$> folder_ids /\
  filters !! "folderPaths" =
    (fun l => FList (elements (list_to_set l : gset scalar))) <$> folder_paths /\
  filters !! "folderNames" =
    (fun l => FList (elements (list_to_set l : gset scalar))) <$> folder_names /\
  (filters !! "parentFolderIds" = None <-> parent_ids = None) /\
  (forall k, k ∉ ["projectName"; "folderIds"; "folderPaths"; "folderNames";
                  "parentFolderIds"] -> filters !! k = None).
Proof.
  unfold get_v4_folders_filters. case_decide as Hname; [discriminate|].
  destruct (id_filter "folderIds" _ _) as [f1|] eqn:E1; [|discriminate]. simpl.
  destruct (id_filter "folderPaths" _ _) as [f2|] eqn:E2; [|discriminate]. simpl.
  destruct (id_filter "folderNames" _ _) as [f3|] eqn:E3; [|discriminate]. simpl.
  intros Hp. apply parent_ids_filter_lookup in Hp. destruct Hp as [Hrest Hparent].
  pose proof (id_filter_lookup _ _ _ _ E1) as L1.
  pose proof (id_filter_lookup _ _ _ _ E2) as L2.
  pose proof (id_filter_lookup _ _ _ _ E3) as L3.
  apply id_filter_Some in E1, E2, E3.
  destruct E1 as [_ E1], E2 as [_ E2], E3 as [_ E3].
  split; [exact Hname|].
  split; [rewrite Hrest, E3, E2, E1 by discriminate; reflexivity|].
  split; [rewrite Hrest, E3, E2, L1 by discriminate;
          destruct folder_ids; reflexivity|].
  split; [rewrite Hrest, E3, L2 by discriminate;
          destruct folder_paths; [reflexivity|]; rewrite E1 by discriminate; reflexivity|].
  split; [rewrite Hrest, L3 by discriminate;
          destruct folder_names; [reflexivity|];
          rewrite E2, E1 by discriminate; reflexivity|].
  split.
  - destruct parent_ids as [l|].
    + split; [|discriminate]. intros Hnone. rewrite Hnone in Hparent.
      destruct Hparent as [x Hx]. discriminate.
    + split; [reflexivity|]. intros _. rewrite Hparent, E3, E2, E1 by discriminate.
      reflexivity.
  - intros k Hk. rewrite !not_elem_of_cons in Hk.
    destruct Hk as (K1 & K2 & K3 & K4 & K5 & _).
    rewrite Hrest, E3, E2, E1 by congruence.
    apply lookup_singleton_ne. congruence.
Qed.

(** With [names_by_version_ids] given, the [versionIds] that
    [get_v4_representations] binds are the keys of the mapping and the
    [representationNames] are the names of all its entries together, each
    once; the arguments [representation_names] and [version_ids] play no part. *)
Theorem names_by_version_ids_filters project_name representation_ids representation_names
    version_ids (items : list (scalar * list scalar)) filters :
  get_v4_representations_filters project_name representation_ids representation_names
    version_ids (Some items) = Some filters ->
  exists bound_ids bound_names,
    filters !! "versionIds" = Some (FList bound_ids) /\
    filters !! "representationNames" = Some (FList bound_names) /\
    (forall x, x ∈ bound_ids <-> x ∈ (fst <$> items)) /\
    (forall y, y ∈ bound_names <-> exists entry, entry ∈ items /\ y ∈ snd entry) /\
    NoDup bound_ids /\ NoDup bound_names.
Proof.
  unfold get_v4_representations_filters.
  destruct (id_filter "representationIds" _ _) as [f1|] eqn:E1; [|discriminate]. simpl.
  case_decide as Hempty; [discriminate|]. simpl. intros [= <-].
  apply Decidable.not_or in Hempty. destruct Hempty as [Hv Hn].
  unfold truthy_set_filter. rewrite !decide_False by assumption.
  eexists. eexists.
  split; [rewrite lookup_insert_ne by discriminate; apply lookup_insert_eq|].
  split; [apply lookup_insert_eq|].
  split; [intros x; rewrite elem_of_elements, elem_of_list_to_set; reflexivity|].
  split; [|split; apply NoDup_elements].
  intros y. rewrite elem_of_elements, elem_of_union_list. split.
  - intros (X & HX & Hy). apply list_elem_of_fmap in HX. destruct HX as (entry & -> & He).
    exists entry. split; [exact He|]. apply elem_of_list_to_set in Hy. exact Hy.
  - intros (entry & He & Hy). exists (list_to_set (snd entry)). split.
    + apply list_elem_of_fmap. exists entry. split; [reflexivity | exact He].
    + apply elem_of_list_to_set. exact Hy.
Qed.

End FilterTableFacts.

Lemma get_v4_folders_filters_table_witness :
  exists filters,
    get_v4_folders_filters "proj" (Some [SStr "f1"; SStr "f1"]) None None None
      = Some filters /\
    filters !! "folderIds" = Some (FList [SStr "f1"]) /\
    filters !! "folderNames" = None.
Proof.
  assert (Hfilters :
    get_v4_folders_filters "proj" (Some [SStr "f1"; SStr "f1"]) None None None =
    Some (default ∅
            (get_v4_folders_filters "proj" (Some [SStr "f1"; SStr "f1"]) None None None)))
    by (vm_compute; reflexivity).
  destruct (get_v4_folders_filters_table "proj" (Some [SStr "f1"; SStr "f1"]) None None
              None _ Hfilters) as (_ & _ & Hids & _ & Hnames & _).
  eexists. split; [exact Hfilters|]. split; [|exact Hnames].
  rewrite Hids. vm_compute. reflexivity.
Defined.

Lemma names_by_version_ids_filters_witness :
  exists filters bound_ids bound_names,
    get_v4_representations_filters "proj1" None None None
      (Some [(SStr "v1", [SStr "main"])]) = Some filters /\
    filters !! "versionIds" = Some (FList bound_ids) /\
    filters !! "representationNames" = Some (FList bound_names) /\
    SStr "v1" ∈ bound_ids /\ SStr "main" ∈ bound_names.
Proof.
  assert (Hfilters :
    get_v4_representations_filters "proj1" None None None
      (Some [(SStr "v1", [SStr "main"])]) =
    Some (default ∅
            (get_v4_representations_filters "proj1" None None None
               (Some [(SStr "v1", [SStr "main"])]))))
    by (vm_compute; reflexivity).
  destruct (names_by_version_ids_filters "proj1" None None None
              [(SStr "v1", [SStr "main"])] _ Hfilters)
    as (bound_ids & bound_names & Hids & Hnames & Hin_ids & Hin_names & _).
  eexists. exists bound_ids, bound_names.
  split; [exact Hfilters|]. split; [exact Hids|]. split; [exact Hnames|]. split.
  - apply Hin_ids. apply elem_of_cons. left. reflexivity.
  - apply Hin_names. exists (SStr "v1", [SStr "main"]).
    split; apply elem_of_cons; left; reflexivity.
Defined.

(** ** More on the version queries *)

Section VersionFacts.

Variable DEFAULT_VERSION_FIELDS : list string.
Variable version_fields_v3_to_v4 : option (list string) -> option (list string).
Variable convert_v4_version_to_v3 : record -> record.

Lemma get_v4_versions_outcome con project_name version_ids subset_ids versions hero
    standard latest fields log :
  match get_v4_versions_filters project_name version_ids subset_ids versions hero
          standard latest with
  | None =>
      get_v4_versions DEFAULT_VERSION_FIELDS con project_name version_ids subset_ids
        versions hero standard latest fields log = (Ok [], log)
  | Some filters =>
      exists rq,
        rq_variables rq = filters /\
        get_v4_versions DEFAULT_VERSION_FIELDS con project_name version_ids subset_ids
          versions hero standard latest fields log = (Ok (con rq), log ++ [rq])
  end.
Proof.
  unfold get_v4_versions.
  destruct (get_v4_versions_filters _ _ _ _ _ _ _); [|reflexivity].
  eexists. split; [|reflexivity]. reflexivity.
Qed.

(** The first loop of [_get_versions] separates the hero versions from the
    others, both in the order queried. *)
Lemma split_versions_spec queried :
  match split_versions convert_v4_version_to_v3 queried with
  | Ok both =>
      fst both =
        convert_v4_version_to_v3 <$> base.filter (fun r => is_hero r = false) queried /\
      snd both = base.filter (fun r => is_hero r = true) queried
  | Raise _ => True
  end.
Proof.
  induction queried as [|r rest IH]; [split; reflexivity|].
  cbn [split_versions]. unfold getitem.
  destruct (r !! "version") as [n|] eqn:Hn; cbn [res_bind]; [|exact I].
  assert (Hhero : forall b, py_lt0 n = Ok b -> is_hero r = b).
  { intros b Hb. unfold is_hero. rewrite Hn.
    destruct n; simpl in Hb; congruence. }
  destruct (py_lt0 n) as [b|e]; cbn [res_bind]; [|exact I].
  specialize (Hhero b eq_refl).
  destruct (split_versions convert_v4_version_to_v3 rest) as [[vs hs]|e]; cbn [res_bind];
    [|exact I].
  cbn [fst snd] in IH |- *. destruct IH as [-> ->].
  destruct b; cbn [fst snd].
  - rewrite filter_cons_False by congruence. rewrite filter_cons_True by exact Hhero.
    split; reflexivity.
  - rewrite filter_cons_True by exact Hhero. rewrite filter_cons_False by congruence.
    split; reflexivity.
Qed.

Lemma get_versions_outcome con project_name version_ids subset_ids versions hero standard
    latest fields log out log' :
  _get_versions DEFAULT_VERSION_FIELDS version_fields_v3_to_v4 convert_v4_version_to_v3
    con project_name version_ids subset_ids versions hero standard latest fields log
    = (Ok out, log') ->
  exists queried,
    match get_v4_versions_filters project_name version_ids subset_ids versions hero
            standard latest with
    | None => queried = []
    | Some filters => exists rq, rq_variables rq = filters /\ queried = con rq
    end /\
    out = convert_v4_version_to_v3 <$> base.filter (fun r => is_hero r = false) queried.
Proof.
  unfold _get_versions.
  match goal with
  | |- context [get_v4_versions _ _ _ _ _ _ _ _ _ ?f] => set (fields' := f)
  end.
  pose proof (get_v4_versions_outcome con project_name version_ids subset_ids versions
                hero standard latest fields' log) as Hq.
  unfold bind at 1.
  assert (Hcont : forall queried log1,
    (both <~ lift (split_versions convert_v4_version_to_v3 queried) ;;
     match snd both with
     | [] => ret (fst both)
     | _ :: _ =>
         _ <~ resolve_hero_versions DEFAULT_VERSION_FIELDS convert_v4_version_to_v3 con
                project_name (snd both) ;;
         ret (fst both)
     end)%py log1 = (Ok out, log') ->
    out = convert_v4_version_to_v3 <$> base.filter (fun r => is_hero r = false) queried).
  { intros queried log1. unfold bind at 1, lift.
    pose proof (split_versions_spec queried) as Hs.
    destruct (split_versions convert_v4_version_to_v3 queried) as [[vs hs]|e];
      [|discriminate].
    cbn [fst snd] in Hs |- *. destruct Hs as [-> _].
    destruct hs as [|h hs].
    - unfold ret. intros [= <- _]. reflexivity.
    - unfold bind, ret.
      destruct (resolve_hero_versions _ _ _ _ _ _) as [[x|e] l]; [|discriminate].
      intros [= <- _]. reflexivity. }
  destruct (get_v4_versions_filters _ _ _ _ _ _ _) as [filters|].
  - destruct Hq as (rq & Hrq & ->). intros H. exists (con rq).
    split; [eauto|]. eapply Hcont. exact H.
  - rewrite Hq. intros H. exists []. split; [reflexivity|]. eapply Hcont. exact H.
Qed.


Lemma hero_only_bound project_name version_ids subset_ids versions latest filters :
  get_v4_versions_filters project_name version_ids subset_ids versions true false latest
    = Some filters ->
  filters !! "heroOnly" = Some (FScalar (SBool true)).
Proof.
  unfold get_v4_versions_filters.
  destruct (id_filter "versionIds" _ _) as [f1|]; [|discriminate]. simpl.
  destruct (id_filter "subsetIds" _ _) as [f2|]; [|discriminate]. simpl.
  destruct (id_filter "versions" _ _) as [f3|]; [|discriminate]. simpl.
  intros [= <-]. apply lookup_insert_eq.
Qed.

Lemma filter_none_of {A : Type} (P Q : A -> Prop) `{!forall x, Decision (P x)} (l : list A) :
  Forall Q l -> (forall x, Q x -> ~ P x) -> base.filter P l = [].
Proof.
  intros HQ Hno. induction HQ as [|x l Hx _ IH]; [reflexivity|].
  rewrite filter_cons_False by (apply Hno; exact Hx). exact IH.
Qed.

Lemma get_hero_versions_empty con
    (Hserver : forall rq, rq_variables rq !! "heroOnly" = Some (FScalar (SBool true)) ->
                          Forall (fun r => is_hero r = true) (con rq))
    project_name subset_ids version_ids fields log :
  match fst (get_hero_versions DEFAULT_VERSION_FIELDS version_fields_v3_to_v4
               convert_v4_version_to_v3 con project_name subset_ids version_ids fields
               log) with
  | Ok out => out = []
  | Raise _ => True
  end.
Proof.
  unfold get_hero_versions.
  destruct (_get_versions _ _ _ _ _ _ _ _ _ _ _ _ _) as [[out|e] log'] eqn:H; [|exact I].
  cbn [fst]. destruct (get_versions_outcome _ _ _ _ _ _ _ _ _ _ _ _ H) as (queried & Hq & ->).
  destruct (get_v4_versions_filters _ _ _ _ _ _ _) as [filters|] eqn:Hf.
  - destruct Hq as (rq & Hrq & ->). apply hero_only_bound in Hf. subst filters.
    rewrite (filter_none_of _ (fun r => is_hero r = true) (con rq) (Hserver rq Hf));
      [reflexivity | congruence].
  - subst queried. reflexivity.
Qed.

(** Against a server that answers a [heroOnly] query with hero versions
    only, [get_hero_versions] never returns a version, and so
    [get_hero_version_by_id] and [get_hero_version_by_subset_id] return
    [None] whenever they return. *)
Theorem hero_getters_find_nothing con project_name subset_ids version_ids
    (version_id subset_id : scalar) fields log :
  (forall rq, rq_variables rq !! "heroOnly" = Some (FScalar (SBool true)) ->
              Forall (fun r => is_hero r = true) (con rq)) ->
  match fst (get_hero_versions DEFAULT_VERSION_FIELDS version_fields_v3_to_v4
               convert_v4_version_to_v3 con project_name subset_ids version_ids fields
               log) with
  | Ok out => out = []
  | Raise _ => True
  end /\
  match fst (get_hero_version_by_id DEFAULT_VERSION_FIELDS version_fields_v3_to_v4
               convert_v4_version_to_v3 con project_name version_id fields log) with
  | Ok found => found = None
  | Raise _ => True
  end /\
  match fst (get_hero_version_by_subset_id DEFAULT_VERSION_FIELDS
               version_fields_v3_to_v4 convert_v4_version_to_v3 con project_name
               subset_id fields log) with
  | Ok found => found = None
  | Raise _ => True
  end.
Proof.
  intros Hserver. split; [apply get_hero_versions_empty; exact Hserver|]. split.
  - unfold get_hero_version_by_id, bind.
    pose proof (get_hero_versions_empty con Hserver project_name None
                  (Some [version_id]) fields log) as H.
    destruct (get_hero_versions _ _ _ _ _ _ _ _ _) as [[out|e] log']; [|exact I].
    cbn [fst] in H. subst out. reflexivity.
  - unfold get_hero_version_by_subset_id, bind.
    pose proof (get_hero_versions_empty con Hserver project_name (Some [subset_id])
                  None fields log) as H.
    destruct (get_hero_versions _ _ _ _ _ _ _ _ _) as [[out|e] log']; [|exact I].
    cbn [fst] in H. subst out. reflexivity.
Qed.

End VersionFacts.


Lemma hero_getters_find_nothing_witness :
  match fst (get_hero_version_by_id [] (fun fields => fields) (fun r => r) con_hero_only
               "proj" (SStr "H3") None []) with
  | Ok found => found = None
  | Raise _ => True
  end /\
  fst (get_hero_version_by_id [] (fun fields => fields) (fun r => r) con_hero_only
         "proj" (SStr "H3") None []) = Ok None.
Proof.
  assert (Hserver :
    forall rq, rq_variables rq !! "heroOnly" = Some (FScalar (SBool true)) ->
               Forall (fun r => is_hero r = true) (con_hero_only rq)).
  { intros rq Hrq. unfold con_hero_only. rewrite Hrq.
    constructor; [reflexivity | constructor]. }
  split; [|vm_compute; reflexivity].
  exact (proj1 (proj2 (hero_getters_find_nothing [] (fun fields => fields)
                         (fun r => r) con_hero_only "proj" None None (SStr "H3")
                         (SStr "S") None [] Hserver))).
Defined.

(** ** The v3 asset functions *)

Section AssetFacts.

Variable DEFAULT_V3_FOLDER_FIELDS : list string.
Variable DEFAULT_FOLDER_FIELDS : list string.
Variable folder_fields_v3_to_v4 : option (list string) -> option (list string).
Variable convert_v4_folder_to_v3 : record -> string -> record.

Lemma first_or_none_head (entities : list record) : first_or_none entities = head entities.
Proof. destruct entities; reflexivity. Qed.

(** The first record a lazy filter yields is the head of the filtered list,
    whenever filtering to the end does not raise. *)
Lemma first_active_is_head act entities out :
  keep_active_is act entities = Ok out -> first_active_is act entities = Ok (head out).
Proof.
  revert out. induction entities as [|e rest IH]; intros out; cbn [keep_active_is first_active_is].
  - intros [= <-]. reflexivity.
  - destruct (getitem e "active") as [v|err]; cbn [res_bind]; [|discriminate].
    destruct (keep_active_is act rest) as [out'|err]; cbn [res_bind]; [|discriminate].
    intros [= <-]. destruct (py_is_bool act v); [reflexivity|]. apply IH. reflexivity.
Qed.

Lemma first_asset_head con project_name asset_ids asset_names parent_ids archived fields
    log l log' :
  get_assets DEFAULT_V3_FOLDER_FIELDS DEFAULT_FOLDER_FIELDS folder_fields_v3_to_v4
    convert_v4_folder_to_v3 con project_name asset_ids asset_names parent_ids archived
    fields log = (Ok l, log') ->
  first_asset DEFAULT_V3_FOLDER_FIELDS DEFAULT_FOLDER_FIELDS folder_fields_v3_to_v4
    convert_v4_folder_to_v3 con project_name asset_ids asset_names parent_ids archived
    fields log = (Ok (head l), log').
Proof.
  unfold get_assets, first_asset. case_decide; [intros [= <- <-]; reflexivity|].
  unfold bind at 1 3. unfold lift at 1 2.
  destruct (tasks_in _) as [[|]|e]; [| |discriminate].
  - unfold bind, ret.
    destruct (get_v4_folders_tasks _ _ _ _ _ _ _ _ _ _) as [[folders|e] log1];
      [|discriminate].
    intros [= <- <-]. rewrite first_or_none_head. destruct folders; reflexivity.
  - unfold get_v4_folders.
    destruct (get_v4_folders_filters _ _ _ _ _) as [filters|].
    + unfold bind, call, lift, ret.
      destruct (keep_active_is _ _) as [out|e] eqn:Hkeep; [|discriminate].
      intros [= <- <-]. rewrite (first_active_is_head _ _ _ Hkeep).
      destruct out; reflexivity.
    + unfold bind, ret. intros [= <- <-]. reflexivity.
Qed.

(** [get_assets] yields nothing, and asks nothing, for an empty project name;
    it raises [TypeError] when [folder_fields_v3_to_v4] returns [None], since
    it tests ["tasks" in fields]; otherwise it yields the conversions of the
    found folders whose [active] is [not archived], in order. *)
Theorem get_assets_yields_converted con project_name asset_ids asset_names parent_ids
    archived fields log :
  (project_name = "" ->
   get_assets DEFAULT_V3_FOLDER_FIELDS DEFAULT_FOLDER_FIELDS folder_fields_v3_to_v4
     convert_v4_folder_to_v3 con project_name asset_ids asset_names parent_ids archived
     fields log = (Ok [], log)) /\
  (project_name <> "" -> folder_fields_v3_to_v4 fields = None ->
   exists msg,
     get_assets DEFAULT_V3_FOLDER_FIELDS DEFAULT_FOLDER_FIELDS folder_fields_v3_to_v4
       convert_v4_folder_to_v3 con project_name asset_ids asset_names parent_ids archived
       fields log = (Raise (TypeError msg), log)) /\
  (project_name <> "" -> is_Some (folder_fields_v3_to_v4 fields) ->
   exists folders,
     filters_by_active con (negb archived) log folders /\
     get_assets DEFAULT_V3_FOLDER_FIELDS DEFAULT_FOLDER_FIELDS folder_fields_v3_to_v4
       convert_v4_folder_to_v3 con project_name asset_ids asset_names parent_ids archived
       fields log =
     (res_map (fmap (fun folder => convert_v4_folder_to_v3 folder project_name))
        (fst folders),
      snd folders)).
Proof.
  unfold get_assets. split; [|split].
  - intros ->. reflexivity.
  - intros Hname ->. rewrite decide_False by exact Hname. eexists. reflexivity.
  - intros Hname [v4 ->]. rewrite decide_False by exact Hname.
    unfold bind at 1. unfold lift at 1. cbn [tasks_in].
    assert (Hact : (if archived then false else true) = negb archived)
      by (destruct archived; reflexivity).
    rewrite Hact.
    destruct (bool_decide ("tasks" ∈ v4)).
    + exists (get_v4_folders_tasks DEFAULT_V3_FOLDER_FIELDS con project_name asset_ids None
                asset_names parent_ids (Some (negb archived)) (Some v4) log).
      split.
      * unfold get_v4_folders_tasks. destruct (get_v4_folders_filters _ _ _ _ _);
          [apply filters_by_active_call | apply filters_by_active_ret].
      * unfold bind, ret. destruct (get_v4_folders_tasks _ _ _ _ _ _ _ _ _ _) as [[fs|e] l];
          reflexivity.
    + exists (get_v4_folders DEFAULT_FOLDER_FIELDS con project_name asset_ids None
                asset_names parent_ids (Some (negb archived)) (Some v4) log).
      split.
      * unfold get_v4_folders. destruct (get_v4_folders_filters _ _ _ _ _);
          [apply filters_by_active_call | apply filters_by_active_ret].
      * unfold bind, ret. destruct (get_v4_folders _ _ _ _ _ _ _ _ _ _) as [[fs|e] l];
          reflexivity.
Qed.

(** [get_asset_by_id] and [get_asset_by_name] return the first asset that
    [get_assets] yields for the same filter, or [None] when it yields none,
    and send the same requests. *)
Theorem get_asset_by_id_first_of_get_assets con project_name fields log :
  (forall asset_id l log',
     get_assets DEFAULT_V3_FOLDER_FIELDS DEFAULT_FOLDER_FIELDS folder_fields_v3_to_v4
       convert_v4_folder_to_v3 con project_name (Some [asset_id]) None None false fields
       log = (Ok l, log') ->
     get_asset_by_id DEFAULT_V3_FOLDER_FIELDS DEFAULT_FOLDER_FIELDS folder_fields_v3_to_v4
       convert_v4_folder_to_v3 con project_name asset_id fields log = (Ok (head l), log')) /\
  (forall asset_name l log',
     get_assets DEFAULT_V3_FOLDER_FIELDS DEFAULT_FOLDER_FIELDS folder_fields_v3_to_v4
       convert_v4_folder_to_v3 con project_name None (Some [asset_name]) None false fields
       log = (Ok l, log') ->
     get_asset_by_name DEFAULT_V3_FOLDER_FIELDS DEFAULT_FOLDER_FIELDS
       folder_fields_v3_to_v4 convert_v4_folder_to_v3 con project_name asset_name fields
       log = (Ok (head l), log')).
Proof.
  split; intros x l log' H; apply first_asset_head; exact H.
Qed.

End AssetFacts.
(** ** Folders with subsets, subsets and representations *)

Section IdSetFacts.

(** A loop that reads [record[key]] of every record. *)
Lemma res_mapM_getitem key (l : list record) :
  match res_mapM (fun r => getitem r key) l with
  | Ok vs => Forall2 (fun r v => r !! key = Some v) l vs
  | Raise e => e = KeyError key /\ Exists (fun r => r !! key = None) l
  end.
Proof.
  induction l as [|r l IH]; [constructor|].
  cbn [res_mapM]. unfold getitem at 1.
  destruct (r !! key) as [v|] eqn:Hv; cbn [res_bind].
  - destruct (res_mapM _ l) as [vs|e]; cbn [res_bind].
    + constructor; assumption.
    + destruct IH as [-> Hex]. split; [reflexivity | apply Exists_cons_tl; exact Hex].
  - split; [reflexivity | apply Exists_cons_hd; exact Hv].
Qed.

Lemma list_to_set_empty_nil (l : list scalar) : (list_to_set l : gset scalar) = ∅ -> l = [].
Proof. destruct l as [|x l]; [reflexivity|]. simpl. intros H. set_solver. Qed.

Lemma id_set_cases (ids : option (list scalar)) :
  (ids = Some [] /\ id_set ids = None) \/
  (ids <> Some [] /\ id_set ids = Some (list_to_set <$> ids)).
Proof.
  destruct ids as [l|]; [|right; split; [discriminate | reflexivity]].
  unfold id_set. case_decide as He.
  - left. apply list_to_set_empty_nil in He. subst l. split; reflexivity.
  - right. split; [|reflexivity]. intros [= ->]. apply He. reflexivity.
Qed.

Lemma truthy_set_filter_lookup key (ids : option (list scalar)) filters :
  ids <> Some [] ->
  truthy_set_filter key (list_to_set <$> ids) filters !! key =
    match ids with
    | Some l => Some (FList (elements (list_to_set l : gset scalar)))
    | None => filters !! key
    end.
Proof.
  intros Hne. destruct ids as [l|]; [|reflexivity]. cbn [fmap option_fmap option_map].
  unfold truthy_set_filter. case_decide as He.
  - apply list_to_set_empty_nil in He. congruence.
  - apply lookup_insert_eq.
Qed.

Lemma truthy_set_filter_lookup_ne key k ids filters :
  k <> key -> truthy_set_filter key ids filters !! k = filters !! k.
Proof.
  intros Hne. unfold truthy_set_filter. destruct ids as [s|]; [|reflexivity].
  case_decide; [reflexivity|]. apply lookup_insert_ne. congruence.
Qed.

(** [get_asset_ids_with_subsets] returns the empty set, asking nothing, for
    an empty [asset_ids]; otherwise it sends one request for the field [id]
    of the folders that have subsets, filtered by the ids when they are
    given, and returns the set of the ids found; it raises [KeyError] when a
    found folder has no [id]. *)
Theorem get_asset_ids_with_subsets_outcome con project_name asset_ids log :
  (asset_ids = Some [] /\
   get_asset_ids_with_subsets con project_name asset_ids log = (Ok ∅, log)) \/
  (asset_ids <> Some [] /\
   exists rq,
     snd (get_asset_ids_with_subsets con project_name asset_ids log) = log ++ [rq] /\
     rq_query rq = Built "folders_graphql_query" {["id"]} /\
     rq_variables rq !! "projectName" = Some (FScalar (SStr project_name)) /\
     rq_variables rq !! "folderHasSubsets" = Some (FScalar (SBool true)) /\
     rq_variables rq !! "folderIds" =
       (fun l => FList (elements (list_to_set l : gset scalar))) <$> asset_ids /\
     match fst (get_asset_ids_with_subsets con project_name asset_ids log) with
     | Ok ids =>
         forall x, x ∈ ids <-> exists folder, folder ∈ con rq /\ folder !! "id" = Some x
     | Raise e => e = KeyError "id" /\ Exists (fun folder => folder !! "id" = None) (con rq)
     end).
Proof.
  unfold get_asset_ids_with_subsets.
  destruct (id_set_cases asset_ids) as [[-> ->]|[Hne ->]]; [left; split; reflexivity|].
  right. split; [exact Hne|]. cbv beta iota zeta.
  match goal with |- context [call con ?r] => exists r end.
  unfold bind, call, lift, ret. cbn [fst snd rq_query rq_variables].
  split; [|split; [|split; [|split; [|split]]]].
  5:{ rewrite truthy_set_filter_lookup by exact Hne.
      destruct asset_ids; reflexivity. }
  4:{ rewrite truthy_set_filter_lookup_ne by discriminate. apply lookup_insert_eq. }
  3:{ rewrite truthy_set_filter_lookup_ne by discriminate.
      rewrite lookup_insert_ne by discriminate. apply lookup_singleton_eq. }
  - destruct (res_mapM _ _); reflexivity.
  - reflexivity.
  - match goal with |- context [con ?r] => set (rq := r) end.
    clearbody rq. pose proof (res_mapM_getitem "id" (con rq)) as Hids.
    destruct (res_mapM _ (con rq)) as [ids|e]; cbn [fst]; [|exact Hids].
    intros x. rewrite elem_of_list_to_set. split.
    + intros Hx. clear -Hids Hx. induction Hids as [|r v l vs Hr _ IH].
      * inversion Hx.
      * apply elem_of_cons in Hx. destruct Hx as [->|Hx].
        -- exists r. split; [apply elem_of_cons; left; reflexivity | exact Hr].
        -- destruct (IH Hx) as (folder & Hin & Hf). exists folder.
           split; [apply elem_of_cons; right; exact Hin | exact Hf].
    + intros (folder & Hin & Hf). clear -Hids Hin Hf.
      induction Hids as [|r v l vs Hr _ IH]; [inversion Hin|].
      apply elem_of_cons in Hin. destruct Hin as [->|Hin].
      * apply elem_of_cons. left. congruence.
      * apply elem_of_cons. right. apply IH. exact Hin.
Qed.

Lemma elements_list_to_set_singleton (x : scalar) :
  elements (list_to_set [x] : gset scalar) = [x].
Proof. cbn [list_to_set]. rewrite (right_id_L ∅ (∪)). apply elements_singleton. Qed.

Lemma res_mapM_out_Forall {A B : Type} (f : A -> result B) (Q : B -> Prop) l ys :
  (forall x y, f x = Ok y -> Q y) -> res_mapM f l = Ok ys -> Forall Q ys.
Proof.
  intros HQ. revert ys. induction l as [|x l IH]; intros ys Hm.
  - injection Hm as <-. constructor.
  - cbn [res_mapM] in Hm. destruct (f x) as [y|e] eqn:Hx; [|discriminate].
    cbn [res_bind] in Hm. destruct (res_mapM f l) as [ys'|e]; [|discriminate].
    injection Hm as <-. constructor; [eapply HQ; exact Hx | apply IH; reflexivity].
Qed.

Lemma Forall_concat {A : Type} (Q : A -> Prop) (ls : list (list A)) :
  Forall (Forall Q) ls -> Forall Q (concat ls).
Proof.
  induction 1 as [|l ls Hl _ IH]; [constructor|]. simpl. apply Forall_app. split; assumption.
Qed.

(** Every record the name filter of [_get_subsets] appends is the subset the
    filing loop saw last. *)
Lemma filter_by_names_last by_folder_id last_subset items out :
  filter_by_names by_folder_id last_subset items = Ok out ->
  Forall (fun r => r = last_subset) out.
Proof.
  unfold filter_by_names.
  destruct (res_mapM _ items) as [found|e] eqn:Hfound; [|discriminate].
  cbn [res_bind]. intros [= <-].
  apply Forall_concat, Forall_concat.
  eapply res_mapM_out_Forall; [|exact Hfound].
  intros entry per_folder Hentry. cbv beta zeta in Hentry.
  eapply res_mapM_out_Forall; [|exact Hentry].
  intros folder_subset ys Hys. cbv beta in Hys.
  destruct (getitem folder_subset "name") as [name|e]; [|discriminate].
  cbn [res_bind] in Hys. injection Hys as <-.
  destruct (py_in name (snd entry)); repeat constructor.
Qed.

Lemma last_fmap_Some {A : Type} (l : list A) : List.last (Some <$> l) None = last l.
Proof.
  induction l as [|x l IH]; [reflexivity|].
  destruct l as [|y l]; [reflexivity|]. exact IH.
Qed.

End IdSetFacts.

Section SubsetFacts.

Variable DEFAULT_SUBSET_FIELDS : list string.
Variable subset_fields_v3_to_v4 : option (list string) -> option (gset string).
Variable convert_v4_subset_to_v3 : record -> record.

Ltac subset_lookup Hi Hn Hf :=
  repeat first
    [ rewrite truthy_set_filter_lookup_ne by discriminate
    | rewrite truthy_set_filter_lookup by first [exact Hi | exact Hn | exact Hf] ];
  repeat match goal with
         | |- context [match ?ids with Some _ => _ | None => _ end] => destruct ids
         end;
  try reflexivity.

(** Without [names_by_asset_ids], [get_subsets] never raises.  It returns
    the empty list, asking nothing, for an empty project name or an empty id
    filter; otherwise it sends one request, filtered by the ids and names
    given, and returns the conversion of every subset found, in order:
    [archived] is not looked at and nothing is filtered by [active]. *)
Theorem get_subsets_returns_found con project_name subset_ids subset_names asset_ids
    archived fields log :
  ((project_name = "" \/ subset_ids = Some [] \/ subset_names = Some [] \/
    asset_ids = Some []) /\
   get_subsets DEFAULT_SUBSET_FIELDS subset_fields_v3_to_v4 convert_v4_subset_to_v3 con
     project_name subset_ids subset_names asset_ids None archived fields log
     = (Ok [], log)) \/
  (project_name <> "" /\ subset_ids <> Some [] /\ subset_names <> Some [] /\
   asset_ids <> Some [] /\
   exists rq,
     get_subsets DEFAULT_SUBSET_FIELDS subset_fields_v3_to_v4 convert_v4_subset_to_v3 con
       project_name subset_ids subset_names asset_ids None archived fields log
       = (Ok (convert_v4_subset_to_v3 <$> con rq), log ++ [rq]) /\
     rq_query rq =
       Built "subsets_graphql_query"
         match subset_fields_v3_to_v4 fields with
         | Some fields => fields ∪ {["id"]} ∪ {["active"]}
         | None => list_to_set DEFAULT_SUBSET_FIELDS
         end /\
     rq_variables rq !! "projectName" = Some (FScalar (SStr project_name)) /\
     rq_variables rq !! "subsetIds" =
       (fun l => FList (elements (list_to_set l : gset scalar))) <$> subset_ids /\
     rq_variables rq !! "subsetNames" =
       (fun l => FList (elements (list_to_set l : gset scalar))) <$> subset_names /\
     rq_variables rq !! "folderIds" =
       (fun l => FList (elements (list_to_set l : gset scalar))) <$> asset_ids /\
     (forall k, k ∉ ["projectName"; "subsetIds"; "subsetNames"; "folderIds"] ->
                rq_variables rq !! k = None)).
Proof.
  unfold get_subsets, _get_subsets.
  case_decide as Hname; [left; split; [left; exact Hname | reflexivity]|].
  destruct (id_set_cases subset_ids) as [[-> ->]|[Hi ->]];
    [left; split; [right; left; reflexivity | reflexivity]|].
  destruct (id_set_cases subset_names) as [[-> ->]|[Hn ->]];
    [left; split; [right; right; left; reflexivity | reflexivity]|].
  destruct (id_set_cases asset_ids) as [[-> ->]|[Hf ->]];
    [left; split; [right; right; right; reflexivity | reflexivity]|].
  right. do 4 (split; [assumption|]). cbv beta iota zeta.
  match goal with |- context [call con ?r] => exists r end.
  unfold bind, call, ret. cbn [rq_query rq_variables].
  split; [reflexivity|]. split; [reflexivity|].
  split; [subset_lookup Hi Hn Hf|]. split; [subset_lookup Hi Hn Hf|].
  split; [subset_lookup Hi Hn Hf|]. split; [subset_lookup Hi Hn Hf|].
  intros k Hk. rewrite !not_elem_of_cons in Hk. destruct Hk as (K1 & K2 & K3 & K4 & _).
  rewrite !truthy_set_filter_lookup_ne by congruence.
  apply lookup_singleton_ne. congruence.
Qed.

(** [get_subset_by_id] and [get_subset_by_name] of a named project never
    raise: they send one request, filtered by the id, or by the name and the
    folder id, and return the conversion of the first subset found, or
    [None] when none is found. *)
Theorem get_subset_by_id_first_found con project_name fields log :
  project_name <> "" ->
  (forall subset_id, exists rq,
     get_subset_by_id DEFAULT_SUBSET_FIELDS subset_fields_v3_to_v4 convert_v4_subset_to_v3
       con project_name subset_id fields log
       = (Ok (convert_v4_subset_to_v3 <$> head (con rq)), log ++ [rq]) /\
     rq_variables rq =
       <["subsetIds" := FList [subset_id]]>
         {["projectName" := FScalar (SStr project_name)]}) /\
  (forall subset_name asset_id, exists rq,
     get_subset_by_name DEFAULT_SUBSET_FIELDS subset_fields_v3_to_v4
       convert_v4_subset_to_v3 con project_name subset_name asset_id fields log
       = (Ok (convert_v4_subset_to_v3 <$> head (con rq)), log ++ [rq]) /\
     rq_variables rq =
       <["subsetNames" := FList [subset_name]]>
         (<["folderIds" := FList [asset_id]]>
            {["projectName" := FScalar (SStr project_name)]})).
Proof.
  intros Hname. split.
  - intros subset_id. unfold get_subset_by_id, get_subsets, _get_subsets.
    rewrite decide_False by exact Hname.
    destruct (id_set_cases (Some [subset_id])) as [[[=] _]|[_ ->]].
    cbv beta iota zeta. cbn [id_set fmap option_fmap option_map].
    match goal with |- context [call con ?r] => exists r end.
    unfold bind at 1 2 3, call, ret. cbn [rq_variables].
    rewrite first_or_none_head. split.
    + destruct (con _); reflexivity.
    + cbn [truthy_set_filter]. rewrite decide_False by (cbn [list_to_set]; set_solver).
      rewrite elements_list_to_set_singleton. reflexivity.
  - intros subset_name asset_id. unfold get_subset_by_name, get_subsets, _get_subsets.
    rewrite decide_False by exact Hname.
    destruct (id_set_cases (Some [subset_name])) as [[[=] _]|[_ ->]].
    destruct (id_set_cases (Some [asset_id])) as [[[=] _]|[_ ->]].
    cbv beta iota zeta. cbn [id_set fmap option_fmap option_map].
    match goal with |- context [call con ?r] => exists r end.
    unfold bind at 1 2 3, call, ret. cbn [rq_variables].
    rewrite first_or_none_head. split.
    + destruct (con _); reflexivity.
    + cbn [truthy_set_filter]. rewrite !decide_False by (cbn [list_to_set]; set_solver).
      rewrite !elements_list_to_set_singleton. reflexivity.
Qed.

(** With [names_by_asset_ids] given, every record [get_subsets] returns is
    the conversion of one and the same subset, the last one the server
    found: the name filter appends the loop variable of the filing loop
    instead of the subset it has just matched. *)
Theorem get_subsets_by_names_yields_last con project_name subset_ids subset_names
    asset_ids (items : list (scalar * list scalar)) archived fields log out log' :
  get_subsets DEFAULT_SUBSET_FIELDS subset_fields_v3_to_v4 convert_v4_subset_to_v3 con
    project_name subset_ids subset_names asset_ids (Some items) archived fields log
    = (Ok out, log') ->
  out = [] \/
  exists rq last_subset,
    log' = log ++ [rq] /\ last (con rq) = Some last_subset /\
    Forall (fun r => r = convert_v4_subset_to_v3 last_subset) out.
Proof.
  unfold get_subsets, _get_subsets.
  case_decide as Hname; [intros [= <- _]; left; reflexivity|].
  destruct (id_set subset_ids) as [ids|]; [|intros [= <- _]; left; reflexivity].
  destruct (id_set subset_names) as [names|]; [|intros [= <- _]; left; reflexivity].
  destruct (id_set asset_ids) as [fids|]; [|intros [= <- _]; left; reflexivity].
  case_decide as Hempty; [intros [= <- _]; left; reflexivity|].
  cbv beta iota zeta.
  destruct items as [|item items]; [exfalso; apply Hempty; left; reflexivity|].
  match goal with |- context [call con ?r] => set (rq := r) end.
  unfold bind at 1 2. unfold call at 1. unfold bind at 1. unfold lift at 1.
  destruct (res_mapM _ (con rq)) as [by_folder_id|e]; [|discriminate].
  rewrite last_fmap_Some.
  destruct (last (con rq)) as [last_subset|] eqn:Hlast.
  - unfold lift, ret.
    destruct (filter_by_names _ _ _) as [found|e] eqn:Hfound; [|discriminate].
    intros [= <- <-]. right. exists rq, last_subset.
    split; [reflexivity|]. split; [exact Hlast|].
    apply filter_by_names_last in Hfound. apply Forall_fmap.
    eapply Forall_impl; [exact Hfound|]. intros r ->. reflexivity.
  - unfold ret. intros [= <- _]. left. reflexivity.
Qed.

End SubsetFacts.
(** ** The v3 representation and version getters *)

Section RepresentationFacts.

Variable DEFAULT_REPRESENTATION_FIELDS : list string.
Variable representation_fields_v3_to_v4 : option (list string) -> option (list string).
Variable convert_v4_representation_to_v3 : record -> record.

Lemma py_eq_none v : py_eq v SNone = true <-> v = SNone.
Proof. destruct v; simpl; split; congruence. Qed.

(** The comprehension [[r for r in representations if r["active"] == None]]. *)
Lemma keep_active_eq_none_spec entities :
  match keep_active_eq SNone entities with
  | Ok out => out = base.filter (fun r => r !! "active" = Some SNone) entities
  | Raise e => e = KeyError "active" /\ Exists (fun r => r !! "active" = None) entities
  end.
Proof.
  induction entities as [|r rest IH]; [reflexivity|].
  cbn [keep_active_eq]. unfold getitem.
  destruct (r !! "active") as [v|] eqn:Hv; cbn [res_bind].
  - destruct (keep_active_eq SNone rest) as [out|e]; cbn [res_bind].
    + subst out. destruct (py_eq v SNone) eqn:Heq.
      * apply py_eq_none in Heq. subst v.
        rewrite filter_cons_True by exact Hv. reflexivity.
      * rewrite filter_cons_False; [reflexivity|].
        rewrite Hv. intros [= ->]. discriminate Heq.
    + destruct IH as [-> Hex]. split; [reflexivity | apply Exists_cons_tl; exact Hex].
  - split; [reflexivity | apply Exists_cons_hd; exact Hv].
Qed.

(** [get_representations] raises [ValueError] when [context_filters] is
    given, before anything is asked, and returns the empty list, asking
    nothing, when neither archived nor standard representations are wanted.
    With exactly one of the two wanted it returns the conversion of every
    representation found, whatever its [active]; with both wanted it keeps
    the found representations whose [active] equals [None]. *)
Theorem get_representations_modes con project_name representation_ids
    representation_names version_ids names_by_version_ids archived standard fields log :
  (forall context_filters,
     get_representations DEFAULT_REPRESENTATION_FIELDS representation_fields_v3_to_v4
       convert_v4_representation_to_v3 con project_name representation_ids
       representation_names version_ids (Some context_filters) names_by_version_ids
       archived standard fields log
     = (Raise (ValueError "OP v4 can't filter by representation context."), log)) /\
  exists queried,
    ((queried = [] /\
      snd (get_representations DEFAULT_REPRESENTATION_FIELDS
             representation_fields_v3_to_v4 convert_v4_representation_to_v3 con
             project_name representation_ids representation_names version_ids None
             names_by_version_ids archived standard fields log) = log) \/
     (exists rq,
        queried = con rq /\
        snd (get_representations DEFAULT_REPRESENTATION_FIELDS
               representation_fields_v3_to_v4 convert_v4_representation_to_v3 con
               project_name representation_ids representation_names version_ids None
               names_by_version_ids archived standard fields log) = log ++ [rq] /\
        archived || standard = true /\
        (xorb archived standard = true -> "active" ∈ request_fields rq))) /\
    match archived, standard,
          fst (get_representations DEFAULT_REPRESENTATION_FIELDS
                 representation_fields_v3_to_v4 convert_v4_representation_to_v3 con
                 project_name representation_ids representation_names version_ids None
                 names_by_version_ids archived standard fields log) with
    | false, false, res => res = Ok [] /\ queried = []
    | true, true, Ok out =>
        out = convert_v4_representation_to_v3 <$>
                base.filter (fun r => r !! "active" = Some SNone) queried
    | true, true, Raise e =>
        e = KeyError "active" /\ Exists (fun r => r !! "active" = None) queried
    | _, _, res => res = Ok (convert_v4_representation_to_v3 <$> queried)
    end.
Proof.
  split; [reflexivity|].
  unfold get_representations, get_v4_representations.
  destruct archived, standard; cbn [negb andb orb xorb];
    try (exists []; split; [left; split; reflexivity | split; reflexivity]);
    destruct (get_v4_representations_filters _ _ _ _ _) as [filters|];
    try (exists []; split; [left; split; reflexivity | reflexivity]).
  - match goal with |- context [call con ?r] => exists (con r) end.
    unfold bind, call, lift, ret. cbn [fst snd of_opt_bool].
    pose proof (keep_active_eq_none_spec (con
      {| rq_query := Built "representations_graphql_query"
                       (add_active None
                          (select_fields (representation_fields_v3_to_v4 fields)
                             DEFAULT_REPRESENTATION_FIELDS));
         rq_variables := filters |})) as Hkeep.
    destruct (keep_active_eq SNone _) as [out|e]; cbn [fst snd].
    + split; [|rewrite Hkeep; reflexivity].
      right. eexists. split; [reflexivity|]. split; [reflexivity|].
      split; [reflexivity | discriminate].
    + split; [|exact Hkeep].
      right. eexists. split; [reflexivity|]. split; [reflexivity|].
      split; [reflexivity | discriminate].
  - match goal with |- context [call con ?r] => exists (con r) end.
    unfold bind, call, ret. cbn [fst snd]. split; [|reflexivity].
    right. eexists. split; [reflexivity|]. split; [reflexivity|].
    split; [reflexivity|]. intros _. unfold request_fields. cbn [rq_query].
    apply elem_of_add_active.
  - match goal with |- context [call con ?r] => exists (con r) end.
    unfold bind, call, ret. cbn [fst snd]. split; [|reflexivity].
    right. eexists. split; [reflexivity|]. split; [reflexivity|].
    split; [reflexivity|]. intros _. unfold request_fields. cbn [rq_query].
    apply elem_of_add_active.
Qed.

(** [get_representation_by_id] and [get_representation_by_name] never raise
    and always send one request, filtered by the id, or by the name and the
    version id, that asks for the field [active]; they return the conversion
    of the first representation found, whatever its [active], or [None] when
    none is found. *)
Theorem get_representation_by_id_first_found con project_name fields log :
  (forall representation_id, exists rq,
     get_representation_by_id DEFAULT_REPRESENTATION_FIELDS
       representation_fields_v3_to_v4 convert_v4_representation_to_v3 con project_name
       representation_id fields log
     = (Ok (convert_v4_representation_to_v3 <$> head (con rq)), log ++ [rq]) /\
     rq_variables rq =
       <["representationIds" := FList [representation_id]]>
         {["projectName" := FScalar (SStr project_name)]} /\
     "active" ∈ request_fields rq) /\
  (forall representation_name version_id, exists rq,
     get_representation_by_name DEFAULT_REPRESENTATION_FIELDS
       representation_fields_v3_to_v4 convert_v4_representation_to_v3 con project_name
       representation_name version_id fields log
     = (Ok (convert_v4_representation_to_v3 <$> head (con rq)), log ++ [rq]) /\
     rq_variables rq =
       <["representationNames" := FList [representation_name]]>
         (<["versionIds" := FList [version_id]]>
            {["projectName" := FScalar (SStr project_name)]}) /\
     "active" ∈ request_fields rq).
Proof.
  split.
  - intros representation_id.
    unfold get_representation_by_id, get_representations, get_v4_representations,
      get_v4_representations_filters.
    cbn [negb andb id_filter id_set mbind option_bind fst snd truthy_set_filter].
    rewrite decide_False by (cbn [list_to_set]; set_solver).
    cbn [mbind option_bind].
    match goal with |- context [call con ?r] => exists r end.
    unfold bind, call, ret. cbn [rq_variables]. rewrite first_or_none_head.
    split; [destruct (con _); reflexivity|].
    split; [rewrite elements_list_to_set_singleton; reflexivity|].
    unfold request_fields. cbn [rq_query]. apply elem_of_add_active.
  - intros representation_name version_id.
    unfold get_representation_by_name, get_representations, get_v4_representations,
      get_v4_representations_filters.
    cbn [negb andb id_filter id_set mbind option_bind fst snd].
    rewrite !decide_False by (cbn [list_to_set]; set_solver).
    cbn [mbind option_bind fst snd truthy_set_filter].
    rewrite !decide_False by (cbn [list_to_set]; set_solver).
    match goal with |- context [call con ?r] => exists r end.
    unfold bind, call, ret. cbn [rq_variables]. rewrite first_or_none_head.
    split; [destruct (con _); reflexivity|].
    split; [rewrite !elements_list_to_set_singleton; reflexivity|].
    unfold request_fields. cbn [rq_query]. apply elem_of_add_active.
Qed.

End RepresentationFacts.

Section VersionGetterFacts.

Variable DEFAULT_VERSION_FIELDS : list string.
Variable version_fields_v3_to_v4 : option (list string) -> option (list string).
Variable convert_v4_version_to_v3 : record -> record.

(** Whenever [get_version_by_id] or [get_version_by_name] return, the queried
    versions are those of one request, filtered by the id, or by the subset
    id and the version number, and the result is the conversion of the first
    of them that is not a hero version, or [None] when there is none: a hero
    version is not returned, also not for its own id. *)
Theorem get_version_by_id_first_standard con project_name fields log found log' :
  (forall version_id,
     get_version_by_id DEFAULT_VERSION_FIELDS version_fields_v3_to_v4
       convert_v4_version_to_v3 con project_name version_id fields log = (Ok found, log') ->
     exists rq,
       rq_variables rq =
         <["versionIds" := FList [version_id]]>
           {["projectName" := FScalar (SStr project_name)]} /\
       found = convert_v4_version_to_v3 <$>
                 head (base.filter (fun r => is_hero r = false) (con rq))) /\
  (forall version subset_id,
     get_version_by_name DEFAULT_VERSION_FIELDS version_fields_v3_to_v4
       convert_v4_version_to_v3 con project_name version subset_id fields log
       = (Ok found, log') ->
     exists rq,
       rq_variables rq =
         <["versions" := FList [version]]>
           (<["subsetIds" := FList [subset_id]]>
              {["projectName" := FScalar (SStr project_name)]}) /\
       found = convert_v4_version_to_v3 <$>
                 head (base.filter (fun r => is_hero r = false) (con rq))).
Proof.
  split.
  - intros version_id. unfold get_version_by_id, get_versions. unfold bind at 1.
    destruct (_get_versions _ _ _ _ _ _ _ _ _ _ _ _ _) as [[out|e] log1] eqn:H;
      [|discriminate].
    unfold ret. intros [= <- <-].
    destruct (get_versions_outcome _ _ _ _ _ _ _ _ _ _ _ _ _ _ _ H) as (queried & Hq & ->).
    unfold get_v4_versions_filters in Hq.
    cbn [id_filter mbind option_bind negb andb truthy] in Hq.
    rewrite decide_False in Hq by (cbn [list_to_set]; set_solver).
    cbn [mbind option_bind negb andb truthy] in Hq.
    destruct Hq as (rq & Hrq & ->). exists rq.
    split; [rewrite Hrq, elements_list_to_set_singleton; reflexivity|].
    rewrite first_or_none_head. destruct (base.filter _ (con rq)); reflexivity.
  - intros version subset_id. unfold get_version_by_name, get_versions. unfold bind at 1.
    destruct (_get_versions _ _ _ _ _ _ _ _ _ _ _ _ _) as [[out|e] log1] eqn:H;
      [|discriminate].
    unfold ret. intros [= <- <-].
    destruct (get_versions_outcome _ _ _ _ _ _ _ _ _ _ _ _ _ _ _ H) as (queried & Hq & ->).
    unfold get_v4_versions_filters in Hq.
    cbn [id_filter mbind option_bind negb andb truthy] in Hq.
    repeat (rewrite decide_False in Hq by (cbn [list_to_set]; set_solver);
            cbn [id_filter mbind option_bind negb andb truthy] in Hq).
    destruct Hq as (rq & Hrq & ->). exists rq.
    split; [rewrite Hrq, !elements_list_to_set_singleton; reflexivity|].
    rewrite first_or_none_head. destruct (base.filter _ (con rq)); reflexivity.
Qed.

End VersionGetterFacts.
(** ** The v3 getters on concrete servers *)

Lemma get_asset_by_id_first_of_get_assets_witness :
  get_asset_by_id [] [] (fun _ => Some ["name"]) (fun folder _ => folder)
    (con_const [archived_folder; active_folder]) "proj" (SStr "f1") None []
  = (Ok (head [active_folder]),
     snd (get_assets [] [] (fun _ => Some ["name"]) (fun folder _ => folder)
            (con_const [archived_folder; active_folder]) "proj" (Some [SStr "f1"]) None
            None false None [])).
Proof.
  assert (Hrun :
    get_assets [] [] (fun _ => Some ["name"]) (fun folder _ => folder)
      (con_const [archived_folder; active_folder]) "proj" (Some [SStr "f1"]) None None
      false None [] =
    (Ok [active_folder],
     snd (get_assets [] [] (fun _ => Some ["name"]) (fun folder _ => folder)
            (con_const [archived_folder; active_folder]) "proj" (Some [SStr "f1"]) None
            None false None [])))
    by (vm_compute; reflexivity).
  exact (proj1 (get_asset_by_id_first_of_get_assets [] [] (fun _ => Some ["name"])
                  (fun folder _ => folder) (con_const [archived_folder; active_folder])
                  "proj" None []) (SStr "f1") _ _ Hrun).
Defined.

Lemma get_subset_by_id_first_found_witness :
  exists rq,
    get_subset_by_id [] (fun _ => None) (fun subset => subset)
      (con_const [subset_a; subset_b]) "proj" (SStr "s1") None []
    = (Ok (Some subset_a), [rq]) /\
    rq_variables rq =
      <["subsetIds" := FList [SStr "s1"]]> {["projectName" := FScalar (SStr "proj")]}.
Proof.
  assert (Hname : "proj" <> "") by discriminate.
  exact (proj1 (get_subset_by_id_first_found [] (fun _ => None) (fun subset => subset)
                  (con_const [subset_a; subset_b]) "proj" None [] Hname) (SStr "s1")).
Defined.

Lemma get_subsets_by_names_yields_last_witness :
  fst (get_subsets [] (fun _ => None) (fun subset => subset)
         (con_const [subset_a; subset_b]) "proj" None None None
         (Some [(SStr "f1", [SStr "modelMain"])]) false None [])
  = Ok [subset_b] /\
  ([subset_b] = [] \/
   exists rq last_subset,
     snd (get_subsets [] (fun _ => None) (fun subset => subset)
            (con_const [subset_a; subset_b]) "proj" None None None
            (Some [(SStr "f1", [SStr "modelMain"])]) false None [])
     = [] ++ [rq] /\
     last (con_const [subset_a; subset_b] rq) = Some last_subset /\
     Forall (fun r => r = last_subset) [subset_b]).
Proof.
  assert (Hrun :
    get_subsets [] (fun _ => None) (fun subset => subset)
      (con_const [subset_a; subset_b]) "proj" None None None
      (Some [(SStr "f1", [SStr "modelMain"])]) false None [] =
    (Ok [subset_b],
     snd (get_subsets [] (fun _ => None) (fun subset => subset)
            (con_const [subset_a; subset_b]) "proj" None None None
            (Some [(SStr "f1", [SStr "modelMain"])]) false None [])))
    by (vm_compute; reflexivity).
  split; [rewrite Hrun; reflexivity|].
  exact (get_subsets_by_names_yields_last [] (fun _ => None) (fun subset => subset)
           (con_const [subset_a; subset_b]) "proj" None None None
           [(SStr "f1", [SStr "modelMain"])] false None [] _ _ Hrun).
Defined.

Lemma get_version_by_id_first_standard_witness :
  exists rq,
    rq_variables rq =
      <["versionIds" := FList [SStr "H3"]]> {["projectName" := FScalar (SStr "proj")]} /\
    Some version_1 =
      (fun version => version) <$>
        head (base.filter (fun r => is_hero r = false)
                (con_const [hero_version_3; version_1] rq)).
Proof.
  assert (Hrun :
    get_version_by_id [] (fun fields => fields) (fun version => version)
      (con_const [hero_version_3; version_1]) "proj" (SStr "H3") None [] =
    (Ok (Some version_1),
     snd (get_version_by_id [] (fun fields => fields) (fun version => version)
            (con_const [hero_version_3; version_1]) "proj" (SStr "H3") None [])))
    by (vm_compute; reflexivity).
  exact (proj1 (get_version_by_id_first_standard [] (fun fields => fields)
                  (fun version => version) (con_const [hero_version_3; version_1])
                  "proj" None [] (Some version_1) _) (SStr "H3") Hrun).
Defined.
(** ** The builders mirror the trie *)

Section MirrorFacts.

Lemma item_of_node_dict key items :
  item_of_node key (Dict items) = MkItem key false [] (items_of_nodes items).
Proof.
  cbn [item_of_node]. f_equal. unfold items_of_nodes.
  induction items as [|[k c] items IH]; [reflexivity|]. rewrite IH. reflexivity.
Qed.

Lemma update_at_single i f cs : update_at [i] f cs = alter f i cs.
Proof. reflexivity. Qed.

Lemma update_at_nested i j r f cs :
  update_at (i :: j :: r) f cs =
  alter (fun it => MkItem (item_name it) (item_has_edges it) (item_filters it)
                     (update_at (j :: r) f (item_children it))) i cs.
Proof. reflexivity. Qed.

Lemma item_at_single i cs : item_at [i] cs = cs !! i.
Proof. cbn [item_at]. destruct (cs !! i); reflexivity. Qed.

Lemma item_at_nested i j r cs :
  item_at (i :: j :: r) cs =
  match cs !! i with
  | Some it => item_at (j :: r) (item_children it)
  | None => None
  end.
Proof. reflexivity. Qed.

Lemma item_at_app_l r cs xs it :
  item_at r cs = Some it -> item_at r (cs ++ xs) = Some it.
Proof.
  destruct r as [|i rr]; [discriminate|]. cbn [item_at].
  destruct (cs !! i) as [c|] eqn:Hc; [|discriminate].
  rewrite (lookup_app_l_Some _ _ _ _ Hc). trivial.
Qed.

Lemma update_at_app_l r f cs xs :
  is_Some (item_at r cs) -> update_at r f (cs ++ xs) = update_at r f cs ++ xs.
Proof.
  destruct r as [|i rr]; [reflexivity|]. intros [it H]. cbn [item_at] in H.
  destruct (cs !! i) eqn:Hc; [|discriminate]. apply lookup_lt_Some in Hc.
  cbn [update_at]. destruct rr; apply alter_app_l; exact Hc.
Qed.

Lemma update_at_ext f g :
  (forall it, f it = g it) -> forall p cs, update_at p f cs = update_at p g cs.
Proof.
  intros Hfg. induction p as [|i pp IH]; intros cs; [reflexivity|].
  cbn [update_at]. destruct pp as [|i' pp'].
  - apply list_alter_ext; [|reflexivity]. intros it _. apply Hfg.
  - apply list_alter_ext; [|reflexivity]. intros it _. f_equal. apply IH.
Qed.

Lemma update_at_id f :
  (forall it, f it = it) -> forall p cs, update_at p f cs = cs.
Proof.
  intros Hf. induction p as [|i pp IH]; intros cs; [reflexivity|].
  cbn [update_at]. destruct pp as [|i' pp'].
  - apply list_alter_id. intros it. apply Hf.
  - apply list_alter_id. intros it. rewrite IH. destruct it; reflexivity.
Qed.

Lemma update_at_compose f g :
  forall p cs, update_at p f (update_at p g cs) = update_at p (fun it => f (g it)) cs.
Proof.
  induction p as [|i pp IH]; intros cs; [reflexivity|].
  cbn [update_at]. destruct pp as [|i' pp'].
  - rewrite list_alter_alter_eq. reflexivity.
  - rewrite list_alter_alter_eq. apply list_alter_ext; [|reflexivity].
    intros it _. unfold compose. cbn [item_name item_has_edges item_filters item_children].
    f_equal. apply IH.
Qed.

(** Appending to the children of one item and changing another item are
    independent, as long as the first is not the second or below it. *)
Lemma update_at_commute xs g :
  forall a b cs,
    ~ b `prefix_of` a -> is_Some (item_at b cs) ->
    update_at a (add_children xs) (update_at b g cs) =
    update_at b g (update_at a (add_children xs) cs).
Proof.
  induction a as [|i ra IH]; intros b cs Hpre Hvalid; [reflexivity|].
  destruct b as [|j rb]; [reflexivity|].
  destruct (decide (i = j)) as [->|Hij].
  - destruct ra as [|i' ra'], rb as [|j' rb'].
    + exfalso. apply Hpre. reflexivity.
    + rewrite update_at_single, !update_at_nested, update_at_single.
      rewrite !list_alter_alter_eq.
      apply list_alter_ext; [|reflexivity]. intros it Hit. unfold compose, add_children.
      cbn [item_name item_has_edges item_filters item_children]. f_equal.
      symmetry. apply update_at_app_l.
      rewrite item_at_nested, Hit in Hvalid. exact Hvalid.
    + exfalso. apply Hpre. apply prefix_cons, prefix_nil.
    + rewrite !update_at_nested. rewrite !list_alter_alter_eq.
      apply list_alter_ext; [|reflexivity]. intros it Hit. unfold compose.
      cbn [item_name item_has_edges item_filters item_children]. f_equal.
      apply IH.
      * intros Hp. apply Hpre. apply prefix_cons. exact Hp.
      * rewrite item_at_nested, Hit in Hvalid. exact Hvalid.
  - cbn [update_at]. destruct ra, rb; apply list_alter_alter_ne; exact Hij.
Qed.

(** An item stays where it is when a field is added anywhere. *)
Lemma item_at_attach_valid xs :
  forall r p cs,
    is_Some (item_at r cs) -> is_Some (item_at r (update_at p (add_children xs) cs)).
Proof.
  induction r as [|i rr IH]; intros p cs H; [destruct H; discriminate|].
  destruct p as [|j pp]; [exact H|].
  cbn [item_at] in H |- *.
  destruct (cs !! i) as [it|] eqn:Hit; [|destruct H; discriminate].
  destruct (decide (j = i)) as [->|Hji].
  - cbn [update_at]. destruct pp as [|j' pp'].
    + rewrite list_lookup_alter_eq, Hit. cbn [fmap option_fmap option_map].
      destruct rr as [|i' rr']; [eauto|].
      unfold add_children. cbn [item_children].
      destruct H as [x Hx]. exists x. apply item_at_app_l. exact Hx.
    + rewrite list_lookup_alter_eq, Hit. cbn [fmap option_fmap option_map].
      destruct rr as [|i' rr']; [eauto|].
      cbn [item_children]. apply IH. exact H.
  - assert (Hsame : update_at (j :: pp) (add_children xs) cs !! i = Some it).
    { cbn [update_at]. destruct pp; rewrite list_lookup_alter_ne by exact Hji; exact Hit. }
    rewrite Hsame. exact H.
Qed.

(** The field just added is found behind the handle [add_field] returns. *)
Lemma item_at_attach_new x :
  forall p cs it,
    item_at p cs = Some it ->
    item_at (p ++ [length (item_children it)]) (update_at p (add_children [x]) cs) = Some x.
Proof.
  induction p as [|i pp IH]; intros cs it H; [discriminate|].
  cbn [item_at] in H. destruct (cs !! i) as [c|] eqn:Hc; [|discriminate].
  destruct pp as [|i' pp'].
  - injection H as ->. cbn [app item_at update_at].
    rewrite list_lookup_alter_eq, Hc. cbn [fmap option_fmap option_map].
    unfold add_children. cbn [item_children].
    rewrite lookup_app_r by lia. rewrite Nat.sub_diag. reflexivity.
  - change ((i :: i' :: pp') ++ [length (item_children it)])
      with (i :: i' :: (pp' ++ [length (item_children it)])).
    cbn [item_at update_at]. rewrite list_lookup_alter_eq, Hc.
    cbn [fmap option_fmap option_map item_children].
    exact (IH (item_children c) it H).
Qed.

(** Before a field is added, its handle addresses nothing. *)
Lemma item_at_fresh :
  forall p cs it,
    item_at p cs = Some it -> item_at (p ++ [length (item_children it)]) cs = None.
Proof.
  induction p as [|i pp IH]; intros cs it H; [discriminate|].
  cbn [item_at] in H. destruct (cs !! i) as [c|] eqn:Hc; [|discriminate].
  destruct pp as [|i' pp'].
  - injection H as ->. cbn [app item_at]. rewrite Hc.
    rewrite lookup_ge_None_2 by lia. reflexivity.
  - change ((i :: i' :: pp') ++ [length (item_children it)])
      with (i :: i' :: (pp' ++ [length (item_children it)])).
    cbn [item_at]. rewrite Hc. exact (IH (item_children c) it H).
Qed.

Lemma item_at_prefix :
  forall f s cs, f <> [] -> is_Some (item_at (f ++ s) cs) -> is_Some (item_at f cs).
Proof.
  induction f as [|i ff IH]; intros s cs Hne H; [congruence|].
  cbn [app item_at] in H |- *.
  destruct (cs !! i) as [c|]; [|exact H].
  destruct ff as [|i' ff']; [eauto|].
  cbn [app] in H. apply (IH s); [discriminate | exact H].
Qed.

(** Filling in the children of the field just added is the same as adding
    the field with its children. *)
Lemma update_at_attach_below key has_edges filters ys :
  forall p cs it,
    item_at p cs = Some it ->
    update_at (p ++ [length (item_children it)]) (add_children ys)
      (update_at p (add_children [MkItem key has_edges filters []]) cs) =
    update_at p (add_children [MkItem key has_edges filters ys]) cs.
Proof.
  induction p as [|i pp IH]; intros cs it H; [discriminate|].
  cbn [item_at] in H. destruct (cs !! i) as [c|] eqn:Hc; [|discriminate].
  destruct pp as [|i' pp'].
  - injection H as ->. cbn [app update_at]. rewrite list_alter_alter_eq.
    apply list_alter_ext; [|reflexivity]. intros x Hx.
    rewrite Hc in Hx. injection Hx as <-.
    unfold compose, add_children.
    cbn [item_name item_has_edges item_filters item_children]. f_equal.
    rewrite <- (Nat.add_0_r (length (item_children it))).
    rewrite alter_app_r. reflexivity.
  - change ((i :: i' :: pp') ++ [length (item_children it)])
      with (i :: i' :: (pp' ++ [length (item_children it)])).
    cbn [update_at]. rewrite list_alter_alter_eq.
    apply list_alter_ext; [|reflexivity]. intros x Hx.
    rewrite Hc in Hx. injection Hx as <-. unfold compose.
    cbn [item_name item_has_edges item_filters item_children]. f_equal.
    exact (IH (item_children c) it H).
Qed.

Lemma attach_all_app a b cs : attach_all (a ++ b) cs = attach_all b (attach_all a cs).
Proof. unfold attach_all. apply fold_left_app. Qed.

(** Entries with one parent put their items under it, in their order. *)
Lemma attach_all_same (f : item_ref) :
  forall items cs,
    attach_all ((fun kv => (fst kv, snd kv, f)) <$> items) cs =
    update_at f (add_children (items_of_nodes items)) cs.
Proof.
  induction items as [|kv items IH]; intros cs.
  - cbn. symmetry. apply update_at_id. intros [n e fl ch]. unfold add_children.
    cbn. rewrite app_nil_r. reflexivity.
  - cbn [fmap list_fmap attach_all fold_left fst snd].
    change (fold_left _ (list_fmap _ _ _ items) ?c)
      with (attach_all ((fun kv => (fst kv, snd kv, f)) <$> items) c).
    rewrite IH. rewrite update_at_compose. apply update_at_ext.
    intros [n e fl ch]. unfold add_children, items_of_nodes.
    cbn [item_name item_has_edges item_filters item_children fmap list_fmap].
    rewrite <- app_assoc. reflexivity.
Qed.

Lemma update_at_attach_all f g :
  forall rest cs,
    is_Some (item_at f cs) ->
    Forall (fun entry : string * node * item_ref => ~ f `prefix_of` snd entry) rest ->
    update_at f g (attach_all rest cs) = attach_all rest (update_at f g cs).
Proof.
  induction rest as [|entry rest IH]; intros cs Hvalid Hrest; [reflexivity|].
  apply Forall_cons_1 in Hrest. destruct Hrest as [Hentry Hrest].
  cbn [attach_all fold_left].
  change (fold_left _ rest ?c) with (attach_all rest c).
  rewrite IH; [|apply item_at_attach_valid; exact Hvalid | exact Hrest].
  rewrite update_at_commute by assumption. reflexivity.
Qed.

(** What the loop of a builder makes of the queue: every entry ends up,
    under its parent, as the item tree of its value. *)
Lemma expand_attach fuel :
  forall query_queue query query',
    Forall (fun entry : string * node * item_ref =>
              is_Some (item_at (snd entry) (q_children query))) query_queue ->
    expand fuel query_queue query = Some query' ->
    q_children query' = attach_all query_queue (q_children query) /\
    q_variables query' = q_variables query /\ q_name query' = q_name query.
Proof.
  induction fuel as [|fuel IH]; intros [|[[key value] parent] rest] query query' Hvalid;
    cbn [expand]; try discriminate; try (intros [= <-]; repeat split; reflexivity).
  apply Forall_cons_1 in Hvalid. destruct Hvalid as [[it Hparent] Hrest].
  cbn [snd] in Hparent. unfold item_add_field. rewrite Hparent.
  set (field := parent ++ [length (item_children it)]).
  set (children1 := update_at parent _ (q_children query)).
  assert (Hrest1 : Forall (fun entry : string * node * item_ref =>
                             is_Some (item_at (snd entry) children1)) rest).
  { eapply Forall_impl; [exact Hrest|]. intros entry He.
    apply (item_at_attach_valid [new_item key None]). exact He. }
  assert (Hfield : item_at field children1 = Some (new_item key None)).
  { apply (item_at_attach_new (new_item key None)). exact Hparent. }
  destruct value as [|items]; intros Hex.
  - apply IH in Hex; [|exact Hrest1]. cbn [q_children q_variables q_name] in Hex.
    destruct Hex as (Hch & Hvars & Hname). repeat split; assumption.
  - apply IH in Hex.
    2:{ cbn [q_children]. apply Forall_app. split; [exact Hrest1|].
        apply Forall_fmap. apply Forall_forall. intros kv _. unfold compose. cbn [snd].
        rewrite Hfield. eauto. }
    cbn [q_children q_variables q_name] in Hex.
    destruct Hex as (Hch & Hvars & Hname). split; [|split; assumption].
    rewrite Hch, attach_all_app, attach_all_same.
    rewrite update_at_attach_all.
    + cbn [attach_all fold_left fst snd]. f_equal.
      rewrite item_of_node_dict. subst children1 field.
      apply (update_at_attach_below key false [] (items_of_nodes items)). exact Hparent.
    + rewrite Hfield. eauto.
    + eapply Forall_impl; [exact Hrest|]. intros entry He [s Hs].
      assert (Hf : is_Some (item_at field (q_children query))).
      { apply (item_at_prefix field s); [subst field; destruct parent; discriminate|].
        rewrite <- Hs. exact He. }
      subst field. rewrite (item_at_fresh _ _ _ Hparent) in Hf.
      destruct Hf; discriminate.
Qed.

(** The query [projects_graphql_from_fields] builds has the single field
    [projects], with edges, and the one of [project_graphql_from_fields] the
    single field [project], filtered by name; below it the item tree is the
    trie of [fields_to_dict]: one field per key, in the order of the trie,
    a nested [dict] giving the children, and [name] left out at the top for
    [project_graphql_from_fields]. *)
Theorem graphql_from_fields_mirrors_trie (fields : list string) items :
  fields_to_dict fields = Some (Dict items) ->
  (exists q,
     projects_graphql_from_fields fields = Some (BuiltQuery q) /\
     q_name q = "ProjectsQuery" /\
     q_children q = [MkItem "projects" true [] (items_of_nodes items)]) /\
  (forall project_name, exists q,
     project_graphql_from_fields project_name fields = Some (BuiltQuery q) /\
     q_name q = "ProjectQuery" /\
     q_children q =
       [MkItem "project" false [("name", FScalar (SStr "$projectName"))]
          (items_of_nodes (base.filter (fun kv => fst kv <> "name") items))]).
Proof.
  intros Hdict. split.
  - unfold projects_graphql_from_fields. rewrite Hdict.
    cbn [query_add_field new_query q_children q_variables q_name length app fst snd].
    match goal with
    | |- context [expand (queue_weight ?queue) ?queue ?q0] =>
        set (query_queue := queue); set (query := q0)
    end.
    destruct (expand_fuel (queue_weight query_queue) query_queue query (Nat.le_refl _))
      as [q' Hex].
    exists q'. rewrite Hex. split; [reflexivity|].
    apply expand_attach in Hex.
    + destruct Hex as (Hch & _ & Hname). split; [exact Hname|].
      rewrite Hch. subst query_queue. rewrite attach_all_same. reflexivity.
    + subst query_queue. apply Forall_fmap. apply Forall_forall. intros kv _.
      unfold compose. cbn. eauto.
  - intros project_name. unfold project_graphql_from_fields. rewrite Hdict.
    cbn [add_variable query_add_field item_filter new_query q_children q_variables q_name
         length app fst snd dict_set update_at alter list_alter new_item default
         item_name item_has_edges item_filters item_children filters_store].
    match goal with
    | |- context [expand (queue_weight ?queue) ?queue ?q0] =>
        set (query_queue := queue); set (query := q0)
    end.
    destruct (expand_fuel (queue_weight query_queue) query_queue query (Nat.le_refl _))
      as [q' Hex].
    exists q'. rewrite Hex. split; [reflexivity|].
    apply expand_attach in Hex.
    + destruct Hex as (Hch & _ & Hname). split; [exact Hname|].
      rewrite Hch. subst query_queue. rewrite attach_all_same. reflexivity.
    + subst query_queue. apply Forall_fmap. apply Forall_forall. intros kv _.
      unfold compose. cbn. eauto.
Qed.

End MirrorFacts.

Lemma graphql_from_fields_mirrors_trie_witness :
  exists q,
    projects_graphql_from_fields ["data.family"; "name"; "data.label"] =
      Some (BuiltQuery q) /\
    q_children q =
      [MkItem "projects" true []
         [MkItem "data" false [] [MkItem "family" false [] []; MkItem "label" false [] []];
          MkItem "name" false [] []]].
Proof.
  assert (Hdict :
    fields_to_dict ["data.family"; "name"; "data.label"] =
    Some (Dict [("data", Dict [("family", ALL_SUBFIELDS); ("label", ALL_SUBFIELDS)]);
                ("name", ALL_SUBFIELDS)]))
    by reflexivity.
  destruct (proj1 (graphql_from_fields_mirrors_trie _ _ Hdict)) as (q & Hq & _ & Hch).
  exists q. split; [exact Hq | exact Hch].
Defined.
(** ** get_last_version_by_subset_name *)

Section LastVersionFacts.

Variable DEFAULT_V3_FOLDER_FIELDS : list string.
Variable DEFAULT_FOLDER_FIELDS : list string.
Variable DEFAULT_SUBSET_FIELDS : list string.
Variable DEFAULT_VERSION_FIELDS : list string.
Variable folder_fields_v3_to_v4 : option (list string) -> option (list string).
Variable convert_v4_folder_to_v3 : record -> string -> record.
Variable subset_fields_v3_to_v4 : option (list string) -> option (gset string).
Variable convert_v4_subset_to_v3 : record -> record.
Variable version_fields_v3_to_v4 : option (list string) -> option (list string).
Variable convert_v4_version_to_v3 : record -> record.

Lemma get_last_version_by_subset_id_none con project_name subset_id fields log :
  match fst (get_last_version_by_subset_id DEFAULT_VERSION_FIELDS version_fields_v3_to_v4
               convert_v4_version_to_v3 con project_name subset_id fields log) with
  | Ok found => found = None
  | Raise _ => True
  end.
Proof.
  unfold get_last_version_by_subset_id, bind.
  destruct (_get_versions _ _ _ _ _ _ _ _ _ _ _ _ _) as [[[|v vs]|e] log']; cbn; trivial.
Qed.

(** [get_last_version_by_subset_name] returns [None], asking nothing, when
    neither an asset id nor an asset name is given; and whatever is given,
    it returns [None] whenever it returns: through
    [get_last_version_by_subset_id] it never delivers a version. *)
Theorem get_last_version_by_subset_name_finds_nothing con project_name subset_name asset_id
    asset_name fields log :
  (py_truthy asset_id = false -> py_truthy asset_name = false ->
   get_last_version_by_subset_name DEFAULT_V3_FOLDER_FIELDS DEFAULT_FOLDER_FIELDS
     DEFAULT_SUBSET_FIELDS DEFAULT_VERSION_FIELDS folder_fields_v3_to_v4
     convert_v4_folder_to_v3 subset_fields_v3_to_v4 convert_v4_subset_to_v3
     version_fields_v3_to_v4 convert_v4_version_to_v3 con project_name subset_name
     asset_id asset_name fields log = (Ok None, log)) /\
  match fst (get_last_version_by_subset_name DEFAULT_V3_FOLDER_FIELDS DEFAULT_FOLDER_FIELDS
               DEFAULT_SUBSET_FIELDS DEFAULT_VERSION_FIELDS folder_fields_v3_to_v4
               convert_v4_folder_to_v3 subset_fields_v3_to_v4 convert_v4_subset_to_v3
               version_fields_v3_to_v4 convert_v4_version_to_v3 con project_name
               subset_name asset_id asset_name fields log) with
  | Ok found => found = None
  | Raise _ => True
  end.
Proof.
  unfold get_last_version_by_subset_name. split.
  - intros -> ->. reflexivity.
  - assert (Hrest : forall asset_id log1,
      match fst ((subset <~ get_subset_by_name DEFAULT_SUBSET_FIELDS subset_fields_v3_to_v4
                               convert_v4_subset_to_v3 con project_name subset_name
                               asset_id (Some ["_id"]) ;;
                  match subset with
                  | None => ret None
                  | Some subset =>
                      if decide (subset = ∅) then ret None
                      else
                        subset_id <~ lift (getitem subset "id") ;;
                        get_last_version_by_subset_id DEFAULT_VERSION_FIELDS
                          version_fields_v3_to_v4 convert_v4_version_to_v3 con
                          project_name subset_id fields
                  end)%py log1) with
      | Ok found => found = None
      | Raise _ => True
      end).
    { intros asset_id' log1. unfold bind at 1.
      destruct (get_subset_by_name _ _ _ _ _ _ _ _ _) as [[[subset|]|e] log2];
        [|reflexivity|exact I].
      case_decide; [reflexivity|]. unfold bind at 1. unfold lift at 1.
      destruct (getitem subset "id") as [subset_id|e]; [|exact I].
      apply get_last_version_by_subset_id_none. }
    destruct (py_truthy asset_id); cbn [negb andb]; [apply Hrest|].
    destruct (py_truthy asset_name); cbn [negb andb]; [|reflexivity].
    unfold bind at 1.
    destruct (get_asset_by_name _ _ _ _ _ _ _ _ _) as [[[asset|]|e] log2];
      [|reflexivity|exact I].
    case_decide; [reflexivity|]. unfold bind at 1. unfold lift at 1.
    destruct (getitem asset "_id") as [asset_id'|e]; [|exact I].
    apply Hrest.
Qed.

End LastVersionFacts.
